(** * RE_TRACKER dashboard: the data pipeline of [frontend/chart.js]

    A shallow embedding of the client-side pipeline (dataset cache, demo-data
    generator, timeframe filter, simple moving average, chart composition and
    statistics cards), of the tooltip callback and of the refresh button,
    together with the properties stated about them.

    Conventions of the embedding.
    - A JavaScript number is an element of a type [num] equipped with the
      operations the program uses (class [Number]).  The instance is
      IEEE-754 binary64 (Rocq's primitive floats, the numbers a JavaScript
      engine computes with); what does not depend on the arithmetic is
      stated for every instance.
    - Array indices, periods and window sizes are integers ([Z]); the result of
      [parseInt] is [option Z], [None] standing for NaN.
    - [null] entries of an array of numbers are [None].
    - A time value is a number of milliseconds since the epoch, and the time
      zone is part of the environment.  The date of a data point is a
      calendar-day number; the source holds its ISO-8601 rendering
      ([YYYY-MM-DD]).
    - Functions that read or write the globals [housingChart] and [cachedData]
      or the page are computations in a state-and-exception monad [Js]; a
      thrown exception keeps the mutations made before it. *)

From Stdlib Require Import ZArith List String Ascii Bool Lia.
From Stdlib Require Import DecimalString DecimalPos.
From Stdlib Require Import Floats.
From Stdlib Require Uint63.
Import ListNotations.

Set Implicit Arguments.

(** ** The fragment of the JavaScript library the program relies on *)

Module JS.

(** [Array.prototype.slice]: a negative index counts from the end, and both
    bounds are clamped to the array. *)
Definition relativeIndex (len k : Z) : Z :=
  if (k <? 0)%Z then Z.max (len + k) 0 else Z.min k len.

Definition slice {A : Type} (l : list A) (start stop : Z) : list A :=
  let len := Z.of_nat (List.length l) in
  let from := relativeIndex len start in
  let to := relativeIndex len stop in
  firstn (Z.to_nat (to - from)) (skipn (Z.to_nat from) l).

(** [l.slice(start)]: the end defaults to the length. *)
Definition sliceFrom {A : Type} (l : list A) (start : Z) : list A :=
  slice l start (Z.of_nat (List.length l)).

(** [l[i]]: [None] is [undefined]. *)
Definition item {A : Type} (l : list A) (i : Z) : option A :=
  if (i <? 0)%Z then None else nth_error l (Z.to_nat i).

(** [l.push(x)]. *)
Definition push {A : Type} (l : list A) (x : A) : list A := l ++ [x].

(** [l.pop()], the array that remains. *)
Definition pop {A : Type} (l : list A) : list A := removelast l.

(** The index range of [for (let i = 0; i < n; i++)]. *)
Definition indices (n : nat) : list Z := map Z.of_nat (seq 0 n).

(** [parseInt(s)] without a radix: leading white space is skipped, a sign is
    read, a [0x] prefix selects radix 16, and the longest prefix of digits is
    converted; no digit at all gives NaN.  A string is a sequence of
    characters of one byte; of the white space of JavaScript it can hold the
    six ASCII characters below, and not U+00A0, U+FEFF and the other spaces
    and line terminators beyond ASCII. *)
Definition isWhiteSpace (c : ascii) : bool :=
  let n := nat_of_ascii c in
  ((n =? 32) || (n =? 9) || (n =? 10) || (n =? 11) || (n =? 12) || (n =? 13))%nat.

Fixpoint trimStart (s : string) : string :=
  match s with
  | String c r => if isWhiteSpace c then trimStart r else s
  | EmptyString => s
  end.

Definition digitValue (radix : Z) (c : ascii) : option Z :=
  let n := Z.of_nat (nat_of_ascii c) in
  let v := if ((48 <=? n) && (n <=? 57))%Z then Some (n - 48)%Z
           else if ((97 <=? n) && (n <=? 122))%Z then Some (n - 87)%Z
           else if ((65 <=? n) && (n <=? 90))%Z then Some (n - 55)%Z
           else None in
  match v with
  | Some d => if (d <? radix)%Z then Some d else None
  | None => None
  end.

Fixpoint digitsPrefix (radix : Z) (s : string) (acc : option Z) : option Z :=
  match s with
  | String c r =>
      match digitValue radix c with
      | Some d =>
          digitsPrefix radix r
            (Some (radix * match acc with Some a => a | None => 0 end + d)%Z)
      | None => acc
      end
  | EmptyString => acc
  end.

Definition parseInt (s : string) : option Z :=
  let s := trimStart s in
  let '(negative, s) :=
    match s with
    | String "-" r => (true, r)
    | String "+" r => (false, r)
    | _ => (false, s)
    end in
  let '(radix, s) :=
    match s with
    | String "0" (String "x" r) => (16%Z, r)
    | String "0" (String "X" r) => (16%Z, r)
    | _ => (10%Z, s)
    end in
  match digitsPrefix radix s None with
  | Some v => Some (if negative then (- v)%Z else v)
  | None => None
  end.

(** The argument of [slice] after [ToIntegerOrInfinity]: NaN becomes 0. *)
Definition toInteger (n : option Z) : Z :=
  match n with Some z => z | None => 0%Z end.

(** Unary minus on a number that may be NaN. *)
Definition negate (n : option Z) : option Z := option_map Z.opp n.

(** The decimal digits of an integer, as template literals print it. *)
Definition digits (z : Z) : string := NilZero.string_of_int (Z.to_int z).

(** The digit string of [Number.prototype.toFixed] once the scaled integer
    [n] (the integer nearest to [|x| * 10^f]) is known: at least [f + 1]
    digits, a point before the last [f] of them, and the sign in front. *)
Fixpoint zeros (k : nat) : string :=
  match k with O => EmptyString | S k' => String "0" (zeros k') end.

Definition formatFixed (negative : bool) (n : Z) (f : nat) : string :=
  let m := digits n in
  let m := if (f =? 0)%nat then m
           else
             let k := String.length m in
             let m := if (k <=? f)%nat then (zeros (f + 1 - k) ++ m)%string else m in
             let k := String.length m in
             (substring 0 (k - f) m ++ "." ++ substring (k - f) f m)%string in
  ((if negative then "-" else "") ++ m)%string.

(** The longest run of decimal digits at the start of a string: the number
    they denote after the digits that denote [acc], how many they are added
    to [count], and what follows them. *)
Fixpoint digitsOf (s : string) (acc : Z) (count : nat) : Z * nat * string :=
  match s with
  | String c r =>
      match digitValue 10 c with
      | Some d => digitsOf r (10 * acc + d)%Z (S count)
      | None => (acc, count, s)
      end
  | EmptyString => (acc, count, s)
  end.

(** What [parseFloat] reads at the start of a string, the longest prefix
    that is a decimal literal: [Infinity], or digits with an optional point
    and an optional exponent, after an optional sign.  [Decimal negative n k]
    denotes [n * 10^k] with its sign. *)
Inductive Literal : Type :=
| Infinite (negative : bool)
| Decimal (negative : bool) (n : Z) (exponent : Z).

(** The exponent part [e], sign, digits; it counts only with a digit. *)
Definition exponentPart (s : string) : Z :=
  match s with
  | String c r =>
      if (Ascii.eqb c "e" || Ascii.eqb c "E")%bool then
        let '(negative, r) :=
          match r with
          | String "-" t => (true, t)
          | String "+" t => (false, t)
          | _ => (false, r)
          end in
        let '(v, count, _) := digitsOf r 0 0 in
        if (count =? 0)%nat then 0%Z else if negative then (- v)%Z else v
      else 0%Z
  | EmptyString => 0%Z
  end.

Definition parseLiteral (s : string) : option Literal :=
  let s := trimStart s in
  let '(negative, s) :=
    match s with
    | String "-" r => (true, r)
    | String "+" r => (false, r)
    | _ => (false, s)
    end in
  if prefix "Infinity" s then Some (Infinite negative)
  else
    let '(whole, wholeCount, rest) := digitsOf s 0 0 in
    match rest with
    | String "." r =>
        let '(n, fractionCount, rest) := digitsOf r whole 0 in
        if (wholeCount + fractionCount =? 0)%nat then None
        else Some (Decimal negative n (exponentPart rest - Z.of_nat fractionCount))
    | _ => if (wholeCount =? 0)%nat then None
           else Some (Decimal negative whole (exponentPart rest))
    end.

(** Time values are milliseconds since the epoch.  [Day], [TimeWithinDay]
    and [MakeDate] are those of the language specification; the division
    rounds down. *)
Definition msPerDay : Z := 86400000.

Definition Day (t : Z) : Z := (t / msPerDay)%Z.

Definition TimeWithinDay (t : Z) : Z := (t mod msPerDay)%Z.

Definition MakeDate (day time : Z) : Z := (day * msPerDay + time)%Z.

End JS.

(** ** Numbers *)

(** The operations of JavaScript numbers that the derivation paths use. *)
Class Number (num : Type) : Type := {
  ofZ : Z -> num;                     (* an integer literal or integer value *)
  add : num -> num -> num;            (* a + b *)
  sub : num -> num -> num;            (* a - b *)
  mul : num -> num -> num;            (* a * b *)
  div : num -> num -> num;            (* a / b *)
  geb : num -> num -> bool;           (* a >= b *)
  toFixed : num -> nat -> string      (* a.toFixed(f) *)
}.

(** The functions of [Math] and the global [parseFloat] that the demo-data
    generator uses. *)
Class MathLib (num : Type) : Type := {
  Math_sin : num -> num;              (* Math.sin *)
  Math_round : num -> num;            (* Math.round *)
  parseFloat : string -> num          (* parseFloat *)
}.

(** The literal [0.5]. *)
Definition half {num : Type} `{Number num} : num := div (ofZ 1) (ofZ 2).

(** ** Computations that mutate a store and may throw *)

Inductive Completion (A : Type) : Type :=
| Normal (value : A)
| Throw (error : string).

Arguments Normal {A} value.
Arguments Throw {A} error.

Definition M (S A : Type) : Type := S -> Completion A * S.

Definition ret {S A : Type} (a : A) : M S A := fun s => (Normal a, s).

Definition bind {S A B : Type} (c : M S A) (k : A -> M S B) : M S B :=
  fun s =>
    match c s with
    | (Normal a, s') => k a s'
    | (Throw e, s') => (Throw e, s')
    end.

Definition throw {S A : Type} (e : string) : M S A := fun s => (Throw e, s).

Definition get {S : Type} : M S S := fun s => (Normal s, s).

Definition modify {S : Type} (f : S -> S) : M S unit := fun s => (Normal tt, f s).

(** [try { body } catch (error) { handler(error) }] *)
Definition tryCatch {S A : Type} (body : M S A) (handler : string -> M S A) : M S A :=
  fun s =>
    match body s with
    | (Normal a, s') => (Normal a, s')
    | (Throw e, s') => handler e s'
    end.

Declare Scope js_scope.
Delimit Scope js_scope with js.
Notation "x <- c ;; k" := (bind c (fun x => k))
  (at level 61, c at next level, right associativity) : js_scope.
Notation "c ;; k" := (bind c (fun _ => k))
  (at level 61, right associativity) : js_scope.

(** [for (let i = n; i >= 0; i--) body(i)] *)
Fixpoint forDownTo0 {S : Type} (n : nat) (body : Z -> M S unit) : M S unit :=
  match n with
  | O => body 0%Z
  | S k => bind (body (Z.of_nat n)) (fun _ => forDownTo0 k body)
  end.

(** The final store and the completion of a run. *)
Definition exec {S A : Type} (c : M S A) (s : S) : S := snd (c s).
Definition completion {S A : Type} (c : M S A) (s : S) : Completion A := fst (c s).

(** ** The program *)

Section Program.

Context {num : Type} {numOps : Number num} {mathLib : MathLib num}.

Local Open Scope js_scope.

(** One record of the data set, as the backend serves it. *)
Record DataPoint : Type := {
  date : Z;
  active_listings : num;
  avg_price_per_sqft : num;
  data_source : string
}.

(** A data set of the chart; styling options are left out. *)
Record Series : Type := {
  label : string;
  data : list (option num);
  yAxisID : string
}.

(** [housingChart.data], and the number of [housingChart.update()] calls. *)
Record Chart : Type := {
  labels : list string;
  datasets : list Series;
  redraws : nat
}.

(** The value held by [cachedData]: [null] ([false], [0] and the empty
    string behave like it), an array of records, or another value that is
    neither an array nor a string (a number, [true], an object without a
    [length] property).  Strings, arrays of anything but records and objects
    with a [length] property are outside the model. *)
Inductive Json : Type :=
| JNull
| JArray (points : list DataPoint)
| JOther.

(** The text of a page element: markup text, or a number assigned to
    [textContent]. *)
Inductive Text : Type :=
| Str (s : string)
| Num (n : num).

(** The controls and statistics cards of the page. *)
Record Page : Type := {
  timeframeSelect : string;
  smaSelect : string;
  currentListings : Text;
  currentPrice : Text;
  priceChange : Text;
  priceChangeColor : string;
  lastUpdate : Text
}.

(** The environment: the stream of values [Math.random] returns, the
    locale rendering of a day used by [formatDate], and the time zone of the
    browser: [localTZA t true] is the offset of local time from UTC, in
    milliseconds, at the time value [t], and [localTZA t false] the offset
    that applies to the local time [t]. *)
Record World : Type := {
  random : nat -> num;
  toLocaleDateString : Z -> string;
  localTZA : Z -> bool -> Z
}.

Variable world : World.

Record State : Type := {
  housingChart : option Chart;
  cachedData : Json;
  page : Page;
  clock : Z;                 (* the time value of [new Date()] *)
  draws : nat;               (* calls of [Math.random] so far *)
  console : list string
}.

Definition Js (A : Type) : Type := M State A.

(** *** Access to the globals and to the page *)

Definition withChart (st : State) (c : option Chart) : State :=
  {| housingChart := c; cachedData := cachedData st; page := page st;
     clock := clock st; draws := draws st; console := console st |}.

Definition withCachedData (st : State) (d : Json) : State :=
  {| housingChart := housingChart st; cachedData := d; page := page st;
     clock := clock st; draws := draws st; console := console st |}.

Definition withPage (st : State) (p : Page) : State :=
  {| housingChart := housingChart st; cachedData := cachedData st; page := p;
     clock := clock st; draws := draws st; console := console st |}.

Definition withDraws (st : State) (k : nat) : State :=
  {| housingChart := housingChart st; cachedData := cachedData st; page := page st;
     clock := clock st; draws := k; console := console st |}.

Definition withConsole (st : State) (l : list string) : State :=
  {| housingChart := housingChart st; cachedData := cachedData st; page := page st;
     clock := clock st; draws := draws st; console := l |}.

Definition consoleLog (s : string) : Js unit :=
  modify (fun st => withConsole st (JS.push (console st) s)).

(** [Math.random()] *)
Definition Math_random : Js num :=
  fun st => (Normal (random world (draws st)), withDraws st (S (draws st))).

(** An access to a property of [housingChart]: a [TypeError] while the
    global is still [null]. *)
Definition onChart {A : Type} (c : M Chart A) : Js A :=
  fun st =>
    match housingChart st with
    | None => (Throw "TypeError: Cannot read properties of null (reading 'data')", st)
    | Some chart => let (r, chart') := c chart in (r, withChart st (Some chart'))
    end.

Definition withLabels (c : Chart) (l : list string) : Chart :=
  {| labels := l; datasets := datasets c; redraws := redraws c |}.

Definition withDatasets (c : Chart) (l : list Series) : Chart :=
  {| labels := labels c; datasets := l; redraws := redraws c |}.

Fixpoint replaceAt {A : Type} (k : nat) (x : A) (l : list A) : list A :=
  match l, k with
  | [], _ => []
  | _ :: t, O => x :: t
  | h :: t, S k' => h :: replaceAt k' x t
  end.

(** [housingChart.data.datasets[k].data = v] *)
Definition setData (k : nat) (v : list (option num)) : M Chart unit :=
  fun c =>
    match nth_error (datasets c) k with
    | None =>
        (Throw "TypeError: Cannot set properties of undefined (setting 'data')", c)
    | Some s =>
        (Normal tt,
         withDatasets c
           (replaceAt k {| label := label s; data := v; yAxisID := yAxisID s |}
              (datasets c)))
    end.

(** [housingChart.data.datasets[k].label = v] *)
Definition setLabel (k : nat) (v : string) : M Chart unit :=
  fun c =>
    match nth_error (datasets c) k with
    | None =>
        (Throw "TypeError: Cannot set properties of undefined (setting 'label')", c)
    | Some s =>
        (Normal tt,
         withDatasets c
           (replaceAt k {| label := v; data := data s; yAxisID := yAxisID s |}
              (datasets c)))
    end.

(** [housingChart.update()] *)
Definition update : M Chart unit :=
  modify (fun c =>
    {| labels := labels c; datasets := datasets c; redraws := S (redraws c) |}).

(** *** [initializeChart] *)

Definition listingsSeries (d : list (option num)) : Series :=
  {| label := "Active Listings"; data := d; yAxisID := "y-listings" |}.

Definition priceSeries (d : list (option num)) : Series :=
  {| label := "Avg Price/SqFt"; data := d; yAxisID := "y-price" |}.

Definition smaSeries (name : string) (d : list (option num)) : Series :=
  {| label := name; data := d; yAxisID := "y-price" |}.

Definition initializeChart : Js unit :=
  modify (fun st =>
    withChart st
      (Some {| labels := [];
               datasets := [listingsSeries []; priceSeries []];
               redraws := 0 |})).

(** *** [formatDate] *)

Definition formatDate (dateString : Z) : string :=
  toLocaleDateString world dateString.

(** *** [calculateSMA] *)

Definition calculateSMA (data : list num) (period : Z) : list (option num) :=
  fold_left
    (fun sma i =>
       if (i <? period - 1)%Z then JS.push sma None
       else
         let sum :=
           fold_left (fun a b => add a b)
             (JS.slice data (i - period + 1) (i + 1)) (ofZ 0) in
         JS.push sma (Some (div sum (ofZ period))))
    (JS.indices (List.length data)) [].

(** *** [updateChart] *)

(** Lines 219-223: the data shown for the selected time frame. *)
Definition filterByTimeframe (timeframe : string) (cached : list DataPoint)
  : list DataPoint :=
  if (timeframe =? "all")%string then cached
  else
    let days := JS.parseInt timeframe in
    JS.sliceFrom cached (JS.toInteger (JS.negate days)).

(** [smaPeriod > 0 && filteredData.length >= smaPeriod]; a comparison with
    NaN is false. *)
Definition smaApplies (smaPeriod : option Z) (len : nat) : bool :=
  match smaPeriod with
  | Some p => (0 <? p)%Z && (p <=? Z.of_nat len)%Z
  | None => false
  end.

Definition smaLabel (smaPeriod : Z) : string :=
  (JS.digits smaPeriod ++ "-Day SMA")%string.

Definition updateChart : Js unit :=
  st <- get ;;
  match cachedData st with
  | JNull => ret tt
  | JOther =>
      if (timeframeSelect (page st) =? "all")%string
      then throw "TypeError: filteredData.map is not a function"
      else throw "TypeError: cachedData.slice is not a function"
  | JArray cached =>
      if (List.length cached =? 0)%nat then ret tt
      else
        let timeframe := timeframeSelect (page st) in
        let smaPeriod := JS.parseInt (smaSelect (page st)) in
        let filteredData := filterByTimeframe timeframe cached in
        let labels := map (fun d => formatDate (date d)) filteredData in
        let listingsData := map (fun d => active_listings d) filteredData in
        let priceData := map (fun d => avg_price_per_sqft d) filteredData in
        onChart (
          modify (fun c => withLabels c labels) ;;
          setData 0 (map Some listingsData) ;;
          setData 1 (map Some priceData) ;;
          (if smaApplies smaPeriod (List.length filteredData) then
             let period := JS.toInteger smaPeriod in
             let priceSMA := calculateSMA priceData period in
             c <- get ;;
             if (List.length (datasets c) =? 2)%nat then
               modify (fun c =>
                 withDatasets c
                   (JS.push (datasets c) (smaSeries (smaLabel period) priceSMA)))
             else
               setData 2 priceSMA ;;
               setLabel 2 (smaLabel period)
           else
             c <- get ;;
             if (2 <? List.length (datasets c))%nat then
               modify (fun c => withDatasets c (JS.pop (datasets c)))
             else ret tt) ;;
          update)
  end.

(** *** [updateStats] *)

(** Lines 292: the 30-day change, in percent. *)
Definition percentChange (latest thirtyDaysAgo : DataPoint) : num :=
  mul
    (div (sub (avg_price_per_sqft latest) (avg_price_per_sqft thirtyDaysAgo))
         (avg_price_per_sqft thirtyDaysAgo))
    (ofZ 100).

(** Line 294: the text of the change card. *)
Definition changeText (priceChange : num) : string :=
  ((if geb priceChange (ofZ 0) then "+" else "")
     ++ toFixed priceChange 1 ++ "%")%string.

Definition updateStats : Js unit :=
  st <- get ;;
  match cachedData st with
  | JNull => ret tt
  | JOther =>
      throw "TypeError: Cannot read properties of undefined (reading 'active_listings')"
  | JArray cached =>
      if (List.length cached =? 0)%nat then ret tt
      else
        let len := Z.of_nat (List.length cached) in
        match JS.item cached (len - 1), JS.item cached (Z.max 0 (len - 31)) with
        | Some latest, Some thirtyDaysAgo =>
            let change := percentChange latest thirtyDaysAgo in
            modify (fun st =>
              withPage st
                {| timeframeSelect := timeframeSelect (page st);
                   smaSelect := smaSelect (page st);
                   currentListings := Num (active_listings latest);
                   currentPrice :=
                     Str ("$" ++ toFixed (avg_price_per_sqft latest) 2)%string;
                   priceChange := Str (changeText change);
                   priceChangeColor :=
                     if geb change (ofZ 0) then "#81c995" else "#f28b82";
                   lastUpdate := Str (formatDate (date latest)) |})
        | _, _ =>
            throw "TypeError: Cannot read properties of undefined (reading 'active_listings')"
        end
  end.

(** *** [useDemoData] *)

(** Local time and back, as [Date.prototype.getDate] and [setDate] use
    them. *)
Definition LocalTime (t : Z) : Z := (t + localTZA world t true)%Z.

Definition UTC (t : Z) : Z := (t - localTZA world t false)%Z.

(** Lines 192-193: [date.setDate(date.getDate() - i)] on a copy of [now].
    [getDate] is the day of the month of the local time, and [setDate]
    builds the local time with that day of the month replaced and the time
    of day kept, and converts it to UTC.  A day of the month below 1 counts
    back into the months before, so the local day number goes down by [i]:
    [MakeDay (year, month, getDate () - i)] is [Day local - i].  The clock
    is taken to be a valid time value, and the ninety days before it too. *)
Definition setDateBack (now i : Z) : Z :=
  let local := LocalTime now in
  UTC (JS.MakeDate (JS.Day local - i) (JS.TimeWithinDay local)).

(** Line 200: [date.toISOString().split('T')[0]], the calendar day of the
    time value in UTC, as a day number. *)
Definition isoDate (t : Z) : Z := JS.Day t.

(** Lines 192-204: the record pushed for offset [i], given the two values
    drawn from [Math.random]. *)
Definition demoPoint (now : Z) (i : Z) (r1 r2 : num) : DataPoint :=
  let baseListings :=
    add (add (ofZ 45) (mul (Math_sin (div (ofZ i) (ofZ 15))) (ofZ 5)))
        (mul (sub r1 half) (ofZ 3)) in
  let basePrice :=
    add (add (add (ofZ 450) (mul (sub (ofZ 90) (ofZ i)) half))
             (mul (Math_sin (div (ofZ i) (ofZ 10))) (ofZ 10)))
        (mul (sub r2 half) (ofZ 5)) in
  {| date := isoDate (setDateBack now i);
     active_listings := Math_round baseListings;
     avg_price_per_sqft := parseFloat (toFixed basePrice 2);
     data_source := if (30 <? i)%Z then "historical" else "scraped" |}.

(** [cachedData.push(point)] *)
Definition pushCachedData (point : DataPoint) : Js unit :=
  st <- get ;;
  match cachedData st with
  | JNull => throw "TypeError: Cannot read properties of null (reading 'push')"
  | JOther => throw "TypeError: cachedData.push is not a function"
  | JArray cached =>
      modify (fun st => withCachedData st (JArray (JS.push cached point)))
  end.

Definition useDemoData : Js unit :=
  consoleLog "Using demo data" ;;
  modify (fun st => withCachedData st (JArray [])) ;;
  st <- get ;;
  let now := clock st in
  forDownTo0 90 (fun i =>
    r1 <- Math_random ;;
    r2 <- Math_random ;;
    pushCachedData (demoPoint now i r1 r2)) ;;
  updateChart ;;
  updateStats.

(** *** [loadData] *)

(** What [fetch('/api/data')] and [response.json()] can yield: the request
    fails, or a response arrives whose status is a success or not and whose
    body parses as JSON or not. *)
Inductive Body : Type :=
| Unparsable
| Parsed (value : Json).

Inductive FetchResult : Type :=
| NetworkError
| Response (ok : bool) (body : Body).

Definition loadData (result : FetchResult) : Js unit :=
  tryCatch
    (match result with
     | NetworkError => throw "TypeError: Failed to fetch"
     | Response ok body =>
         if negb ok then throw "Error: Failed to fetch data"
         else
           match body with
           | Unparsable => throw "SyntaxError: Unexpected token"
           | Parsed value =>
               modify (fun st => withCachedData st value) ;;
               updateChart ;;
               updateStats
           end
     end)
    (fun error =>
       consoleLog ("Error loading data: " ++ error)%string ;;
       useDemoData).

(** *** The event handlers *)

(** What the page reacts to once [setupEventListeners] has run: a new choice
    in one of the two selects (the browser stores the value, then calls
    [updateChart]), and a load whose fetch has the given outcome (the first
    one, or one started by the refresh button). *)
Inductive Event : Type :=
| ChangeTimeframe (value : string)
| ChangeSma (value : string)
| Load (result : FetchResult).

Definition select (timeframe sma : string) (p : Page) : Page :=
  {| timeframeSelect := timeframe; smaSelect := sma;
     currentListings := currentListings p; currentPrice := currentPrice p;
     priceChange := priceChange p; priceChangeColor := priceChangeColor p;
     lastUpdate := lastUpdate p |}.

Definition handle (e : Event) : Js unit :=
  match e with
  | ChangeTimeframe value =>
      modify (fun st =>
        withPage st (select value (smaSelect (page st)) (page st))) ;;
      updateChart
  | ChangeSma value =>
      modify (fun st =>
        withPage st (select (timeframeSelect (page st)) value (page st))) ;;
      updateChart
  | Load result => loadData result
  end.

(** The handlers run one after the other; an exception ends the handler that
    throws it, not the page. *)
Definition handleAll (events : list Event) (st : State) : State :=
  fold_left (fun st e => exec (handle e) st) events st.

(** Lines 3-4: the globals when the script starts. *)
Definition initialState (p : Page) (time : Z) : State :=
  {| housingChart := None; cachedData := JNull; page := p; clock := time;
     draws := 0; console := [] |}.

(** The state when the first event arrives: the script has run to its last
    line, the call of [useDemoData], and the [DOMContentLoaded] handler has
    called [initializeChart] and started the first load. *)
Definition started (p : Page) (time : Z) : State :=
  exec initializeChart (exec useDemoData (initialState p time)).

End Program.

Arguments JNull {num}.
Arguments JOther {num}.
Arguments Str {num} s.

(** ** The tooltip callback and the refresh button *)

Section Presentation.

Context {num : Type} {numOps : Number num} {mathLib : MathLib num}.

Variable world : @World num.

Local Open Scope js_scope.

(** *** The tooltip callback of [initializeChart] (lines 81-94) *)

(** What the chart library passes to the callback: the series under the
    pointer and the value parsed for the point, [null] for a gap. *)
Record TooltipItem : Type := {
  dataset : @Series num;
  parsed_y : option num
}.

(** [numberToString] is the conversion that [label += context.parsed.y]
    applies to the number. *)
Definition tooltipLabel (numberToString : num -> string) (context : TooltipItem)
  : string :=
  let label0 :=
    if (label (dataset context) =? "")%string then ""%string
    else label (dataset context) in
  let label1 :=
    if (label0 =? "")%string then label0 else (label0 ++ ": ")%string in
  match parsed_y context with
  | None => label1
  | Some y =>
      if (yAxisID (dataset context) =? "y-price")%string
      then (label1 ++ ("$" ++ toFixed y 2))%string
      else (label1 ++ numberToString y)%string
  end.

(** *** [refreshData] *)

Record Button : Type := {
  disabled : bool;
  textContent : string
}.

(** The refresh button beside the state of the script. *)
Record Document : Type := {
  refreshBtn : Button;
  script : @State num
}.

Definition inScript {A : Type} (c : @Js num A) : M Document A :=
  fun d =>
    let (r, st) := c (script d) in
    (r, {| refreshBtn := refreshBtn d; script := st |}).

Definition setDisabled (b : bool) : M Document unit :=
  modify (fun d =>
    {| refreshBtn :=
         {| disabled := b; textContent := textContent (refreshBtn d) |};
       script := script d |}).

Definition setTextContent (s : string) : M Document unit :=
  modify (fun d =>
    {| refreshBtn := {| disabled := disabled (refreshBtn d); textContent := s |};
       script := script d |}).

(** The two texts of the button (lines 311 and 316), byte for byte. *)
Definition loadingText : string := "‚è≥ Loading...".

Definition refreshText : string := "üîÑ Refresh Data".

(** Lines 309-313, up to the point where [await loadData()] gives the
    control back to the event loop: [loadData] has called [fetch] and
    touched nothing. *)
Definition refreshData_begin : M Document unit :=
  setDisabled true ;;
  setTextContent loadingText.

(** Lines 313-316, from the moment the fetch has settled with [result]:
    the rest of [loadData] runs, and, unless it throws, the rest of
    [refreshData]. *)
Definition refreshData_resume (result : @FetchResult num) : M Document unit :=
  inScript (loadData world result) ;;
  setDisabled false ;;
  setTextContent refreshText.

(** A refresh during which no other handler runs. *)
Definition refreshData (result : @FetchResult num) : M Document unit :=
  refreshData_begin ;;
  refreshData_resume result.

(** The handlers that run while the fetch of a refresh is pending. *)
Definition meanwhile (events : list (@Event num)) : M Document unit :=
  modify (fun d =>
    {| refreshBtn := refreshBtn d;
       script := handleAll world events (script d) |}).

End Presentation.

(** ** IEEE-754 binary64, the numbers a JavaScript engine computes with *)

Module Float64.

(** The double nearest to an integer. *)
Definition ofZ (z : Z) : float := SF2Prim (binary_normalize prec emax z 0 false).

(** The integer nearest to [m * 2^e * 10^f], the larger one on a tie. *)
Definition scaledNearest (m : positive) (e : Z) (f : nat) : Z :=
  let p := (Z.pos m * 10 ^ Z.of_nat f)%Z in
  if (0 <=? e)%Z then (p * 2 ^ e)%Z
  else ((2 * p + 2 ^ (- e)) / (2 * 2 ^ (- e)))%Z.

(** [Number::toString] for a double whose value is an integer [X >= 10^21]:
    the shortest significand [s] of [k] digits with [s * 10^(n-k)] converting
    back to the double, printed as [d.ddde+N]. *)
Definition significand (x : float) (X : Z) (n k : nat) : option (Z * nat) :=
  let scale := (10 ^ Z.of_nat (n - k))%Z in
  let lo := (X / scale)%Z in
  let hi := (lo + 1)%Z in
  let carry s := if (s =? 10 ^ Z.of_nat k)%Z then ((s / 10)%Z, S n) else (s, n) in
  match PrimFloat.eqb (ofZ (lo * scale)) x, PrimFloat.eqb (ofZ (hi * scale)) x with
  | true, true =>
      if (X - lo * scale <=? hi * scale - X)%Z then Some (lo, n) else Some (carry hi)
  | true, false => Some (lo, n)
  | false, true => Some (carry hi)
  | false, false => None
  end.

Fixpoint shortest (x : float) (X : Z) (n k fuel : nat) : Z * nat :=
  match fuel with
  | O => (X, n)
  | S fuel' =>
      match significand x X n k with
      | Some r => r
      | None => shortest x X n (S k) fuel'
      end
  end.

Definition exponential (X : Z) : string :=
  let x := ofZ X in
  let n := String.length (JS.digits X) in
  let '(s, n) := shortest x X n 1 n in
  let ds := JS.digits s in
  let mantissa :=
    match ds with
    | String c EmptyString => ds
    | String c r => String c ("." ++ r)
    | EmptyString => ds
    end in
  (mantissa ++ "e+" ++ JS.digits (Z.of_nat n - 1))%string.

(** [Number.prototype.toFixed] for [0 <= f <= 100]. *)
Definition toFixed (x : float) (f : nat) : string :=
  match Prim2SF x with
  | S754_nan => "NaN"
  | S754_infinity s => if s then "-Infinity" else "Infinity"
  | S754_zero _ => JS.formatFixed false 0 f
  | S754_finite s m e =>
      if ((0 <=? e) && (10 ^ 21 <=? Z.pos m * 2 ^ e))%Z
      then ((if s then "-" else "") ++ exponential (Z.pos m * 2 ^ e))%string
      else JS.formatFixed s (scaledNearest m e f) f
  end.

#[global] Instance number : Number float :=
  Build_Number ofZ PrimFloat.add PrimFloat.sub PrimFloat.mul PrimFloat.div
    (fun a b => PrimFloat.leb b a) toFixed.

(** [Math.round]: the integer nearest to [x], the one towards +Infinity on a
    tie, which is [floor (x + 1/2)] computed without rounding; [-0] for
    [-0.5 <= x < 0].  A double whose exponent is not negative is an integer.
    The other doubles are below [2^52] in absolute value, and so are the
    integers nearest to them, which are doubles. *)
Definition round (x : float) : float :=
  match Prim2SF x with
  | S754_finite s m e =>
      if (0 <=? e)%Z then x
      else
        let n := ((2 * cond_Zopp s (Z.pos m) + 2 ^ (- e)) / (2 * 2 ^ (- e)))%Z in
        if (n =? 0)%Z then (if s then (-0)%float else 0%float) else ofZ n
  | _ => x
  end.

(** The double nearest to [n * 10^k] for [0 <= n], with the sign given, a
    tie going to the even significand. *)
Definition ofDecimal (negative : bool) (n k : Z) : float :=
  SF2Prim
    (if (0 <=? k)%Z
     then binary_normalize prec emax (cond_Zopp negative (n * 10 ^ k)) 0 negative
     else match n with
          | Z.pos m =>
              SFdiv prec emax (S754_finite negative m 0)
                (S754_finite false (Z.to_pos (10 ^ (- k))) 0)
          | _ => S754_zero negative
          end).

(** The global [parseFloat]: NaN when the string starts with no literal. *)
Definition parseFloat (s : string) : float :=
  match JS.parseLiteral s with
  | Some (JS.Infinite negative) => if negative then neg_infinity else infinity
  | Some (JS.Decimal negative n k) => ofDecimal negative n k
  | None => nan
  end.

(** [Math.sin] is left to the implementation by the language specification;
    it is a parameter of the library. *)
Definition mathLib (sine : float -> float) : MathLib float :=
  Build_MathLib sine round parseFloat.

End Float64.

(** ** Vocabulary of the properties *)

Section Vocabulary.

Context {num : Type} {numOps : Number num} {mathLib : MathLib num}.

Variable world : @World num.

(** *** Sequences *)

(** The sum of a sequence, added from left to right starting at 0, and its
    arithmetic mean. *)
Definition sum (l : list num) : num := fold_left add l (ofZ 0).

Definition mean (l : list num) : num :=
  div (sum l) (ofZ (Z.of_nat (List.length l))).

(** [values[i-p+1 .. i]], both ends included. *)
Definition window (values : list num) (i p : nat) : list num :=
  firstn p (skipn (i + 1 - p) values).

(** The last [k] elements of a sequence. *)
Definition lastPoints {A : Type} (k : nat) (l : list A) : list A :=
  skipn (List.length l - k) l.

(** The entry [calculateSMA] pushes at index [i]. *)
Definition smaEntry (values : list num) (period i : Z) : option num :=
  if (i <? period - 1)%Z then None
  else Some (div (sum (JS.slice values (i - period + 1) (i + 1))) (ofZ period)).

(** The first character of a string is a decimal digit. *)
Definition startsWithDigit (s : string) : bool :=
  match s with
  | String c _ =>
      match JS.digitValue 10 c with Some _ => true | None => false end
  | EmptyString => false
  end.

(** *** The chart *)

(** The two states of the chart: the two base series alone, or the base
    series followed by the overlay in the third slot. *)
Inductive chartShape : list (@Series num) -> Prop :=
| NoOverlay (d0 d1 : list (option num)) :
    chartShape [listingsSeries d0; priceSeries d1]
| HasOverlay (d0 d1 : list (option num)) (name : string) (d2 : list (option num)) :
    chartShape [listingsSeries d0; priceSeries d1; smaSeries name d2].

(** The chart exists and is in one of its two states, as it is from
    [initializeChart] on. *)
Definition chartReady (st : @State num) : Prop :=
  exists c, housingChart st = Some c /\ chartShape (datasets c).

(** Between two handlers: the chart is ready and the cache holds [null] or
    an array. *)
Definition settled (st : @State num) : Prop :=
  chartReady st /\ cachedData st <> JOther.

(** The overlay of a chart is the series in its third slot, if any. *)
Definition overlay (c : @Chart num) : option (@Series num) :=
  nth_error (datasets c) 2.

(** The series a composition shows for a data set and the controls of the
    page: the two base series over the filtered data, and the moving average
    of the prices when the period is positive and the filtered data has at
    least that many points. *)
Definition composition (cached : list (@DataPoint num)) (pg : @Page num)
  : list (@Series num) :=
  let filtered := filterByTimeframe (timeframeSelect pg) cached in
  let prices := map (fun d => avg_price_per_sqft d) filtered in
  ([listingsSeries (map Some (map (fun d => active_listings d) filtered));
    priceSeries (map Some prices)]
   ++ match JS.parseInt (smaSelect pg) with
      | Some p =>
          if ((0 <? p) && (p <=? Z.of_nat (List.length filtered)))%Z
          then [smaSeries (smaLabel p) (calculateSMA prices p)]
          else []
      | None => []
      end)%list.

Definition composed (c : @Chart num) (cached : list (@DataPoint num))
  (pg : @Page num) : @Chart num :=
  {| labels :=
       map (fun d => formatDate world (date d))
         (filterByTimeframe (timeframeSelect pg) cached);
     datasets := composition cached pg;
     redraws := S (redraws c) |}.

(** The moving-average selection asks for an overlay of period [p]: the
    period is positive and the filtered data has at least [p] points. *)
Definition overlayWanted (cached : list (@DataPoint num)) (pg : @Page num)
  (p : Z) : Prop :=
  JS.parseInt (smaSelect pg) = Some p
  /\ (0 < p)%Z
  /\ (p <= Z.of_nat (List.length (filterByTimeframe (timeframeSelect pg) cached)))%Z.

(** A computation leaves the cached data set as it found it, whether it
    completes or throws. *)
Definition keepsCachedData {A : Type} (c : Js A) : Prop :=
  forall st : @State num, cachedData (exec c st) = cachedData st.

(** *** The statistics *)

(** The latest point of a data set, and the point thirty positions before
    it, the first point when there are fewer than 31. *)
Definition latestPoint (cached : list (@DataPoint num)) : option (@DataPoint num) :=
  nth_error cached (List.length cached - 1).

Definition referencePoint (cached : list (@DataPoint num)) : option (@DataPoint num) :=
  nth_error cached (Z.to_nat (Z.max 0 (Z.of_nat (List.length cached) - 1 - 30))).

(** The page after the statistics were derived from [latest] and
    [reference]. *)
Definition statsPage (pg : @Page num) (latest reference : @DataPoint num)
  : @Page num :=
  {| timeframeSelect := timeframeSelect pg;
     smaSelect := smaSelect pg;
     currentListings := Num (active_listings latest);
     currentPrice := Str ("$" ++ toFixed (avg_price_per_sqft latest) 2)%string;
     priceChange := Str (changeText (percentChange latest reference));
     priceChangeColor :=
       if geb (percentChange latest reference) (ofZ 0) then "#81c995" else "#f28b82";
     lastUpdate := Str (formatDate world (date latest)) |}.

(** *** The demo data and the load *)

(** The data set [useDemoData] builds at time [now] when [k] values were
    drawn from [Math.random] before: offsets 90 down to 0, two draws each. *)
Definition demoData (now : Z) (k : nat) : list (@DataPoint num) :=
  map (fun j =>
         demoPoint world now (90 - Z.of_nat j)
           (random world (k + 2 * j)) (random world (k + 2 * j + 1)))
      (seq 0 91).

(** The dates of the cached points, in the order of the cache. *)
Definition cachedDates (st : @State num) : list Z :=
  match cachedData st with
  | JArray points => map date points
  | _ => []
  end.

Definition demoStep (now i : Z) : Js unit :=
  bind (Math_random world) (fun r1 =>
  bind (Math_random world) (fun r2 =>
  pushCachedData (demoPoint world now i r1 r2))).

(** The state in which [useDemoData] calls [updateChart] and
    [updateStats]. *)
Definition demoState (st : @State num) : @State num :=
  {| housingChart := housingChart st;
     cachedData := JArray (demoData (clock st) (draws st));
     page := page st; clock := clock st;
     draws := draws st + 2 * 91;
     console := JS.push (console st) "Using demo data"%string |}.

(** The state in which the [catch] block of [loadData] calls
    [useDemoData]. *)
Definition caught (st : @State num) (error : string) : @State num :=
  withConsole st (JS.push (console st) ("Error loading data: " ++ error)%string).

(** The [catch] block of [loadData]. *)
Definition fallback (error : string) : Js unit :=
  bind (consoleLog ("Error loading data: " ++ error)%string)
       (fun _ => useDemoData world).

(** The [try] block of [loadData]. *)
Definition attempt (result : @FetchResult num) : Js unit :=
  match result with
  | NetworkError => throw "TypeError: Failed to fetch"
  | Response ok body =>
      if negb ok then throw "Error: Failed to fetch data"
      else
        match body with
        | Unparsable => throw "SyntaxError: Unexpected token"
        | Parsed value =>
            bind (modify (fun st => withCachedData st value))
                 (fun _ => bind (updateChart world) (fun _ => updateStats world))
        end
  end.

(** The cache after [loadData]: the parsed body when the response is a
    success and its body [null] or an array, the demo data otherwise. *)
Definition loaded (result : FetchResult) (st : @State num) : Json :=
  match result with
  | Response true (Parsed JNull) => JNull
  | Response true (Parsed (JArray points)) => JArray points
  | _ => JArray (demoData (clock st) (draws st))
  end.

End Vocabulary.

(** ** Vocabulary of the views *)

Section Views.

Context {num : Type} {numOps : Number num} {mathLib : MathLib num}.

Variable world : @World num.

(** The chart shows the data set [cached] under the controls of the page:
    its labels and its series are those composed from it. *)
Definition chartShows (st : @State num) (cached : list (@DataPoint num)) : Prop :=
  exists c : @Chart num,
    housingChart st = Some c
    /\ labels c
       = map (fun d => formatDate world (date d))
           (filterByTimeframe (timeframeSelect (page st)) cached)
    /\ datasets c = composition cached (page st).

(** The five statistics fields of a page: listings, price, change, colour
    of the change, and date of the last update. *)
Definition cards (pg : @Page num)
  : @Text num * @Text num * @Text num * string * @Text num :=
  (currentListings pg, currentPrice pg, priceChange pg, priceChangeColor pg,
   lastUpdate pg).

(** The statistics cards show the data set [cached]: they hold what
    [updateStats] derives from its latest and reference points. *)
Definition cardsShow (st : @State num) (cached : list (@DataPoint num)) : Prop :=
  exists latest reference : @DataPoint num,
    latestPoint cached = Some latest
    /\ referencePoint cached = Some reference
    /\ cards (page st) = cards (statsPage world (page st) latest reference).

(** The views follow the cache: when it holds a non-empty array, the chart
    and the cards show it. *)
Definition inSync (st : @State num) : Prop :=
  forall cached : list (@DataPoint num),
    cachedData st = JArray cached -> cached <> [] ->
    chartShows st cached /\ cardsShow st cached.

(** The chart [initializeChart] creates. *)
Definition emptyChart : @Chart num :=
  {| labels := []; datasets := [listingsSeries []; priceSeries []]; redraws := 0 |}.

End Views.

(** *** Strings *)

(** Every character of the string is an ASCII character.  On such strings
    the white space [parseInt] skips is the six characters of
    [JS.isWhiteSpace]. *)
Fixpoint isAscii (s : string) : bool :=
  match s with
  | String c r => (nat_of_ascii c <? 128)%nat && isAscii r
  | EmptyString => true
  end.

(** *** Strings of decimal digits *)

(** Every character of the string is a decimal digit. *)
Fixpoint isDigits (s : string) : bool :=
  match s with
  | String c r =>
      match JS.digitValue 10 c with
      | Some _ => isDigits r
      | None => false
      end
  | EmptyString => true
  end.

(** The number a string of digits denotes when the digits before it denote
    [acc]. *)
Fixpoint valueFrom (s : string) (acc : Z) : Z :=
  match s with
  | String c r =>
      match JS.digitValue 10 c with
      | Some d => valueFrom r (10 * acc + d)%Z
      | None => acc
      end
  | EmptyString => acc
  end.

(** *** Values of binary64 numbers *)

Section BinaryValues.

Local Open Scope Z_scope.

(** The numbers: zeros and finite doubles. *)
Definition isNumber (x : spec_float) : bool :=
  match x with
  | S754_zero _ | S754_finite _ _ _ => true
  | _ => false
  end.

(** The value of a number in units of [2^-1200], an integer for every
    double: [(-1)^s * m * 2^e] is [scaled / 2^1200]. *)
Definition scaled (x : spec_float) : Z :=
  match x with
  | S754_finite s m e => cond_Zopp s (Z.pos m * 2 ^ (e + 1200))
  | _ => 0
  end.

(** The same value, computed by shifts. *)
Definition shifted (x : spec_float) : Z :=
  match x with
  | S754_finite s m e => cond_Zopp s (Z.shiftl (Z.pos m) (e + 1200))
  | _ => 0
  end.

(** A number whose value lies between [L / 2^1200] and [H / 2^1200]. *)
Definition Between (L H : Z) (x : spec_float) : Prop :=
  isNumber x = true /\ L <= scaled x <= H.

(** [lo / 2 <= x <= hi / 2], for a number [x]: bounds in halves. *)
Definition withinb (lo hi : Z) (x : float) : bool :=
  let v := Prim2SF x in
  isNumber v && (Z.shiftl lo 1199 <=? shifted v) && (shifted v <=? Z.shiftl hi 1199).

Definition within (lo hi : Z) (x : float) : Prop := withinb lo hi x = true.

(** The sign of a result: [signed s x] when [x] is a zero, a finite number
    or an infinity of sign [s]; [notNegative x] when [x >= 0] holds. *)
Definition signed (s : bool) (x : spec_float) : Prop :=
  match x with
  | S754_zero s' | S754_infinity s' | S754_finite s' _ _ => s' = s
  | S754_nan => False
  end.

Definition notNegative (x : spec_float) : Prop :=
  match x with
  | S754_zero _ => True
  | S754_infinity s | S754_finite s _ _ => s = false
  | S754_nan => False
  end.

(** [y] is [x] shifted right by [k] bits, as [SpecFloat.shr] does it: the
    mantissa is divided by [2^k], and when no bit is lost the round and
    sticky bits stay clear. *)
Definition Shifted (k : Z) (x y : shr_record) : Prop :=
  shr_m y = shr_m x / 2 ^ k
  /\ (shr_m x mod 2 ^ k = 0 -> shr_r x = false -> shr_s x = false ->
      shr_r y = false /\ shr_s y = false).

End BinaryValues.

(** *** The demo data *)

(** [Math.random] returns a number in [0, 1). *)
Definition inUnit (r : float) : Prop :=
  (0 <=? r)%float = true /\ (r <? 1)%float = true.

(** The values of [Math.sin] on the finite numbers lie between -1 and 1. *)
Definition sineBounded (sine : float -> float) : Prop :=
  forall x : float, is_finite x = true ->
    (-1 <=? sine x)%float = true /\ (sine x <=? 1)%float = true.

(** [active_listings >= 0] and [avg_price_per_sqft >= 0], as JavaScript
    compares. *)
Definition nonnegative {num : Type} {numOps : Number num} (p : @DataPoint num)
  : Prop :=
  geb (active_listings p) (ofZ 0) = true
  /\ geb (avg_price_per_sqft p) (ofZ 0) = true.

(** [39 <= active_listings <= 52] and [437.5 <= avg_price_per_sqft <= 507.5]. *)
Definition inRange (p : @DataPoint float) : Prop :=
  (39 <=? active_listings p)%float = true
  /\ (active_listings p <=? 52)%float = true
  /\ (437.5 <=? avg_price_per_sqft p)%float = true
  /\ (avg_price_per_sqft p <=? 507.5)%float = true.

(** ** Sample data *)

Module Sample.

(** The page as it is served: the whole data set with a 30-day average
    selected, and placeholders in the statistics cards. *)
Definition page0 {num : Type} : @Page num :=
  {| timeframeSelect := "all";
     smaSelect := "30";
     currentListings := Str "--";
     currentPrice := Str "--";
     priceChange := Str "--";
     priceChangeColor := "";
     lastUpdate := Str "--" |}.

(** The state once [initializeChart] has run, with a given cache. *)
Definition ready {num : Type} (cache : @Json num) : @State num :=
  exec initializeChart
    {| housingChart := None; cachedData := cache; page := page0;
       clock := 1728000000000%Z; draws := 0; console := [] |}.

(** An environment in a time zone at UTC, whose [Math.random] returns 0.5. *)
Definition floatWorld : @World float :=
  {| random := fun _ => 0.5%float; toLocaleDateString := JS.digits;
     localTZA := fun _ _ => 0%Z |}.

(** A sine for the sample runs: the Taylor series of the sine, summed from
    its last term, with the value kept between -1 and 1. *)
Fixpoint sineSeries (x2 : float) (j : Z) (terms : nat) : float :=
  match terms with
  | O => 1%float
  | S k =>
      (1 - x2 / Float64.ofZ (2 * j * (2 * j + 1)) * sineSeries x2 (j + 1) k)%float
  end.

Definition sine (x : float) : float :=
  let y := (x * sineSeries (x * x) 1 30)%float in
  if (y <=? 1)%float then (if (-1 <=? y)%float then y else (-1)%float) else 1%float.

#[global] Instance mathLib : MathLib float := Float64.mathLib sine.

(** New York around the start of daylight saving time in 2026, on March 8
    at 07:00 UTC: five hours behind UTC before it, four hours after it.  A
    local time that the change skips counts with the offset of before. *)
Definition newYorkOffset (t : Z) (isUTC : bool) : Z :=
  let change := 1772953200000%Z in
  if isUTC then (if (t <? change)%Z then -18000000 else -14400000)%Z
  else (if (t <? change - 14400000)%Z then -18000000 else -14400000)%Z.

(** The random numbers of this environment go through the hundredths from
    0 to 0.99. *)
Definition newYork : @World float :=
  {| random := fun k => (Float64.ofZ (Z.of_nat k * 61 mod 100) / 100)%float;
     toLocaleDateString := JS.digits;
     localTZA := newYorkOffset |}.

(** March 10, 2026 at 23:30 UTC, which is 19:30 in New York, with the chart
    ready. *)
Definition newYorkEvening : @State float :=
  exec initializeChart
    {| housingChart := None; cachedData := JNull; page := page0;
       clock := 1773185400000%Z; draws := 0; console := [] |}.

Definition point (day price : Z) : @DataPoint float :=
  {| date := day;
     active_listings := Float64.ofZ 45;
     avg_price_per_sqft := Float64.ofZ price;
     data_source := "historical" |}.

(** Forty points whose price goes from 100 to 139. *)
Definition linear40 : list (@DataPoint float) :=
  map (fun i => point (19961 + i) (100 + i)) (JS.indices 40).

Definition prices10 : list float :=
  map Float64.ofZ [10; 20; 30; 40; 50; 60; 70; 80; 90; 100]%Z.

(** Two points, the first with price 0. *)
Definition fromZero : list (@DataPoint float) := [point 19999 0; point 20000 5].

(** A single point. *)
Definition single : list (@DataPoint float) := [point 20000 450].

(** The forty points with a window of 7 days and a 30-day average
    selected. *)
Definition shortWindow : @State float :=
  exec initializeChart
    {| housingChart := None; cachedData := JArray linear40;
       page := select "7" "30" page0;
       clock := 1728000000000%Z; draws := 0; console := [] |}.

(** The page at rest: the button enabled, the chart ready, nothing cached. *)
Definition atRest : @Document float :=
  {| refreshBtn := {| disabled := false; textContent := refreshText |};
     script := ready JNull |}.

End Sample.

(** ** Facts about the library fragment *)

Section LibraryFacts.

Context {A : Type}.

Lemma slice_inside (l : list A) (a b : nat) :
  (a <= b <= List.length l)%nat ->
  JS.slice l (Z.of_nat a) (Z.of_nat b) = firstn (b - a) (skipn a l).
Proof.
  intros [Hab Hb]. unfold JS.slice, JS.relativeIndex.
  destruct (Z.ltb_spec (Z.of_nat a) 0); [lia|].
  destruct (Z.ltb_spec (Z.of_nat b) 0); [lia|].
  rewrite !Z.min_l by lia.
  replace (Z.to_nat (Z.of_nat b - Z.of_nat a)) with (b - a)%nat by lia.
  now rewrite Nat2Z.id.
Qed.

Lemma sliceFrom_last (l : list A) (k : Z) :
  (0 < k)%Z ->
  JS.sliceFrom l (- k) = lastPoints (Z.to_nat (Z.min k (Z.of_nat (List.length l)))) l.
Proof.
  intros Hk. unfold JS.sliceFrom, JS.slice, JS.relativeIndex, lastPoints.
  destruct (Z.ltb_spec (- k) 0); [|lia].
  destruct (Z.ltb_spec (Z.of_nat (List.length l)) 0); [lia|].
  rewrite Z.min_id.
  set (n := List.length l).
  replace (Z.to_nat (Z.max (Z.of_nat n + - k) 0))
    with (n - Z.to_nat (Z.min k (Z.of_nat n)))%nat by lia.
  apply firstn_all2. rewrite length_skipn. fold n. lia.
Qed.

Lemma sliceFrom_zero (l : list A) : JS.sliceFrom l 0 = l.
Proof.
  unfold JS.sliceFrom, JS.slice, JS.relativeIndex. simpl.
  destruct (Z.ltb_spec (Z.of_nat (List.length l)) 0); [lia|].
  rewrite Z.min_id, Z.min_l, Z.sub_0_r, Nat2Z.id by lia.
  apply firstn_all.
Qed.

Lemma push_loop {B : Type} (f : B -> A) (l : list B) (acc : list A) :
  fold_left (fun out i => JS.push out (f i)) l acc = (acc ++ map f l)%list.
Proof.
  revert acc. induction l as [|i l IH]; intros acc; simpl.
  - now rewrite app_nil_r.
  - rewrite IH. unfold JS.push. now rewrite <- app_assoc.
Qed.

Lemma fold_left_same {B : Type} (f g : A -> B -> A) (l : list B) (acc : A) :
  (forall a b, f a b = g a b) -> fold_left f l acc = fold_left g l acc.
Proof.
  intros Hfg. revert acc. induction l as [|b l IH]; intros acc; simpl.
  - reflexivity.
  - now rewrite Hfg, IH.
Qed.

Lemma length_indices (n : nat) : List.length (JS.indices n) = n.
Proof. unfold JS.indices. now rewrite length_map, length_seq. Qed.

Lemma nth_error_indices (n i : nat) :
  (i < n)%nat -> nth_error (JS.indices n) i = Some (Z.of_nat i).
Proof.
  intros Hi. unfold JS.indices.
  rewrite nth_error_map, nth_error_seq.
  destruct (Nat.ltb_spec i n); [reflexivity | lia].
Qed.

End LibraryFacts.

(** ** Facts about computations *)

Lemma run_eq {S A : Type} (c : M S A) (s : S) : c s = (completion c s, exec c s).
Proof. unfold completion, exec. now destruct (c s). Qed.

Lemma completion_congr {S A : Type} {c c' : M S A} {s s' : S} :
  c s = c' s' -> completion c s = completion c' s'.
Proof. intros H. unfold completion. now rewrite H. Qed.

Lemma exec_congr {S A : Type} {c c' : M S A} {s s' : S} :
  c s = c' s' -> exec c s = exec c' s'.
Proof. intros H. unfold exec. now rewrite H. Qed.

Lemma run_normal {S A : Type} {c : M S A} {s s' : S} {a : A} :
  c s = (Normal a, s') -> completion c s = Normal a /\ exec c s = s'.
Proof. intros H. unfold completion, exec. now rewrite H. Qed.

Lemma tryCatch_normal {S A : Type} (body : M S A) (handler : string -> M S A)
  (s s' : S) (a : A) :
  body s = (Normal a, s') -> tryCatch body handler s = (Normal a, s').
Proof. intros H. unfold tryCatch. now rewrite H. Qed.

Lemma tryCatch_throw {S A : Type} (body : M S A) (handler : string -> M S A)
  (s s' : S) (e : string) :
  body s = (Throw e, s') -> tryCatch body handler s = handler e s'.
Proof. intros H. unfold tryCatch. now rewrite H. Qed.

(** ** The simple moving average *)

Section MovingAverage.

Context {num : Type} {numOps : Number num}.

Lemma calculateSMA_entries (values : list num) (period : Z) :
  calculateSMA values period
  = map (smaEntry values period) (JS.indices (List.length values)).
Proof.
  unfold calculateSMA.
  transitivity
    (fold_left (fun out i => JS.push out (smaEntry values period i))
       (JS.indices (List.length values)) []).
  - apply fold_left_same. intros sma i. unfold smaEntry, sum.
    now destruct (i <? period - 1)%Z.
  - now rewrite push_loop.
Qed.

Lemma length_calculateSMA (values : list num) (period : Z) :
  List.length (calculateSMA values period) = List.length values.
Proof. now rewrite calculateSMA_entries, length_map, length_indices. Qed.

Lemma nth_calculateSMA (values : list num) (period : Z) (i : nat) :
  (i < List.length values)%nat ->
  nth_error (calculateSMA values period) i
  = Some (smaEntry values period (Z.of_nat i)).
Proof.
  intros Hi.
  now rewrite calculateSMA_entries, nth_error_map, nth_error_indices.
Qed.

Lemma length_window (values : list num) (i p : nat) :
  (1 <= p <= i + 1)%nat -> (i < List.length values)%nat ->
  List.length (window values i p) = p.
Proof.
  intros Hp Hi. unfold window. rewrite length_firstn, length_skipn. lia.
Qed.

Lemma smaEntry_window (values : list num) (p i : nat) :
  (1 <= p <= i + 1)%nat -> (i < List.length values)%nat ->
  smaEntry values (Z.of_nat p) (Z.of_nat i) = Some (mean (window values i p)).
Proof.
  intros Hp Hi. unfold smaEntry.
  destruct (Z.ltb_spec (Z.of_nat i) (Z.of_nat p - 1)); [lia|].
  unfold mean. rewrite length_window by assumption.
  replace (Z.of_nat i - Z.of_nat p + 1)%Z with (Z.of_nat (i + 1 - p)) by lia.
  replace (Z.of_nat i + 1)%Z with (Z.of_nat (i + 1)) by lia.
  rewrite slice_inside by lia. unfold window.
  now replace (i + 1 - (i + 1 - p))%nat with p by lia.
Qed.

(** C1.  For a period [p >= 1] the moving average of [values] has the length
    of [values]; its entries before index [p - 1] are [null]; its entry at an
    index [i >= p - 1] is the arithmetic mean of [values[i-p+1 .. i]]; and
    when [p] exceeds the length every entry is [null]. *)
Theorem calculateSMA_spec (values : list num) (p : Z) :
  (1 <= p)%Z ->
  List.length (calculateSMA values p) = List.length values
  /\ (forall i : nat, (i < List.length values)%nat -> (Z.of_nat i < p - 1)%Z ->
        nth_error (calculateSMA values p) i = Some None)
  /\ (forall i : nat, (i < List.length values)%nat -> (p - 1 <= Z.of_nat i)%Z ->
        nth_error (calculateSMA values p) i
        = Some (Some (mean (window values i (Z.to_nat p)))))
  /\ ((Z.of_nat (List.length values) < p)%Z ->
        calculateSMA values p = repeat None (List.length values)).
Proof.
  intros Hp. split; [apply length_calculateSMA|]. split; [|split].
  - intros i Hi Hlt. rewrite nth_calculateSMA by assumption.
    unfold smaEntry. destruct (Z.ltb_spec (Z.of_nat i) (p - 1)); [reflexivity|lia].
  - intros i Hi Hge. rewrite nth_calculateSMA by assumption.
    rewrite <- (Z2Nat.id p) at 1 by lia.
    rewrite smaEntry_window; [reflexivity | lia | assumption].
  - intros Hlen. apply nth_error_ext. intros i.
    destruct (Nat.lt_ge_cases i (List.length values)) as [Hi|Hi].
    + rewrite nth_calculateSMA by assumption.
      rewrite nth_error_repeat by assumption.
      unfold smaEntry.
      destruct (Z.ltb_spec (Z.of_nat i) (p - 1)); [reflexivity|lia].
    + rewrite (proj2 (nth_error_None _ _)) by (rewrite length_calculateSMA; lia).
      symmetry. apply nth_error_None. rewrite repeat_length. lia.
Qed.

(** With period 1 each window is the entry itself: the sum is [0 + v] and
    the mean [(0 + v) / 1]. *)
Lemma calculateSMA_period_1_entries (values : list num) :
  calculateSMA values 1
  = map (fun v => Some (div (add (ofZ 0) v) (ofZ 1))) values.
Proof.
  apply nth_error_ext. intros i.
  destruct (Nat.lt_ge_cases i (List.length values)) as [Hi|Hi].
  - rewrite nth_calculateSMA by assumption.
    change 1%Z with (Z.of_nat 1) at 1.
    rewrite smaEntry_window by lia.
    rewrite nth_error_map. unfold window, mean, sum.
    replace (i + 1 - 1)%nat with i by lia.
    destruct (nth_error values i) as [v|] eqn:Hv.
    + apply nth_error_split in Hv as (l1 & l2 & -> & <-).
      rewrite skipn_app, skipn_all, Nat.sub_diag. reflexivity.
    + apply nth_error_None in Hv. lia.
  - rewrite (proj2 (nth_error_None _ _)) by (rewrite length_calculateSMA; lia).
    symmetry. apply nth_error_None. rewrite length_map. lia.
Qed.

End MovingAverage.

(** ** The time-frame filter *)

Section TimeframeFilter.

Context {num : Type}.

Lemma filterByTimeframe_window (tf : string) (w : Z) (cached : list (@DataPoint num)) :
  (tf =? "all")%string = false ->
  JS.parseInt tf = Some w ->
  (0 < w)%Z ->
  filterByTimeframe tf cached
  = lastPoints (Z.to_nat (Z.min w (Z.of_nat (List.length cached)))) cached.
Proof.
  intros Hall Hparse Hw. unfold filterByTimeframe.
  rewrite Hall, Hparse. simpl. now apply sliceFrom_last.
Qed.

Lemma length_lastPoints {A : Type} (k : nat) (l : list A) :
  (k <= List.length l)%nat -> List.length (lastPoints k l) = k.
Proof. intros Hk. unfold lastPoints. rewrite length_skipn. lia. Qed.

Lemma lastPoints_suffix {A : Type} (k : nat) (l : list A) :
  exists front : list A, l = (front ++ lastPoints k l)%list.
Proof.
  exists (firstn (List.length l - k) l). unfold lastPoints.
  symmetry. apply firstn_skipn.
Qed.

(** C4.  For each of the windows 7, 30, 90, 180 and 365 the filter returns
    the last [min w |dataset|] points of the data set, in their order (a
    suffix of the data set, never padded); for ["all"] it returns the data
    set itself. *)
Theorem filterByTimeframe_spec (cached : list (@DataPoint num)) :
  let lastOf (w : Z) :=
    lastPoints (Z.to_nat (Z.min w (Z.of_nat (List.length cached)))) cached in
  filterByTimeframe "7" cached = lastOf 7%Z
  /\ filterByTimeframe "30" cached = lastOf 30%Z
  /\ filterByTimeframe "90" cached = lastOf 90%Z
  /\ filterByTimeframe "180" cached = lastOf 180%Z
  /\ filterByTimeframe "365" cached = lastOf 365%Z
  /\ filterByTimeframe "all" cached = cached
  /\ (forall w : Z, (0 < w)%Z ->
        List.length (lastOf w) = Z.to_nat (Z.min w (Z.of_nat (List.length cached)))
        /\ exists front, cached = (front ++ lastOf w)%list).
Proof.
  intros lastOf. unfold lastOf.
  repeat split; try (apply filterByTimeframe_window; [reflexivity | reflexivity | lia]).
  - apply length_lastPoints. lia.
  - apply lastPoints_suffix.
Qed.

End TimeframeFilter.

(** ** Chart composition *)

Section ChartComposition.

Context {num : Type} {numOps : Number num}.

Variable world : @World num.

Lemma updateChart_run (st : @State num) (cached : list (@DataPoint num))
  (c : @Chart num) :
  cachedData st = JArray cached -> cached <> [] ->
  housingChart st = Some c -> chartShape (datasets c) ->
  updateChart world st
  = (Normal tt, withChart st (Some (composed world c cached (page st)))).
Proof.
  intros Hcache Hne Hchart Hshape.
  unfold updateChart, bind at 1, get at 1. simpl. rewrite Hcache.
  destruct cached as [|pt cached']; [congruence|].
  change (List.length (pt :: cached') =? 0)%nat with false. cbv iota.
  unfold onChart. rewrite Hchart.
  unfold composed, composition.
  set (filtered := filterByTimeframe (timeframeSelect (page st)) (pt :: cached')).
  unfold smaApplies.
  destruct c as [lbls ds n]. simpl in Hshape.
  destruct (JS.parseInt (smaSelect (page st))) as [p|];
    [destruct ((0 <? p)%Z && (p <=? Z.of_nat (List.length filtered))%Z)|];
    inversion Hshape; subst; reflexivity.
Qed.

Lemma updateChart_without_chart (st : @State num) (cached : list (@DataPoint num)) :
  cachedData st = JArray cached -> cached <> [] ->
  housingChart st = None ->
  updateChart world st
  = (Throw "TypeError: Cannot read properties of null (reading 'data')", st).
Proof.
  intros Hcache Hne Hnone.
  unfold updateChart, bind at 1, get at 1. simpl. rewrite Hcache.
  destruct cached as [|pt cached']; [congruence|].
  change (List.length (pt :: cached') =? 0)%nat with false. cbv iota.
  unfold onChart. now rewrite Hnone.
Qed.

Lemma composition_shape (cached : list (@DataPoint num)) (pg : @Page num) :
  chartShape (composition cached pg).
Proof.
  unfold composition.
  destruct (JS.parseInt (smaSelect pg)) as [p|]; [|apply NoOverlay].
  destruct (_ && _); [apply HasOverlay | apply NoOverlay].
Qed.

Lemma composition_overlay (cached : list (@DataPoint num)) (pg : @Page num) (p : Z) :
  overlayWanted cached pg p ->
  composition cached pg
  = (let filtered := filterByTimeframe (timeframeSelect pg) cached in
     let prices := map (fun d => avg_price_per_sqft d) filtered in
     [listingsSeries (map Some (map (fun d => active_listings d) filtered));
      priceSeries (map Some prices);
      smaSeries (smaLabel p) (calculateSMA prices p)]).
Proof.
  intros (Hp & Hpos & Hlen). unfold composition. rewrite Hp.
  destruct (Z.ltb_spec 0 p); [|lia].
  destruct (Z.leb_spec p
    (Z.of_nat (List.length (filterByTimeframe (timeframeSelect pg) cached)))); [|lia].
  reflexivity.
Qed.

Lemma composition_no_overlay (cached : list (@DataPoint num)) (pg : @Page num) :
  (forall p, ~ overlayWanted cached pg p) ->
  composition cached pg
  = (let filtered := filterByTimeframe (timeframeSelect pg) cached in
     [listingsSeries (map Some (map (fun d => active_listings d) filtered));
      priceSeries (map Some (map (fun d => avg_price_per_sqft d) filtered))]).
Proof.
  intros Hno. unfold composition.
  destruct (JS.parseInt (smaSelect pg)) as [p|] eqn:Hp; [|reflexivity].
  destruct (Z.ltb_spec 0 p); [|reflexivity].
  destruct (Z.leb_spec p
    (Z.of_nat (List.length (filterByTimeframe (timeframeSelect pg) cached))));
    [|reflexivity].
  exfalso. apply (Hno p). unfold overlayWanted. rewrite Hp. auto.
Qed.

Lemma overlayWanted_dec (cached : list (@DataPoint num)) (pg : @Page num) :
  (exists p, overlayWanted cached pg p) \/ (forall p, ~ overlayWanted cached pg p).
Proof.
  unfold overlayWanted.
  destruct (JS.parseInt (smaSelect pg)) as [p|].
  - destruct (Z_lt_dec 0 p) as [Hpos|Hpos].
    + destruct (Z_le_dec p
        (Z.of_nat (List.length (filterByTimeframe (timeframeSelect pg) cached))))
        as [Hlen|Hlen].
      * left. exists p. auto.
      * right. intros q (Hq & _ & Hq'). inversion Hq. subst. contradiction.
    + right. intros q (Hq & Hq' & _). inversion Hq. subst. contradiction.
  - right. intros q (Hq & _). discriminate.
Qed.

Lemma updateChart_other (st : @State num) :
  cachedData st = JOther ->
  exists e : string, updateChart world st = (Throw e, st).
Proof.
  intros Hcache. unfold updateChart, bind, get. simpl. rewrite Hcache.
  destruct (timeframeSelect (page st) =? "all")%string; eexists; reflexivity.
Qed.

Lemma updateChart_ready (st : @State num) :
  chartReady st -> cachedData st <> JOther ->
  completion (updateChart world) st = Normal tt
  /\ chartReady (exec (updateChart world) st)
  /\ page (exec (updateChart world) st) = page st.
Proof.
  intros (c & Hchart & Hshape) Harray.
  destruct (cachedData st) as [|cached|] eqn:Hcache; [| |congruence].
  - unfold completion, exec, updateChart, bind, get. simpl. rewrite Hcache. simpl.
    repeat split. now exists c.
  - destruct cached as [|pt cached'].
    + unfold completion, exec, updateChart, bind, get. simpl. rewrite Hcache. simpl.
      repeat split. now exists c.
    + unfold completion, exec.
      rewrite (updateChart_run st Hcache ltac:(discriminate) Hchart Hshape). simpl.
      repeat split. eexists. split; [reflexivity|]. apply composition_shape.
Qed.

(** C3.  In a state where the chart is ready and the cached data set is not
    empty, [updateChart] completes, and the chart it leaves holds two or three
    series, the overlay in the third slot only: the overlay is present
    exactly when the selected period is positive and the filtered data has at
    least that many points, whatever overlay the chart held before.  With
    period 0 there is none. *)
Theorem updateChart_overlay (st : @State num) (cached : list (@DataPoint num)) :
  chartReady st -> cachedData st = JArray cached -> cached <> [] ->
  exists c' : @Chart num,
    updateChart world st = (Normal tt, withChart st (Some c'))
    /\ chartShape (datasets c')
    /\ (List.length (datasets c') = 2 \/ List.length (datasets c') = 3)%nat
    /\ (List.length (datasets c') = 3%nat
         <-> exists p, overlayWanted cached (page st) p)
    /\ (forall p, overlayWanted cached (page st) p ->
          overlay c'
          = Some (smaSeries (smaLabel p)
                    (calculateSMA
                       (map (fun d => avg_price_per_sqft d)
                          (filterByTimeframe (timeframeSelect (page st)) cached))
                       p)))
    /\ ((forall p, ~ overlayWanted cached (page st) p) ->
          overlay c' = None /\ List.length (datasets c') = 2%nat)
    /\ (JS.parseInt (smaSelect (page st)) = Some 0%Z -> overlay c' = None).
Proof.
  intros (c & Hchart & Hshape) Hcache Hne.
  exists (composed world c cached (page st)).
  split; [now apply updateChart_run|].
  split; [apply composition_shape|].
  assert (Hyes : forall p, overlayWanted cached (page st) p ->
            datasets (composed world c cached (page st))
            = [listingsSeries
                 (map Some (map (fun d => active_listings d)
                    (filterByTimeframe (timeframeSelect (page st)) cached)));
               priceSeries
                 (map Some (map (fun d => avg_price_per_sqft d)
                    (filterByTimeframe (timeframeSelect (page st)) cached)));
               smaSeries (smaLabel p)
                 (calculateSMA
                    (map (fun d => avg_price_per_sqft d)
                       (filterByTimeframe (timeframeSelect (page st)) cached)) p)]).
  { intros p Hp. simpl. now rewrite (composition_overlay Hp). }
  assert (Hno : (forall p, ~ overlayWanted cached (page st) p) ->
            datasets (composed world c cached (page st))
            = [listingsSeries
                 (map Some (map (fun d => active_listings d)
                    (filterByTimeframe (timeframeSelect (page st)) cached)));
               priceSeries
                 (map Some (map (fun d => avg_price_per_sqft d)
                    (filterByTimeframe (timeframeSelect (page st)) cached)))]).
  { intros H. simpl. now rewrite (composition_no_overlay H). }
  destruct (overlayWanted_dec cached (page st)) as [[p Hp]|Hnone].
  - specialize (Hyes p Hp). unfold overlay. rewrite Hyes.
    split; [now right|]. split; [split; [intros _; now exists p | reflexivity]|].
    split.
    + intros q Hq. destruct Hp as (Hp & _), Hq as (Hq & _).
      rewrite Hp in Hq. inversion Hq. subst. reflexivity.
    + split.
      * intros H. exfalso. exact (H p Hp).
      * intros H0. destruct Hp as (Hp & Hpos & _). rewrite H0 in Hp.
        inversion Hp. subst. lia.
  - specialize (Hno Hnone). unfold overlay. rewrite Hno.
    split; [now left|]. split.
    + split; [discriminate|]. intros [p Hp]. exfalso. exact (Hnone p Hp).
    + split; [intros p Hp; exfalso; exact (Hnone p Hp)|].
      split; [intros _; split; reflexivity | reflexivity].
Qed.

(** *** The derivations leave the cached data set alone *)

Lemma keeps_bind {A B : Type} (c : @Js num A) (k : A -> @Js num B) :
  keepsCachedData c -> (forall a, keepsCachedData (k a)) ->
  keepsCachedData (bind c k).
Proof.
  intros Hc Hk st. unfold exec, bind.
  specialize (Hc st). unfold exec in Hc.
  destruct (c st) as [[a|e] st']; simpl in *.
  - rewrite <- Hc. apply Hk.
  - exact Hc.
Qed.

Lemma keeps_onChart {A : Type} (c : M (@Chart num) A) :
  keepsCachedData (onChart c).
Proof.
  intros st. unfold exec, onChart.
  destruct (housingChart st) as [chart|]; [|reflexivity].
  now destruct (c chart).
Qed.

Lemma keeps_updateChart : keepsCachedData (updateChart world).
Proof.
  intros st. unfold exec, updateChart, bind at 1, get at 1. simpl.
  destruct (cachedData st) as [|cached|] eqn:Hcache; [exact Hcache | |].
  - destruct (List.length cached =? 0)%nat; [exact Hcache|].
    rewrite <- Hcache. apply keeps_onChart.
  - now destruct (timeframeSelect (page st) =? "all")%string.
Qed.

Lemma keeps_updateStats : keepsCachedData (updateStats world).
Proof.
  intros st. unfold exec, updateStats, bind at 1, get at 1. simpl.
  destruct (cachedData st) as [|cached|] eqn:Hcache;
    [exact Hcache | | exact Hcache].
  destruct (List.length cached =? 0)%nat; [exact Hcache|].
  destruct (JS.item cached _) as [latest|]; [|exact Hcache].
  destruct (JS.item cached _) as [ago|]; exact Hcache.
Qed.

(** C9.  Neither [updateChart] nor [updateStats] changes the cached data
    set, whether it completes or throws: its length, its order and every
    field of every point are what they were. *)
Theorem derivations_keep_cachedData (st : @State num) :
  cachedData (exec (updateChart world) st) = cachedData st
  /\ cachedData (exec (updateStats world) st) = cachedData st.
Proof. split; [apply keeps_updateChart | apply keeps_updateStats]. Qed.

End ChartComposition.

(** ** The statistics cards *)

Section Statistics.

Context {num : Type} {numOps : Number num}.

Variable world : @World num.

Lemma points_of_nonempty (cached : list (@DataPoint num)) :
  cached <> [] ->
  exists latest reference,
    latestPoint cached = Some latest /\ referencePoint cached = Some reference.
Proof.
  intros Hne. unfold latestPoint, referencePoint.
  assert (Hlen : (0 < List.length cached)%nat).
  { destruct cached; [congruence | simpl; lia]. }
  destruct (nth_error cached (List.length cached - 1)) as [latest|] eqn:H1.
  - destruct (nth_error cached
      (Z.to_nat (Z.max 0 (Z.of_nat (List.length cached) - 1 - 30)))) as [ref|] eqn:H2.
    + now exists latest, ref.
    + apply nth_error_None in H2. lia.
  - apply nth_error_None in H1. lia.
Qed.

Lemma updateStats_run (st : @State num) (cached : list (@DataPoint num))
  (latest reference : @DataPoint num) :
  cachedData st = JArray cached ->
  latestPoint cached = Some latest ->
  referencePoint cached = Some reference ->
  updateStats world st
  = (Normal tt, withPage st (statsPage world (page st) latest reference)).
Proof.
  intros Hcache Hlatest Href.
  assert (Hlen : (0 < List.length cached)%nat).
  { unfold latestPoint in Hlatest.
    destruct cached; [destruct (0 - 1)%nat; discriminate | simpl; lia]. }
  unfold updateStats, bind, get. simpl. rewrite Hcache.
  destruct (Nat.eqb_spec (List.length cached) 0); [lia|].
  unfold JS.item.
  destruct (Z.ltb_spec (Z.of_nat (List.length cached) - 1) 0); [lia|].
  destruct (Z.ltb_spec (Z.max 0 (Z.of_nat (List.length cached) - 31)) 0); [lia|].
  replace (Z.to_nat (Z.of_nat (List.length cached) - 1))
    with (List.length cached - 1)%nat by lia.
  replace (Z.of_nat (List.length cached) - 31)%Z
    with (Z.of_nat (List.length cached) - 1 - 30)%Z by lia.
  unfold latestPoint in Hlatest. unfold referencePoint in Href.
  rewrite Hlatest, Href. reflexivity.
Qed.

Lemma updateStats_ready (st : @State num) :
  cachedData st <> JOther ->
  completion (updateStats world) st = Normal tt
  /\ housingChart (exec (updateStats world) st) = housingChart st.
Proof.
  intros Harray.
  destruct (cachedData st) as [|cached|] eqn:Hcache; [| |congruence].
  - unfold completion, exec, updateStats, bind, get. simpl. now rewrite Hcache.
  - destruct cached as [|pt cached'].
    + unfold completion, exec, updateStats, bind, get. simpl. now rewrite Hcache.
    + destruct (@points_of_nonempty (pt :: cached')) as (l & r & Hl & Hr);
        [discriminate|].
      unfold completion, exec. now rewrite (updateStats_run st Hcache Hl Hr).
Qed.

(** C5.  For a cached data set of length [L > 0], [updateStats] takes the
    last point as the latest one and the point at index [max 0 (L - 1 - 30)]
    as the reference (index 0 when [L < 31]), computes the change
    [(latest - reference) / reference * 100] of the price, and shows it with
    one decimal, preceded by [+] exactly when the change is [>= 0]. *)
Theorem updateStats_change (st : @State num) (cached : list (@DataPoint num)) :
  cachedData st = JArray cached -> cached <> [] ->
  exists latest reference : @DataPoint num,
    nth_error cached (List.length cached - 1) = Some latest
    /\ nth_error cached (Z.to_nat (Z.max 0 (Z.of_nat (List.length cached) - 1 - 30)))
       = Some reference
    /\ ((List.length cached < 31)%nat -> nth_error cached 0 = Some reference)
    /\ completion (updateStats world) st = Normal tt
    /\ let change :=
         mul (div (sub (avg_price_per_sqft latest) (avg_price_per_sqft reference))
                  (avg_price_per_sqft reference))
             (ofZ 100) in
       priceChange (page (exec (updateStats world) st))
       = Str ((if geb change (ofZ 0) then "+" else "")
              ++ toFixed change 1 ++ "%")%string.
Proof.
  intros Hcache Hne.
  destruct (points_of_nonempty Hne) as (latest & reference & Hl & Hr).
  exists latest, reference.
  split; [exact Hl|]. split; [exact Hr|]. split.
  - intros Hshort. unfold referencePoint in Hr.
    now replace (Z.to_nat (Z.max 0 (Z.of_nat (List.length cached) - 1 - 30)))
      with 0%nat in Hr by lia.
  - unfold completion, exec. rewrite (updateStats_run st Hcache Hl Hr).
    split; reflexivity.
Qed.

End Statistics.

(** ** The demo data and the loads *)

Section DemoData.

Context {num : Type} {numOps : Number num} {mathLib : MathLib num}.

Variable world : @World num.

Lemma demoStep_run (now i : Z) (st : @State num) (acc : list (@DataPoint num)) :
  cachedData st = JArray acc ->
  demoStep world now i st
  = (Normal tt,
     {| housingChart := housingChart st;
        cachedData :=
          JArray
            (acc ++ [demoPoint world now i (random world (draws st))
                       (random world (S (draws st)))]);
        page := page st; clock := clock st;
        draws := S (S (draws st)); console := console st |}).
Proof.
  intros Hcache.
  unfold demoStep, Math_random, pushCachedData, get, modify, bind. simpl.
  now rewrite Hcache.
Qed.

Lemma demo_loop (now : Z) (n : nat) :
  forall (st : @State num) (acc : list (@DataPoint num)),
    cachedData st = JArray acc ->
    forDownTo0 n (demoStep world now) st
    = (Normal tt,
       {| housingChart := housingChart st;
          cachedData :=
            JArray
              (acc ++
               map (fun j =>
                      demoPoint world now (Z.of_nat n - Z.of_nat j)
                        (random world (draws st + 2 * j))
                        (random world (draws st + 2 * j + 1)))
                   (seq 0 (S n)));
          page := page st; clock := clock st;
          draws := draws st + 2 * S n; console := console st |}).
Proof.
  induction n as [|n IH]; intros st acc Hcache.
  - simpl forDownTo0. rewrite (demoStep_run now 0 st Hcache). simpl.
    replace (draws st + 0)%nat with (draws st) by lia.
    replace (draws st + 1)%nat with (S (draws st)) by lia.
    replace (draws st + 2)%nat with (S (S (draws st))) by lia.
    reflexivity.
  - change (forDownTo0 (S n) (demoStep world now))
      with (bind (demoStep world now (Z.of_nat (S n)))
              (fun _ => forDownTo0 n (demoStep world now))).
    unfold bind. rewrite (demoStep_run now (Z.of_nat (S n)) st Hcache).
    erewrite IH by reflexivity.
    cbn [housingChart cachedData page clock draws console].
    replace (S (S (draws st)) + 2 * S n)%nat
      with (draws st + 2 * S (S n))%nat by lia.
    rewrite <- app_assoc.
    change (seq 0 (S (S n))) with (0%nat :: seq 1 (S n)).
    rewrite <- (seq_shift (S n) 0), map_cons, map_map.
    cbn [app].
    replace (draws st + 2 * 0)%nat with (draws st) by lia.
    replace (draws st + 1)%nat with (S (draws st)) by lia.
    replace (Z.of_nat (S n) - Z.of_nat 0)%Z with (Z.of_nat (S n)) by lia.
    do 5 f_equal.
    apply map_ext. intros j.
    f_equal; [lia | f_equal; lia | f_equal; lia].
Qed.

Lemma useDemoData_run (st : @State num) :
  useDemoData world st
  = bind (updateChart world) (fun _ => updateStats world) (demoState world st).
Proof.
  unfold useDemoData.
  unfold bind at 1, consoleLog at 1, modify at 1.
  unfold bind at 1, modify at 1.
  unfold bind at 1, get at 1.
  unfold bind at 1. simpl clock.
  change (fun i : Z => bind (Math_random world) _) with (demoStep world (clock st)).
  erewrite demo_loop by reflexivity.
  unfold demoState, demoData.
  cbn [housingChart cachedData page clock draws console withConsole
       withCachedData app].
  change (Z.of_nat 90) with 90%Z.
  reflexivity.
Qed.

Lemma useDemoData_cachedData (st : @State num) :
  cachedData (exec (useDemoData world) st)
  = JArray (demoData world (clock st) (draws st)).
Proof.
  rewrite (exec_congr (useDemoData_run st)).
  transitivity (cachedData (demoState world st)); [|reflexivity].
  apply keeps_bind; [apply keeps_updateChart | intros _; apply keeps_updateStats].
Qed.

Lemma length_demoData (now : Z) (k : nat) :
  List.length (demoData world now k) = 91%nat.
Proof. unfold demoData. now rewrite length_map, length_seq. Qed.

Lemma nth_demoData (now : Z) (k j : nat) :
  (j < 91)%nat ->
  nth_error (demoData world now k) j
  = Some (demoPoint world now (90 - Z.of_nat j)
            (random world (k + 2 * j)) (random world (k + 2 * j + 1))).
Proof.
  intros Hj. unfold demoData. rewrite nth_error_map, nth_error_seq.
  destruct (Nat.ltb_spec j 91); [reflexivity | lia].
Qed.

Lemma date_demoPoint (now i : Z) (r1 r2 : num) :
  date (demoPoint world now i r1 r2) = isoDate (setDateBack world now i).
Proof. reflexivity. Qed.

Lemma data_source_demoPoint (now i : Z) (r1 r2 : num) :
  data_source (demoPoint world now i r1 r2)
  = (if (30 <? i)%Z then "historical" else "scraped")%string.
Proof. reflexivity. Qed.

(** Where local time is at the same offset from UTC all the time, going back
    [i] days in local time is going back [i] days. *)
Lemma setDateBack_fixed_offset (offset now i : Z) :
  (forall (t : Z) (isUTC : bool), localTZA world t isUTC = offset) ->
  isoDate (setDateBack world now i) = (JS.Day now - i)%Z.
Proof.
  intros Hzone. unfold isoDate, setDateBack, UTC, LocalTime. rewrite !Hzone.
  unfold JS.MakeDate, JS.Day, JS.TimeWithinDay.
  pose proof (Z.div_mod (now + offset) JS.msPerDay ltac:(discriminate)) as Hlocal.
  replace (((now + offset) / JS.msPerDay - i) * JS.msPerDay
           + (now + offset) mod JS.msPerDay - offset)%Z
    with (now + - i * JS.msPerDay)%Z by lia.
  rewrite Z.div_add by discriminate. lia.
Qed.

(** X20.  What [useDemoData] leaves in the cache, also when [updateChart]
    throws afterwards: exactly 91 points, the first 60
    marked ["historical"] and the last 31 ["scraped"]; the point at position
    [j] carries the UTC date of the time that lies [90 - j] days before the
    clock in local time.  In a time zone that keeps one offset from UTC these
    are the 91 consecutive days that end at the UTC date of the clock. *)
Theorem useDemoData_points (st : @State num) :
  exists points : list (@DataPoint num),
    cachedData (exec (useDemoData world) st) = JArray points
    /\ List.length points = 91%nat
    /\ (forall j : nat, (j < 91)%nat ->
          exists p, nth_error points j = Some p
            /\ date p = isoDate (setDateBack world (clock st) (90 - Z.of_nat j))
            /\ data_source p
               = (if (j <? 60)%nat then "historical" else "scraped")%string)
    /\ (forall offset : Z,
          (forall (t : Z) (isUTC : bool), localTZA world t isUTC = offset) ->
          forall (j : nat) (p : @DataPoint num),
            nth_error points j = Some p ->
            date p = (JS.Day (clock st) - 90 + Z.of_nat j)%Z).
Proof.
  exists (demoData world (clock st) (draws st)).
  split; [apply useDemoData_cachedData|].
  split; [apply length_demoData|].
  split.
  - intros j Hj. eexists. split; [now apply nth_demoData|]. split.
    + apply date_demoPoint.
    + rewrite data_source_demoPoint.
      destruct (Nat.ltb_spec j 60);
        destruct (Z.ltb_spec 30 (90 - Z.of_nat j)); (reflexivity || lia).
  - intros offset Hzone j p Hp.
    assert (Hj : (j < 91)%nat).
    { rewrite <- (length_demoData (clock st) (draws st)).
      apply nth_error_Some. congruence. }
    rewrite nth_demoData in Hp by lia.
    replace p with (demoPoint world (clock st) (90 - Z.of_nat j)
                      (random world (draws st + 2 * j))
                      (random world (draws st + 2 * j + 1))) by congruence.
    rewrite date_demoPoint, (setDateBack_fixed_offset _ _ Hzone). lia.
Qed.

(** *** Loading *)

Lemma derive_ready (st : @State num) :
  chartReady st -> cachedData st <> JOther ->
  completion (bind (updateChart world) (fun _ => updateStats world)) st = Normal tt
  /\ chartReady (exec (bind (updateChart world) (fun _ => updateStats world)) st)
  /\ cachedData (exec (bind (updateChart world) (fun _ => updateStats world)) st)
     = cachedData st.
Proof.
  intros Hready Harray.
  destruct (updateChart_ready world Hready Harray) as (Hc & Hr & _).
  assert (Harray' : cachedData (exec (updateChart world) st) <> JOther)
    by (now rewrite keeps_updateChart).
  destruct (updateStats_ready world (exec (updateChart world) st) Harray')
    as (Hc' & Hs).
  split; [|split].
  - unfold completion, bind. rewrite (run_eq (updateChart world) st), Hc. exact Hc'.
  - unfold exec at 1, bind. rewrite (run_eq (updateChart world) st), Hc.
    destruct Hr as (c & Hchart & Hshape). exists c. split; [|exact Hshape].
    unfold exec in Hs at 1. now rewrite Hs.
  - apply keeps_bind; [apply keeps_updateChart | intros _; apply keeps_updateStats].
Qed.

Lemma derive_other (st : @State num) :
  cachedData st = JOther ->
  exists e : string,
    bind (updateChart world) (fun _ => updateStats world) st = (Throw e, st).
Proof.
  intros Hcache. destruct (updateChart_other world st Hcache) as [e He].
  exists e. unfold bind. now rewrite He.
Qed.

Lemma useDemoData_ready (st : @State num) :
  chartReady st ->
  completion (useDemoData world) st = Normal tt
  /\ chartReady (exec (useDemoData world) st).
Proof.
  intros (c & Hchart & Hshape).
  assert (Hr : chartReady (demoState world st)).
  { exists c. split; [exact Hchart | exact Hshape]. }
  destruct (derive_ready Hr ltac:(discriminate)) as (H1 & H2 & _).
  rewrite (completion_congr (useDemoData_run st)).
  rewrite (exec_congr (useDemoData_run st)).
  split; [exact H1 | exact H2].
Qed.

Lemma fallback_run (error : string) (st : @State num) :
  fallback world error st = useDemoData world (caught st error).
Proof. reflexivity. Qed.

Lemma load_failure (body : @Js num unit) (e : string) (st st' : @State num) :
  chartReady st' ->
  body st = (Throw e, st') ->
  completion (tryCatch body (fallback world)) st = Normal tt
  /\ chartReady (exec (tryCatch body (fallback world)) st)
  /\ cachedData (exec (tryCatch body (fallback world)) st)
     = JArray (demoData world (clock st') (draws st')).
Proof.
  intros Hready Hbody.
  assert (Hload : tryCatch body (fallback world) st
                  = useDemoData world (caught st' e)).
  { erewrite tryCatch_throw by exact Hbody. apply fallback_run. }
  assert (Hr : chartReady (caught st' e)) by exact Hready.
  destruct (useDemoData_ready Hr) as (H1 & H2).
  pose proof (useDemoData_cachedData (caught st' e)) as H3.
  rewrite (completion_congr Hload), (exec_congr Hload).
  split; [exact H1 | split; [exact H2 | exact H3]].
Qed.

Lemma loadData_blocks (result : @FetchResult num) :
  loadData world result = tryCatch (attempt world result) (fallback world).
Proof. unfold loadData, attempt, fallback. reflexivity. Qed.

Lemma load_success (value : Json) (st : @State num) :
  chartReady st -> value <> JOther ->
  let load :=
    tryCatch (attempt world (Response true (Parsed value))) (fallback world) in
  completion load st = Normal tt
  /\ chartReady (exec load st)
  /\ cachedData (exec load st) = value.
Proof.
  intros Hready Hvalue load.
  assert (Hr : chartReady (withCachedData st value)) by exact Hready.
  destruct (derive_ready Hr Hvalue) as (H1 & H2 & H3).
  assert (Hload : load st
                  = (Normal tt,
                     exec (bind (updateChart world) (fun _ => updateStats world))
                       (withCachedData st value))).
  { apply tryCatch_normal.
    transitivity (bind (updateChart world) (fun _ => updateStats world)
                    (withCachedData st value)); [reflexivity|].
    now rewrite (run_eq (bind (updateChart world) (fun _ => updateStats world))
                   (withCachedData st value)), H1. }
  destruct (run_normal Hload) as (Hc & He). rewrite Hc, He.
  split; [reflexivity | split; [exact H2 | exact H3]].
Qed.

Lemma loadData_ready (result : @FetchResult num) (st : @State num) :
  chartReady st ->
  completion (loadData world result) st = Normal tt
  /\ chartReady (exec (loadData world result) st)
  /\ cachedData (exec (loadData world result) st) = loaded world result st.
Proof.
  intros Hready. rewrite loadData_blocks.
  destruct result as [|ok body].
  { now apply load_failure
      with (e := "TypeError: Failed to fetch"%string) (st' := st). }
  destruct ok.
  2: { destruct body as [|value]; [|destruct value];
       now apply load_failure
         with (e := "Error: Failed to fetch data"%string) (st' := st). }
  destruct body as [|[|points|]]; cbn [loaded].
  - now apply load_failure
      with (e := "SyntaxError: Unexpected token"%string) (st' := st).
  - now apply load_success.
  - now apply load_success.
  - destruct (@derive_other (withCachedData st JOther) eq_refl) as [e He].
    apply load_failure with (e := e) (st' := withCachedData st JOther).
    + exact Hready.
    + transitivity (bind (updateChart world) (fun _ => updateStats world)
                      (withCachedData st JOther)); [reflexivity | exact He].
Qed.

(** Before [initializeChart] has run, as in the call at the end of the
    script, [useDemoData] fills the cache and then throws from
    [updateChart]. *)
Lemma useDemoData_without_chart (st : @State num) :
  housingChart st = None ->
  completion (useDemoData world) st
  = Throw "TypeError: Cannot read properties of null (reading 'data')"
  /\ cachedData (exec (useDemoData world) st)
     = JArray (demoData world (clock st) (draws st)).
Proof.
  intros Hnone. split; [|apply useDemoData_cachedData].
  rewrite (completion_congr (useDemoData_run st)).
  unfold completion, bind.
  rewrite (@updateChart_without_chart _ _ world (demoState world st)
             (demoData world (clock st) (draws st)));
    [reflexivity | reflexivity | | exact Hnone].
  intros Hnil. apply (f_equal (@List.length _)) in Hnil.
  rewrite length_demoData in Hnil. discriminate Hnil.
Qed.

Lemma loaded_array (result : @FetchResult num) (st : @State num) :
  loaded world result st <> JOther.
Proof.
  destruct result as [|[|] [|[|points|]]]; discriminate.
Qed.

(** From [initializeChart] on the chart stays in one of its two shapes, the
    cache holds [null] or an array, and no handler throws, whatever the user
    selects and whatever the loads return. *)
Lemma handle_settled (e : @Event num) (st : @State num) :
  settled st ->
  completion (handle world e) st = Normal tt
  /\ settled (exec (handle world e) st).
Proof.
  intros [Hready Harray]. destruct e as [value|value|result]; cbn [handle].
  - set (st' := withPage st (select value (smaSelect (page st)) (page st))).
    assert (Hrun : bind (modify (fun st => withPage st
                           (select value (smaSelect (page st)) (page st))))
                     (fun _ => updateChart world) st
                   = updateChart world st') by reflexivity.
    rewrite (completion_congr Hrun), (exec_congr Hrun).
    assert (Hr : chartReady st') by exact Hready.
    assert (Ha : cachedData st' <> JOther) by exact Harray.
    destruct (updateChart_ready world Hr Ha) as (Hc & Hr' & _).
    split; [exact Hc|]. split; [exact Hr'|]. now rewrite keeps_updateChart.
  - set (st' := withPage st (select (timeframeSelect (page st)) value (page st))).
    assert (Hrun : bind (modify (fun st => withPage st
                           (select (timeframeSelect (page st)) value (page st))))
                     (fun _ => updateChart world) st
                   = updateChart world st') by reflexivity.
    rewrite (completion_congr Hrun), (exec_congr Hrun).
    assert (Hr : chartReady st') by exact Hready.
    assert (Ha : cachedData st' <> JOther) by exact Harray.
    destruct (updateChart_ready world Hr Ha) as (Hc & Hr' & _).
    split; [exact Hc|]. split; [exact Hr'|]. now rewrite keeps_updateChart.
  - destruct (loadData_ready result Hready) as (Hc & Hr & Hd).
    split; [exact Hc|]. split; [exact Hr|].
    rewrite Hd. apply loaded_array.
Qed.

Lemma handleAll_settled (events : list (@Event num)) (st : @State num) :
  settled st -> settled (handleAll world events st).
Proof.
  revert st. induction events as [|e events IH]; intros st Hst; [exact Hst|].
  apply IH. now apply handle_settled.
Qed.

Lemma initializeChart_settled (st : @State num) :
  cachedData st <> JOther -> settled (exec initializeChart st).
Proof.
  intros Harray. split; [|exact Harray].
  eexists. split; [reflexivity|]. apply NoOverlay.
Qed.

Lemma started_settled (p : @Page num) (time : Z) : settled (started world p time).
Proof.
  unfold started. apply initializeChart_settled.
  rewrite useDemoData_cachedData. discriminate.
Qed.

(** Every state the page reaches is settled. *)
Lemma reachable_settled (p : @Page num) (time : Z) (events : list (@Event num)) :
  settled (handleAll world events (started world p time)).
Proof. apply handleAll_settled, started_settled. Qed.

(** C2, as amended.  With the chart ready, [loadData] never throws and
    leaves the chart ready.  A response with a success status whose body
    parses is stored as it is, without any check of its shape: an empty array
    or [null] stays in the cache.  After a network error, a non-success
    status or an unparsable body, and when deriving the chart from the stored
    body throws, the error is logged and the cache holds the 91 points of
    the demo data. *)
Theorem loadData_cache (result : @FetchResult num) (st : @State num) :
  chartReady st ->
  completion (loadData world result) st = Normal tt
  /\ chartReady (exec (loadData world result) st)
  /\ match result with
     | Response true (Parsed JNull) =>
         cachedData (exec (loadData world result) st) = JNull
     | Response true (Parsed (JArray points)) =>
         cachedData (exec (loadData world result) st) = JArray points
     | _ =>
         cachedData (exec (loadData world result) st)
         = JArray (demoData world (clock st) (draws st))
         /\ List.length (demoData world (clock st) (draws st)) = 91%nat
     end.
Proof.
  intros Hready.
  destruct (loadData_ready result Hready) as (Hc & Hr & Hd).
  split; [exact Hc|]. split; [exact Hr|].
  destruct result as [|[|] [|[|points|]]]; cbn [loaded] in Hd;
    first [exact Hd | split; [exact Hd | apply length_demoData]].
Qed.

End DemoData.

(** ** Strings of digits *)

Section DigitStrings.

Lemma digit_not_space_or_sign (c : ascii) (r : string) :
  startsWithDigit (String c r) = true ->
  JS.isWhiteSpace c = false /\ c <> "-"%char /\ c <> "+"%char.
Proof.
  unfold startsWithDigit.
  destruct c as [[] [] [] [] [] [] [] []]; cbv; intros H;
    first [discriminate H | repeat split; discriminate].
Qed.

End DigitStrings.

(** ** The text [formatFixed] prints *)

Section FixedText.

Lemma length_append (a b : string) :
  String.length (a ++ b) = (String.length a + String.length b)%nat.
Proof. induction a as [|c a IH]; simpl; [reflexivity | now rewrite IH]. Qed.

Lemma length_zeros (k : nat) : String.length (JS.zeros k) = k.
Proof. induction k as [|k IH]; simpl; [reflexivity | now rewrite IH]. Qed.

Lemma digits_start (n : Z) : (0 <= n)%Z -> startsWithDigit (JS.digits n) = true.
Proof.
  intros Hn. unfold JS.digits.
  destruct n as [|p|p]; [reflexivity | | lia].
  unfold Z.to_int, NilZero.string_of_int, NilZero.string_of_uint.
  now destruct (Pos.to_uint p).
Qed.

End FixedText.

(** ** Period 1 in binary64 arithmetic *)

Section FloatIdentity.

Local Open Scope Z_scope.

Lemma fexp_eq (z : Z) : fexp prec emax z = Z.max (z - 53) (-1074).
Proof. reflexivity. Qed.

Lemma div_eucl_pow2 (m : positive) :
  Z.div_eucl (Z.shiftl (Z.pos m) 52) 4503599627370496 = (Z.pos m, 0)
  /\ Z.div_eucl (Z.shiftl (Z.pos m) 53) 4503599627370496 = (Z.pos (xO m), 0).
Proof.
  split.
  - rewrite Z.shiftl_mul_pow2 by lia.
    change (2 ^ 52) with 4503599627370496.
    pose proof (Z.div_eucl_eq (Z.pos m * 4503599627370496) 4503599627370496
                  ltac:(lia)) as H.
    pose proof (Z.mod_pos_bound (Z.pos m * 4503599627370496) 4503599627370496
                  ltac:(lia)) as Hb.
    unfold Z.modulo in Hb.
    destruct (Z.div_eucl (Z.pos m * 4503599627370496) 4503599627370496) as [q r].
    f_equal; lia.
  - rewrite Z.shiftl_mul_pow2 by lia.
    change (2 ^ 53) with 9007199254740992.
    pose proof (Z.div_eucl_eq (Z.pos m * 9007199254740992) 4503599627370496
                  ltac:(lia)) as H.
    pose proof (Z.mod_pos_bound (Z.pos m * 9007199254740992) 4503599627370496
                  ltac:(lia)) as Hb.
    unfold Z.modulo in Hb.
    destruct (Z.div_eucl (Z.pos m * 9007199254740992) 4503599627370496) as [q r].
    f_equal; lia.
Qed.

Lemma shr_fexp_exact (m : positive) (e : Z) :
  Z.max (Z.pos (digits2_pos m) + e - 53) (-1074) = e ->
  shr_fexp prec emax (Z.pos m) e loc_Exact
  = ({| shr_m := Z.pos m; shr_r := false; shr_s := false |}, e).
Proof.
  intros Hc. unfold shr_fexp. rewrite fexp_eq.
  change (Zdigits2 (Z.pos m)) with (Z.pos (digits2_pos m)).
  rewrite Hc, Z.sub_diag. reflexivity.
Qed.

Lemma round_exact (s : bool) (m : positive) (e : Z) :
  Z.max (Z.pos (digits2_pos m) + e - 53) (-1074) = e -> e <= 971 ->
  binary_round_aux prec emax s (Z.pos m) e loc_Exact = S754_finite s m e.
Proof.
  intros Hc He. unfold binary_round_aux.
  rewrite (@shr_fexp_exact m e Hc).
  cbn [shr_m loc_of_shr_record round_nearest_even].
  rewrite (@shr_fexp_exact m e Hc). cbn [shr_m].
  change (emax - prec) with 971.
  destruct (Z.leb_spec e 971); [reflexivity | lia].
Qed.

(** Dividing a double by 1 is exact: the quotient of the mantissas needs no
    rounding. *)
Lemma div_one_finite (s : bool) (m : positive) (e : Z) :
  SpecFloat.bounded prec emax m e = true ->
  SFdiv prec emax (S754_finite s m e) (S754_finite false 4503599627370496 (-52))
  = S754_finite s m e.
Proof.
  intros Hb. unfold SpecFloat.bounded, canonical_mantissa in Hb.
  apply andb_prop in Hb as [Hc He].
  apply Z.eqb_eq in Hc. apply Z.leb_le in He.
  rewrite fexp_eq in Hc. change (emax - prec) with 971 in He.
  unfold SFdiv, SFdiv_core_binary.
  change (Zdigits2 (Z.pos 4503599627370496)) with 53.
  change (Zdigits2 (Z.pos m)) with (Z.pos (digits2_pos m)).
  rewrite fexp_eq. rewrite xorb_false_r.
  destruct (Z.eq_dec e (-1074)) as [Hmin|Hmin].
  - replace (Z.min (Z.max (Z.pos (digits2_pos m) + e - (53 + -52) - 53) (-1074))
                    (e - -52))
      with e by lia.
    replace (e - -52 - e) with 52 by lia.
    destruct (div_eucl_pow2 m) as [-> _].
    change (new_location 4503599627370496 0) with loc_Exact.
    now apply round_exact.
  - replace (Z.min (Z.max (Z.pos (digits2_pos m) + e - (53 + -52) - 53) (-1074))
                    (e - -52))
      with (e - 1) by lia.
    replace (e - -52 - (e - 1)) with 53 by lia.
    destruct (div_eucl_pow2 m) as [_ ->].
    change (new_location 4503599627370496 0) with loc_Exact.
    unfold binary_round_aux.
    assert (Hshr : shr_fexp prec emax (Z.pos m~0) (e - 1) loc_Exact
                   = ({| shr_m := Z.pos m; shr_r := false; shr_s := false |}, e)).
    { unfold shr_fexp. rewrite fexp_eq.
      change (Zdigits2 (Z.pos m~0)) with (Z.pos (Pos.succ (digits2_pos m))).
      replace (Z.max (Z.pos (Pos.succ (digits2_pos m)) + (e - 1) - 53) (-1074)
               - (e - 1))
        with 1 by lia.
      cbn. f_equal. lia. }
    rewrite Hshr. cbn [shr_m loc_of_shr_record round_nearest_even].
    rewrite (@shr_fexp_exact m e Hc). cbn [shr_m].
    change (emax - prec) with 971.
    destruct (Z.leb_spec e 971); [reflexivity | lia].
Qed.

(** [(0 + v) / 1] is [v], except that a negative zero becomes [+0]. *)
Lemma zero_plus_over_one (v : float) :
  Prim2SF ((0 + v) / 1)
  = match Prim2SF v with
    | S754_zero _ => S754_zero false
    | x => x
    end.
Proof.
  rewrite div_spec, add_spec.
  change (Prim2SF 0) with (S754_zero false).
  change (Prim2SF 1) with (S754_finite false 4503599627370496 (-52)).
  pose proof (Prim2SF_valid v) as Hv.
  destruct (Prim2SF v) as [s|s| |s m e].
  - destruct s; reflexivity.
  - destruct s; reflexivity.
  - reflexivity.
  - cbn [SF64add SFadd]. unfold SF64div. now apply div_one_finite.
Qed.

(** C10, as amended.  In binary64 arithmetic the moving average of period
    1 is the input, entry by entry, up to the sign of zero: no entry is
    [null], and the entry at an index is the double the input holds there,
    NaN and the infinities included, except that a negative zero comes back
    as [+0], since [0 + -0] is [+0]. *)
Theorem calculateSMA_period_1 (values : list float) :
  calculateSMA values 1
  = map (fun v : float =>
           Some (match Prim2SF v with
                 | S754_zero true => 0%float
                 | _ => v
                 end))
        values.
Proof.
  rewrite calculateSMA_period_1_entries.
  apply map_ext. intros v. f_equal. apply Prim2SF_inj.
  change (Prim2SF (div (add (ofZ 0) v) (ofZ 1)))
    with (Prim2SF ((0 + v) / 1)%float).
  rewrite zero_plus_over_one.
  destruct (Prim2SF v) as [[|]|s| |s m e] eqn:E;
    first [reflexivity | symmetry; exact E].
Qed.

End FloatIdentity.

(** ** The statistics cards in binary64 arithmetic *)

Section FloatStatistics.

Variable world : @World float.

Lemma zero_of_eqb (r : float) :
  PrimFloat.eqb r 0 = true -> exists s : bool, Prim2SF r = S754_zero s.
Proof.
  rewrite eqb_spec. change (Prim2SF 0) with (S754_zero false).
  destruct (Prim2SF r) as [s|s| |s m e]; cbn.
  - intros _. now exists s.
  - destruct s; discriminate.
  - discriminate.
  - destruct s; discriminate.
Qed.

(** The change computed from a reference price of zero is NaN or an
    infinity. *)
Lemma change_of_zero_reference (l r : float) :
  PrimFloat.eqb r 0 = true ->
  Prim2SF ((l - r) / r * Float64.ofZ 100) = S754_nan
  \/ exists s : bool, Prim2SF ((l - r) / r * Float64.ofZ 100) = S754_infinity s.
Proof.
  intros Hr. destruct (zero_of_eqb Hr) as [sr Hz].
  rewrite mul_spec, div_spec, sub_spec, Hz.
  assert (H100 : Prim2SF (Float64.ofZ 100)
                 = S754_finite false 7036874417766400 (-46))
    by (vm_compute; reflexivity).
  rewrite H100.
  destruct (Prim2SF l) as [sl|sl| |sl m e].
  - left. destruct sl, sr; reflexivity.
  - right. exists (xorb (xorb sl sr) false). reflexivity.
  - left. reflexivity.
  - right. exists (xorb (xorb sl sr) false). reflexivity.
Qed.

Lemma changeText_not_finite (x : float) :
  (Prim2SF x = S754_nan -> changeText x = "NaN%"%string)
  /\ (Prim2SF x = S754_infinity false -> changeText x = "+Infinity%"%string)
  /\ (Prim2SF x = S754_infinity true -> changeText x = "-Infinity%"%string).
Proof.
  unfold changeText.
  change (geb x (ofZ 0)) with (PrimFloat.leb 0 x).
  change (toFixed x 1) with (Float64.toFixed x 1).
  rewrite leb_spec. change (Prim2SF 0) with (S754_zero false).
  unfold Float64.toFixed.
  repeat split; intros ->; reflexivity.
Qed.

(** C6, as amended.  [updateStats] makes no test for a reference price of
    zero: on a non-empty data set whose reference price is zero it completes
    and shows the quotient binary64 arithmetic gives, so the change card
    reads [NaN%], [+Infinity%] or [-Infinity%]. *)
Theorem updateStats_zero_reference (st : @State float)
  (cached : list (@DataPoint float)) (latest reference : @DataPoint float) :
  cachedData st = JArray cached ->
  latestPoint cached = Some latest ->
  referencePoint cached = Some reference ->
  PrimFloat.eqb (avg_price_per_sqft reference) 0 = true ->
  completion (updateStats world) st = Normal tt
  /\ (priceChange (page (exec (updateStats world) st)) = Str "NaN%"
      \/ priceChange (page (exec (updateStats world) st)) = Str "+Infinity%"
      \/ priceChange (page (exec (updateStats world) st)) = Str "-Infinity%").
Proof.
  intros Hcache Hl Hr Hzero.
  destruct (run_normal (updateStats_run world st Hcache Hl Hr)) as (Hc & He).
  split; [exact Hc|]. rewrite He.
  cbn [page withPage statsPage priceChange].
  destruct (changeText_not_finite (percentChange latest reference))
    as (Hnan & Hpos & Hneg).
  destruct (change_of_zero_reference (avg_price_per_sqft latest) Hzero)
    as [H|[[|] H]].
  - left. f_equal. apply Hnan. exact H.
  - right. right. f_equal. apply Hneg. exact H.
  - right. left. f_equal. apply Hpos. exact H.
Qed.

End FloatStatistics.

(** ** Edge cases of the moving average and of the filter *)

Section MovingAverageEdges.

Context {num : Type} {numOps : Number num}.

Lemma slice_empty_range {A : Type} (l : list A) (a b : Z) :
  (0 <= b <= a)%Z -> JS.slice l a b = [].
Proof.
  intros Hab. unfold JS.slice, JS.relativeIndex.
  destruct (Z.ltb_spec a 0); [lia|].
  destruct (Z.ltb_spec b 0); [lia|].
  replace (Z.to_nat (Z.min b (Z.of_nat (List.length l))
                     - Z.min a (Z.of_nat (List.length l)))) with 0%nat by lia.
  reflexivity.
Qed.

Lemma smaEntry_nonpositive (values : list num) (p : Z) (i : nat) :
  (p <= 0)%Z ->
  smaEntry values p (Z.of_nat i) = Some (div (ofZ 0) (ofZ p)).
Proof.
  intros Hp. unfold smaEntry.
  destruct (Z.ltb_spec (Z.of_nat i) (p - 1)); [lia|].
  rewrite slice_empty_range by lia. reflexivity.
Qed.

Lemma map_indices {B : Type} (f : Z -> B) (l : list num) :
  map f (JS.indices (List.length l))
  = map (fun j => f (Z.of_nat j)) (seq 0 (List.length l)).
Proof. unfold JS.indices. now rewrite map_map. Qed.

Lemma map_constant {A B : Type} (b : B) (l : list A) :
  map (fun _ => b) l = repeat b (List.length l).
Proof. induction l as [|a l IH]; simpl; [reflexivity | now rewrite IH]. Qed.

(** X1.  With a period that is zero or negative no entry is [null]: every
    window is empty, so every entry is the quotient [0 / period], which is
    NaN for period 0. *)
Theorem calculateSMA_nonpositive_period (values : list num) (p : Z) :
  (p <= 0)%Z ->
  calculateSMA values p = map (fun _ => Some (div (ofZ 0) (ofZ p))) values.
Proof.
  intros Hp. rewrite calculateSMA_entries, map_indices.
  rewrite (map_ext _ (fun _ => Some (div (ofZ 0) (ofZ p))))
    by (intros j; now apply smaEntry_nonpositive).
  now rewrite !map_constant, length_seq.
Qed.

Lemma slice_firstn {A : Type} (l : list A) (n : nat) (a b : Z) :
  (0 <= a)%Z -> (0 <= b)%Z ->
  (b <= Z.of_nat (Nat.min n (List.length l)))%Z ->
  JS.slice (firstn n l) a b = JS.slice l a b.
Proof.
  intros Ha Hb Hlen. unfold JS.slice, JS.relativeIndex.
  rewrite length_firstn.
  destruct (Z.ltb_spec a 0); [lia|].
  destruct (Z.ltb_spec b 0); [lia|].
  destruct (Z_le_gt_dec a b) as [Hab|Hab].
  - rewrite !Z.min_l by lia.
    rewrite skipn_firstn_comm, firstn_firstn.
    f_equal. lia.
  - replace (Z.to_nat (Z.min b (Z.of_nat (Nat.min n (List.length l)))
                       - Z.min a (Z.of_nat (Nat.min n (List.length l)))))
      with 0%nat by lia.
    replace (Z.to_nat (Z.min b (Z.of_nat (List.length l))
                       - Z.min a (Z.of_nat (List.length l))))
      with 0%nat by lia.
    reflexivity.
Qed.

Lemma smaEntry_firstn (values : list num) (p : Z) (n i : nat) :
  (i < Nat.min n (List.length values))%nat ->
  smaEntry (firstn n values) p (Z.of_nat i) = smaEntry values p (Z.of_nat i).
Proof.
  intros Hi. unfold smaEntry.
  destruct (Z.ltb_spec (Z.of_nat i) (p - 1)); [reflexivity|].
  rewrite slice_firstn by lia. reflexivity.
Qed.

(** X2.  The moving average of the first [n] values is the first [n]
    entries of the moving average of all of them: an entry depends on no
    later value, so that appending points changes no earlier entry. *)
Theorem calculateSMA_prefix (values : list num) (p : Z) (n : nat) :
  calculateSMA (firstn n values) p = firstn n (calculateSMA values p).
Proof.
  apply nth_error_ext. intros i.
  destruct (Nat.lt_ge_cases i (Nat.min n (List.length values))) as [Hi|Hi].
  - rewrite nth_calculateSMA by (rewrite length_firstn; exact Hi).
    rewrite nth_error_firstn.
    destruct (Nat.ltb_spec i n); [|lia].
    rewrite nth_calculateSMA by lia.
    now rewrite smaEntry_firstn.
  - rewrite (proj2 (nth_error_None _ _))
      by (rewrite length_calculateSMA, length_firstn; exact Hi).
    symmetry. apply nth_error_None.
    rewrite length_firstn, length_calculateSMA. exact Hi.
Qed.

End MovingAverageEdges.

(** ** Edge cases of the time-frame filter *)

Section TimeframeEdges.

Context {num : Type}.

Lemma sliceFrom_skipn {A : Type} (l : list A) (k : Z) :
  JS.sliceFrom l k
  = skipn (Z.to_nat (JS.relativeIndex (Z.of_nat (List.length l)) k)) l.
Proof.
  unfold JS.sliceFrom, JS.slice.
  apply firstn_all2. rewrite length_skipn.
  unfold JS.relativeIndex.
  destruct (Z.ltb_spec (Z.of_nat (List.length l)) 0);
    destruct (Z.ltb_spec k 0); lia.
Qed.

Lemma skipn_beyond {A : Type} (l : list A) (k : Z) :
  (0 <= k)%Z ->
  skipn (Z.to_nat (JS.relativeIndex (Z.of_nat (List.length l)) k)) l
  = skipn (Z.to_nat k) l.
Proof.
  intros Hk. unfold JS.relativeIndex.
  destruct (Z.ltb_spec k 0); [lia|].
  destruct (Z_le_gt_dec k (Z.of_nat (List.length l))) as [Hle|Hgt].
  - now rewrite Z.min_l by lia.
  - rewrite Z.min_r by lia. rewrite Nat2Z.id.
    rewrite skipn_all. symmetry. apply skipn_all2. lia.
Qed.

Lemma parseInt_all : JS.parseInt "all" = None.
Proof. reflexivity. Qed.

(** X4.  Whatever ASCII text the time-frame control holds, the filtered
    data is a suffix of the cached data set, in its order.  A value that is
    no number selects the whole data set, and so does 0; a negative value
    [-k], instead of a window, drops the first [k] points. *)
Theorem filterByTimeframe_suffix (timeframe : string)
  (cached : list (@DataPoint num)) :
  isAscii timeframe = true ->
  (exists front : list (@DataPoint num),
     cached = (front ++ filterByTimeframe timeframe cached)%list)
  /\ (JS.parseInt timeframe = None -> filterByTimeframe timeframe cached = cached)
  /\ (forall z : Z, JS.parseInt timeframe = Some z -> (z <= 0)%Z ->
        filterByTimeframe timeframe cached = skipn (Z.to_nat (- z)) cached).
Proof.
  intros _. split; [|split].
  - unfold filterByTimeframe.
    destruct (timeframe =? "all")%string; [now exists []|].
    rewrite sliceFrom_skipn. eexists. symmetry. apply firstn_skipn.
  - intros Hnan. unfold filterByTimeframe. rewrite Hnan.
    destruct (timeframe =? "all")%string; [reflexivity|].
    apply sliceFrom_zero.
  - intros z Hz Hneg. unfold filterByTimeframe.
    destruct (String.eqb_spec timeframe "all") as [->|_].
    + rewrite parseInt_all in Hz. discriminate Hz.
    + rewrite Hz. cbn [JS.negate option_map JS.toInteger].
      rewrite sliceFrom_skipn. apply skipn_beyond. lia.
Qed.

End TimeframeEdges.

(** ** The views follow the cache *)

Section ViewsFollow.

Context {num : Type} {numOps : Number num} {mathLib : MathLib num}.

Variable world : @World num.

Lemma derive_run (st : @State num) (cached : list (@DataPoint num))
  (c : @Chart num) (latest reference : @DataPoint num) :
  cachedData st = JArray cached -> cached <> [] ->
  housingChart st = Some c -> chartShape (datasets c) ->
  latestPoint cached = Some latest -> referencePoint cached = Some reference ->
  bind (updateChart world) (fun _ => updateStats world) st
  = (Normal tt,
     withPage (withChart st (Some (composed world c cached (page st))))
       (statsPage world (page st) latest reference)).
Proof.
  intros Hcache Hne Hchart Hshape Hl Hr.
  unfold bind.
  rewrite (@updateChart_run _ _ world st cached c Hcache Hne Hchart Hshape).
  apply (@updateStats_run _ _ world
           (withChart st (Some (composed world c cached (page st))))
           cached latest reference); assumption.
Qed.

Lemma derive_follows (st : @State num) (cached : list (@DataPoint num)) :
  chartReady st -> cachedData st = JArray cached -> cached <> [] ->
  completion (bind (updateChart world) (fun _ => updateStats world)) st = Normal tt
  /\ settled (exec (bind (updateChart world) (fun _ => updateStats world)) st)
  /\ inSync world (exec (bind (updateChart world) (fun _ => updateStats world)) st).
Proof.
  intros (c & Hchart & Hshape) Hcache Hne.
  destruct (points_of_nonempty Hne) as (l & r & Hl & Hr).
  destruct (run_normal (derive_run st Hcache Hne Hchart Hshape Hl Hr)) as (Hc & He).
  rewrite Hc, He. split; [reflexivity|]. split.
  - split.
    + exists (composed world c cached (page st)).
      split; [reflexivity | apply composition_shape].
    + cbn [cachedData withPage withChart]. rewrite Hcache. discriminate.
  - intros cached' Hc' Hne'.
    cbn [cachedData withPage withChart] in Hc'.
    assert (Heq : cached' = cached) by congruence. subst cached'.
    split.
    + exists (composed world c cached (page st)). repeat split; reflexivity.
    + exists l, r. repeat split; [exact Hl | exact Hr].
Qed.

Lemma demoData_nonempty (now : Z) (k : nat) : demoData world now k <> [].
Proof.
  intros Hnil. apply (f_equal (@List.length _)) in Hnil.
  rewrite length_demoData in Hnil. discriminate Hnil.
Qed.

Lemma fallback_follows (body : @Js num unit) (e : string) (st st' : @State num) :
  chartReady st' ->
  body st = (Throw e, st') ->
  settled (exec (tryCatch body (fallback world)) st)
  /\ inSync world (exec (tryCatch body (fallback world)) st).
Proof.
  intros Hready Hbody.
  assert (Hload : tryCatch body (fallback world) st
                  = bind (updateChart world) (fun _ => updateStats world)
                      (demoState world (caught st' e))).
  { erewrite tryCatch_throw by exact Hbody.
    rewrite fallback_run. apply useDemoData_run. }
  rewrite (exec_congr Hload).
  assert (Hr : chartReady (demoState world (caught st' e))) by exact Hready.
  destruct (@derive_follows (demoState world (caught st' e))
              (demoData world (clock st') (draws st')) Hr eq_refl
              (@demoData_nonempty _ _)) as (_ & H1 & H2).
  split; [exact H1 | exact H2].
Qed.

Lemma attempt_empty (value : @Json num) (st : @State num) :
  value = JNull \/ value = JArray [] ->
  attempt world (Response true (Parsed value)) st
  = (Normal tt, withCachedData st value).
Proof. intros [->| ->]; reflexivity. Qed.

Lemma stored_empty_follows (value : @Json num) (st : @State num) :
  value = JNull \/ value = JArray [] ->
  chartReady st ->
  settled (withCachedData st value) /\ inSync world (withCachedData st value).
Proof.
  intros Hvalue Hready. split.
  - split; [exact Hready|]. cbn [cachedData withCachedData].
    destruct Hvalue as [->| ->]; discriminate.
  - intros cached Hc Hne. cbn [cachedData withCachedData] in Hc.
    destruct Hvalue as [->| ->]; [discriminate Hc|].
    exfalso. apply Hne. congruence.
Qed.

Lemma loadData_follows (result : @FetchResult num) (st : @State num) :
  chartReady st ->
  settled (exec (loadData world result) st)
  /\ inSync world (exec (loadData world result) st).
Proof.
  intros Hready. rewrite loadData_blocks.
  destruct result as [|ok body].
  { now apply fallback_follows
      with (e := "TypeError: Failed to fetch"%string) (st' := st). }
  destruct ok.
  2: { destruct body as [|value]; [|destruct value];
       now apply fallback_follows
         with (e := "Error: Failed to fetch data"%string) (st' := st). }
  destruct body as [|[|points|]].
  - now apply fallback_follows
      with (e := "SyntaxError: Unexpected token"%string) (st' := st).
  - rewrite (exec_congr (tryCatch_normal _ (fallback world) _
               (attempt_empty st (or_introl eq_refl)))).
    apply stored_empty_follows; [now left | exact Hready].
  - destruct points as [|pt points].
    + rewrite (exec_congr (tryCatch_normal _ (fallback world) _
                 (attempt_empty st (or_intror eq_refl)))).
      apply stored_empty_follows; [now right | exact Hready].
    + assert (Hr : chartReady (withCachedData st (JArray (pt :: points))))
        by exact Hready.
      destruct (@derive_follows (withCachedData st (JArray (pt :: points)))
                  (pt :: points) Hr eq_refl ltac:(discriminate))
        as (H1 & H2 & H3).
      assert (Hload : tryCatch
                        (attempt world (Response true (Parsed (JArray (pt :: points)))))
                        (fallback world) st
                      = (Normal tt,
                         exec (bind (updateChart world) (fun _ => updateStats world))
                           (withCachedData st (JArray (pt :: points))))).
      { apply tryCatch_normal.
        transitivity (bind (updateChart world) (fun _ => updateStats world)
                        (withCachedData st (JArray (pt :: points))));
          [reflexivity|].
        now rewrite (run_eq (bind (updateChart world) (fun _ => updateStats world))
                       (withCachedData st (JArray (pt :: points)))), H1. }
      destruct (run_normal Hload) as (_ & He). rewrite He.
      split; [exact H2 | exact H3].
  - destruct (@derive_other _ _ world (withCachedData st JOther) eq_refl)
      as [e He].
    apply fallback_follows with (e := e) (st' := withCachedData st JOther).
    + exact Hready.
    + transitivity (bind (updateChart world) (fun _ => updateStats world)
                      (withCachedData st JOther)); [reflexivity | exact He].
Qed.

Lemma updateChart_follows (st : @State num) :
  settled st ->
  (forall cached : list (@DataPoint num),
      cachedData st = JArray cached -> cached <> [] -> cardsShow world st cached) ->
  inSync world (exec (updateChart world) st).
Proof.
  intros [(c & Hchart & Hshape) Harray] Hcards cached Hc Hne.
  rewrite keeps_updateChart in Hc.
  destruct (run_normal (updateChart_run world st Hc Hne Hchart Hshape))
    as (_ & He).
  rewrite He. split.
  - exists (composed world c cached (page st)). repeat split; reflexivity.
  - destruct (Hcards cached Hc Hne) as (l & r & Hl & Hr & Hp).
    exists l, r. repeat split; [exact Hl | exact Hr | exact Hp].
Qed.

Lemma handle_follows (e : @Event num) (st : @State num) :
  settled st -> inSync world st ->
  settled (exec (handle world e) st) /\ inSync world (exec (handle world e) st).
Proof.
  intros Hsettled Hsync.
  split; [now apply handle_settled|].
  destruct e as [value|value|result]; cbn [handle].
  - set (st' := withPage st (select value (smaSelect (page st)) (page st))).
    assert (Hrun : bind (modify (fun st => withPage st
                           (select value (smaSelect (page st)) (page st))))
                     (fun _ => updateChart world) st
                   = updateChart world st') by reflexivity.
    rewrite (exec_congr Hrun).
    apply updateChart_follows; [exact Hsettled|].
    intros cached Hc Hne.
    destruct (Hsync cached Hc Hne) as (_ & l & r & Hl & Hr & Hp).
    exists l, r. repeat split; [exact Hl | exact Hr | exact Hp].
  - set (st' := withPage st (select (timeframeSelect (page st)) value (page st))).
    assert (Hrun : bind (modify (fun st => withPage st
                           (select (timeframeSelect (page st)) value (page st))))
                     (fun _ => updateChart world) st
                   = updateChart world st') by reflexivity.
    rewrite (exec_congr Hrun).
    apply updateChart_follows; [exact Hsettled|].
    intros cached Hc Hne.
    destruct (Hsync cached Hc Hne) as (_ & l & r & Hl & Hr & Hp).
    exists l, r. repeat split; [exact Hl | exact Hr | exact Hp].
  - apply loadData_follows. exact (proj1 Hsettled).
Qed.

Lemma handleAll_follows (events : list (@Event num)) (st : @State num) :
  settled st -> inSync world st -> inSync world (handleAll world events st).
Proof.
  revert st. induction events as [|e events IH]; intros st Hst Hsync;
    [exact Hsync|].
  destruct (handle_follows e Hst Hsync) as (H1 & H2).
  exact (IH _ H1 H2).
Qed.

Lemma handleAll_cons (e : @Event num) (events : list (@Event num))
  (st : @State num) :
  handleAll world (e :: events) st
  = handleAll world events (exec (handle world e) st).
Proof. reflexivity. Qed.

(** X5.  Once the first load has completed, whatever it returned and
    whatever the user selects or reloads afterwards: whenever the cache
    holds a non-empty array, the chart shows the labels and series composed
    from that array under the current controls, and the statistics cards
    show its latest and reference points. *)
Theorem views_follow_cache (p : @Page num) (time : Z) (result : @FetchResult num)
  (events : list (@Event num)) :
  inSync world (handleAll world (Load result :: events) (started world p time)).
Proof.
  rewrite handleAll_cons.
  destruct (@loadData_follows result (started world p time)
              (proj1 (started_settled world p time))) as (H1 & H2).
  now apply handleAll_follows.
Qed.

(** X6.  From the moment the chart is initialised no handler of the page
    throws: in every state reached from the start of the script by select
    changes and loads, the next handler completes, the chart keeps one of its
    two shapes and the cache holds [null] or an array. *)
Theorem handlers_complete (p : @Page num) (time : Z) (events : list (@Event num))
  (e : @Event num) :
  completion (handle world e) (handleAll world events (started world p time))
  = Normal tt
  /\ settled (exec (handle world e) (handleAll world events (started world p time))).
Proof. apply handle_settled, reachable_settled. Qed.

End ViewsFollow.

(** ** What the derivations leave alone, and what they repeat *)

Section Derivations.

Context {num : Type} {numOps : Number num} {mathLib : MathLib num}.

Variable world : @World num.

Lemma useDemoData_before_chart (st : @State num) :
  housingChart st = None ->
  useDemoData world st
  = (Throw "TypeError: Cannot read properties of null (reading 'data')",
     demoState world st).
Proof.
  intros Hnone. rewrite useDemoData_run. unfold bind.
  now rewrite (@updateChart_without_chart _ _ world (demoState world st)
                 (demoData world (clock st) (draws st)) eq_refl
                 (@demoData_nonempty _ _ _ world _ _) Hnone).
Qed.

(** X7.  The call of [useDemoData] at the end of the script runs before the
    chart exists: it fills the cache with the 91 demo points, logs its
    message, and then throws from [updateChart], so that [updateStats] is not
    reached.  When [initializeChart] has run afterwards the chart is empty
    and the statistics cards are untouched: the demo data of the start is
    cached but not shown. *)
Theorem script_start (p : @Page num) (time : Z) :
  (exists e : string,
     completion (useDemoData world) (initialState p time) = Throw e)
  /\ cachedData (started world p time) = JArray (demoData world time 0)
  /\ housingChart (started world p time) = Some emptyChart
  /\ page (started world p time) = p
  /\ console (started world p time) = ["Using demo data"%string].
Proof.
  pose proof (@useDemoData_before_chart (initialState p time) eq_refl) as Hrun.
  split.
  - eexists. unfold completion. rewrite Hrun. reflexivity.
  - unfold started. unfold exec at 2. rewrite Hrun.
    repeat split; reflexivity.
Qed.

(** X8.  A successful response whose body is [null] or the empty array is
    stored and nothing else changes, with or without a chart: the chart and
    the statistics cards keep showing the data of before.  While the cache is
    empty a change of the time frame or of the moving average stores the
    selection and leaves the chart as it is. *)
Theorem loadData_empty_keeps_views (st : @State num) (value : string) :
  loadData world (Response true (Parsed JNull)) st
  = (Normal tt, withCachedData st JNull)
  /\ loadData world (Response true (Parsed (JArray []))) st
     = (Normal tt, withCachedData st (JArray []))
  /\ housingChart
       (exec (handle world (ChangeTimeframe value)) (withCachedData st JNull))
     = housingChart st
  /\ housingChart
       (exec (handle world (ChangeTimeframe value)) (withCachedData st (JArray [])))
     = housingChart st
  /\ housingChart
       (exec (handle world (ChangeSma value)) (withCachedData st JNull))
     = housingChart st
  /\ housingChart
       (exec (handle world (ChangeSma value)) (withCachedData st (JArray [])))
     = housingChart st.
Proof.
  split; [|split].
  - rewrite loadData_blocks. apply tryCatch_normal.
    apply attempt_empty. now left.
  - rewrite loadData_blocks. apply tryCatch_normal.
    apply attempt_empty. now right.
  - repeat split; reflexivity.
Qed.

Lemma page_onChart {A : Type} (c : M (@Chart num) A) (st : @State num) :
  page (exec (onChart c) st) = page st.
Proof.
  unfold exec, onChart.
  destruct (housingChart st) as [chart|]; [|reflexivity].
  now destruct (c chart).
Qed.

Lemma updateChart_page (st : @State num) :
  page (exec (updateChart world) st) = page st.
Proof.
  unfold exec, updateChart, bind at 1, get at 1. simpl.
  destruct (cachedData st) as [|cached|]; [reflexivity | |].
  - destruct (List.length cached =? 0)%nat; [reflexivity|].
    apply page_onChart.
  - now destruct (timeframeSelect (page st) =? "all")%string.
Qed.

(** X9.  A change of the time frame or of the moving average never changes
    the statistics cards nor the cached data set, whether [updateChart]
    completes or throws: the new value is stored in its control, the other
    control keeps its value, and the cards show what they showed. *)
Theorem select_keeps_statistics (st : @State num) (value : string) :
  let timeframed := exec (handle world (ChangeTimeframe value)) st in
  let averaged := exec (handle world (ChangeSma value)) st in
  (cards (page timeframed) = cards (page st)
   /\ cachedData timeframed = cachedData st
   /\ timeframeSelect (page timeframed) = value
   /\ smaSelect (page timeframed) = smaSelect (page st))
  /\ (cards (page averaged) = cards (page st)
      /\ cachedData averaged = cachedData st
      /\ smaSelect (page averaged) = value
      /\ timeframeSelect (page averaged) = timeframeSelect (page st)).
Proof.
  intros timeframed averaged. split.
  - set (st' := withPage st (select value (smaSelect (page st)) (page st))).
    assert (Hrun : handle world (ChangeTimeframe value) st
                   = updateChart world st') by reflexivity.
    unfold timeframed. rewrite (exec_congr Hrun).
    rewrite updateChart_page, keeps_updateChart. repeat split; reflexivity.
  - set (st' := withPage st (select (timeframeSelect (page st)) value (page st))).
    assert (Hrun : handle world (ChangeSma value) st
                   = updateChart world st') by reflexivity.
    unfold averaged. rewrite (exec_congr Hrun).
    rewrite updateChart_page, keeps_updateChart. repeat split; reflexivity.
Qed.

(** X10.  [updateChart] is idempotent up to the redraw: run a second time
    with the same cache and controls it completes and leaves the same labels
    and the same series, and only redraws the chart once more. *)
Theorem updateChart_twice (st : @State num) (cached : list (@DataPoint num)) :
  chartReady st -> cachedData st = JArray cached -> cached <> [] ->
  exists c1 c2 : @Chart num,
    housingChart (exec (updateChart world) st) = Some c1
    /\ updateChart world (exec (updateChart world) st)
       = (Normal tt, withChart (exec (updateChart world) st) (Some c2))
    /\ labels c2 = labels c1
    /\ datasets c2 = datasets c1
    /\ redraws c2 = S (redraws c1).
Proof.
  intros (c & Hchart & Hshape) Hcache Hne.
  destruct (run_normal (updateChart_run world st Hcache Hne Hchart Hshape))
    as (_ & He).
  rewrite He.
  exists (composed world c cached (page st)).
  exists (composed world (composed world c cached (page st)) cached (page st)).
  split; [reflexivity|]. split; [|repeat split; reflexivity].
  apply (@updateChart_run _ _ world
           (withChart st (Some (composed world c cached (page st)))) cached
           (composed world c cached (page st)));
    [exact Hcache | exact Hne | reflexivity | apply composition_shape].
Qed.

(** X11.  After [updateChart] on a non-empty cache every series of the
    chart, the moving-average overlay included, has exactly one entry per
    label, and there is one label per point of the filtered data: the series
    stay aligned with the axis. *)
Theorem updateChart_aligned (st : @State num) (cached : list (@DataPoint num)) :
  chartReady st -> cachedData st = JArray cached -> cached <> [] ->
  exists c' : @Chart num,
    housingChart (exec (updateChart world) st) = Some c'
    /\ List.length (labels c')
       = List.length (filterByTimeframe (timeframeSelect (page st)) cached)
    /\ forall s : @Series num,
         In s (datasets c') -> List.length (data s) = List.length (labels c').
Proof.
  intros (c & Hchart & Hshape) Hcache Hne.
  destruct (run_normal (updateChart_run world st Hcache Hne Hchart Hshape))
    as (_ & He).
  rewrite He.
  exists (composed world c cached (page st)).
  split; [reflexivity|]. split.
  - cbn [labels composed]. now rewrite length_map.
  - intros s Hs. cbn [labels datasets composed] in *. rewrite length_map.
    unfold composition in Hs.
    destruct Hs as [<-|[<-|Hs]].
    + cbn [data listingsSeries]. now rewrite !length_map.
    + cbn [data priceSeries]. now rewrite !length_map.
    + destruct (JS.parseInt (smaSelect (page st))) as [q|]; [|destruct Hs].
      destruct (_ && _); [|destruct Hs].
      destruct Hs as [<-|[]].
      cbn [data smaSeries]. now rewrite length_calculateSMA, length_map.
Qed.

Lemma length_filterByTimeframe (timeframe : string) (w : Z)
  (cached : list (@DataPoint num)) :
  JS.parseInt timeframe = Some w -> (0 < w)%Z ->
  (Z.of_nat (List.length (filterByTimeframe timeframe cached)) <= w)%Z.
Proof.
  intros Hparse Hw.
  destruct (String.eqb_spec timeframe "all") as [->|Hall].
  - rewrite parseInt_all in Hparse. discriminate Hparse.
  - apply String.eqb_neq in Hall.
    rewrite (filterByTimeframe_window timeframe cached Hall Hparse Hw).
    rewrite length_lastPoints; lia.
Qed.

(** X12.  A moving average longer than the selected window is never drawn:
    when the time frame is a window of [w] points and the period [p] exceeds
    [w], [updateChart] leaves the two base series only, however long the
    cached data set is, and removes an overlay drawn before. *)
Theorem overlay_needs_window (st : @State num) (cached : list (@DataPoint num))
  (w p : Z) :
  chartReady st -> cachedData st = JArray cached -> cached <> [] ->
  JS.parseInt (timeframeSelect (page st)) = Some w -> (0 < w)%Z ->
  JS.parseInt (smaSelect (page st)) = Some p -> (w < p)%Z ->
  exists c' : @Chart num,
    updateChart world st = (Normal tt, withChart st (Some c'))
    /\ overlay c' = None
    /\ List.length (datasets c') = 2%nat.
Proof.
  intros (c & Hchart & Hshape) Hcache Hne Hw Hpos Hp Hlt.
  exists (composed world c cached (page st)).
  split; [now apply updateChart_run|].
  pose proof (@length_filterByTimeframe _ w cached Hw Hpos) as Hlen.
  unfold overlay. cbn [datasets composed]. unfold composition. rewrite Hp.
  destruct (Z.leb_spec p
    (Z.of_nat (List.length (filterByTimeframe (timeframeSelect (page st)) cached))));
    [lia|].
  rewrite andb_false_r. split; reflexivity.
Qed.

End Derivations.

(** ** The console, the refresh button and the tooltips *)

Section Surroundings.

Context {num : Type} {numOps : Number num} {mathLib : MathLib num}.

Variable world : @World num.

Lemma console_onChart {A : Type} (c : M (@Chart num) A) (st : @State num) :
  console (exec (onChart c) st) = console st.
Proof.
  unfold exec, onChart.
  destruct (housingChart st) as [chart|]; [|reflexivity].
  now destruct (c chart).
Qed.

Lemma updateChart_console (st : @State num) :
  console (exec (updateChart world) st) = console st.
Proof.
  unfold exec, updateChart, bind at 1, get at 1. simpl.
  destruct (cachedData st) as [|cached|]; [reflexivity | |].
  - destruct (List.length cached =? 0)%nat; [reflexivity|].
    apply console_onChart.
  - now destruct (timeframeSelect (page st) =? "all")%string.
Qed.

Lemma updateStats_console (st : @State num) :
  console (exec (updateStats world) st) = console st.
Proof.
  unfold exec, updateStats, bind at 1, get at 1. simpl.
  destruct (cachedData st) as [|cached|]; [reflexivity | | reflexivity].
  destruct (List.length cached =? 0)%nat; [reflexivity|].
  destruct (JS.item cached _) as [latest|]; [|reflexivity].
  destruct (JS.item cached _) as [ago|]; reflexivity.
Qed.

Lemma derive_console (st : @State num) :
  console (exec (bind (updateChart world) (fun _ => updateStats world)) st)
  = console st.
Proof.
  pose proof (updateChart_console st) as H1.
  unfold exec, bind in *.
  destruct (updateChart world st) as [[[]|e] st1]; cbn [snd] in *.
  - rewrite <- H1. apply updateStats_console.
  - exact H1.
Qed.

Lemma fallback_console (body : @Js num unit) (e : string) (st st' : @State num) :
  body st = (Throw e, st') ->
  console st' = console st ->
  console (exec (tryCatch body (fallback world)) st)
  = (console st ++ [("Error loading data: " ++ e)%string; "Using demo data"%string])%list.
Proof.
  intros Hbody Hconsole.
  assert (Hload : tryCatch body (fallback world) st
                  = bind (updateChart world) (fun _ => updateStats world)
                      (demoState world (caught st' e))).
  { erewrite tryCatch_throw by exact Hbody.
    rewrite fallback_run. apply useDemoData_run. }
  rewrite (exec_congr Hload), derive_console.
  cbn [console demoState caught withConsole]. unfold JS.push.
  now rewrite Hconsole, <- app_assoc.
Qed.

Lemma stored_console (value : @Json num) (st : @State num) :
  chartReady st -> value <> JOther ->
  console (exec (tryCatch (attempt world (Response true (Parsed value)))
                   (fallback world)) st)
  = console st.
Proof.
  intros Hready Hvalue.
  assert (Hr : chartReady (withCachedData st value)) by exact Hready.
  destruct (derive_ready world Hr Hvalue) as (H1 & _ & _).
  assert (Hload : tryCatch (attempt world (Response true (Parsed value)))
                    (fallback world) st
                  = (Normal tt,
                     exec (bind (updateChart world) (fun _ => updateStats world))
                       (withCachedData st value))).
  { apply tryCatch_normal.
    transitivity (bind (updateChart world) (fun _ => updateStats world)
                    (withCachedData st value)); [reflexivity|].
    now rewrite (run_eq (bind (updateChart world) (fun _ => updateStats world))
                   (withCachedData st value)), H1. }
  destruct (run_normal Hload) as (_ & He). rewrite He.
  rewrite derive_console. reflexivity.
Qed.

(** X13.  With the chart ready, [loadData] logs exactly when it falls back:
    a response that is stored ([null] or an array under a success status)
    adds nothing to the console; every other outcome adds two lines, the
    error after ["Error loading data: "] and then ["Using demo data"].  For a
    status that is no success the error is the one the function throws
    itself. *)
Theorem loadData_console (result : @FetchResult num) (st : @State num) :
  chartReady st ->
  match result with
  | Response true (Parsed JNull) | Response true (Parsed (JArray _)) =>
      console (exec (loadData world result) st) = console st
  | Response false _ =>
      console (exec (loadData world result) st)
      = (console st
         ++ ["Error loading data: Error: Failed to fetch data"%string;
             "Using demo data"%string])%list
  | _ =>
      exists e : string,
        console (exec (loadData world result) st)
        = (console st
           ++ [("Error loading data: " ++ e)%string; "Using demo data"%string])%list
  end.
Proof.
  intros Hready. rewrite loadData_blocks.
  destruct result as [|ok body].
  { eexists. now apply fallback_console with (st' := st). }
  destruct ok.
  2: { destruct body as [|value]; [|destruct value];
       now apply fallback_console
         with (e := "Error: Failed to fetch data"%string) (st' := st). }
  destruct body as [|[|points|]].
  - eexists. now apply fallback_console with (st' := st).
  - apply stored_console; [exact Hready | discriminate].
  - apply stored_console; [exact Hready | discriminate].
  - destruct (@derive_other _ _ world (withCachedData st JOther) eq_refl)
      as [e He].
    exists e. apply fallback_console with (st' := withCachedData st JOther).
    + transitivity (bind (updateChart world) (fun _ => updateStats world)
                      (withCachedData st JOther)); [reflexivity | exact He].
    + reflexivity.
Qed.

Lemma refreshData_resume_run (result : @FetchResult num) (d : @Document num)
  (st' : @State num) :
  loadData world result (script d) = (Normal tt, st') ->
  refreshData_resume world result d
  = (Normal tt,
     {| refreshBtn := {| disabled := false; textContent := refreshText |};
        script := st' |}).
Proof.
  intros Hload. unfold refreshData_resume, bind, inScript.
  rewrite Hload. reflexivity.
Qed.

(** X14.  A refresh always gives the button back.  The click disables the
    button and shows the loading text, and they stay so while the fetch is
    pending, whatever handlers run meanwhile; when the fetch has settled,
    with whatever outcome, the rest of [refreshData] completes, the button is
    enabled again under its usual text, and the cache holds what [loadData]
    leaves. *)
Theorem refreshData_button (d : @Document num) (between : list (@Event num))
  (result : @FetchResult num) :
  settled (script d) ->
  let pending :=
    {| refreshBtn := {| disabled := true; textContent := loadingText |};
       script := handleAll world between (script d) |} in
  bind refreshData_begin (fun _ => meanwhile world between) d
  = (Normal tt, pending)
  /\ refreshData_resume world result pending
     = (Normal tt,
        {| refreshBtn := {| disabled := false; textContent := refreshText |};
           script := exec (loadData world result) (script pending) |})
  /\ settled (exec (loadData world result) (script pending))
  /\ cachedData (exec (loadData world result) (script pending))
     = loaded world result (script pending).
Proof.
  intros Hsettled pending.
  split; [reflexivity|].
  assert (Hbusy : settled (script pending))
    by (now apply handleAll_settled).
  destruct (loadData_ready world result (proj1 Hbusy)) as (Hc & Hr & Hd).
  split; [|split].
  - apply refreshData_resume_run.
    now rewrite (run_eq (loadData world result) (script pending)), Hc.
  - split; [exact Hr|]. rewrite Hd. apply loaded_array.
  - exact Hd.
Qed.

Lemma smaLabel_not_empty (p : Z) : (smaLabel p =? "")%string = false.
Proof. unfold smaLabel. now destruct (JS.digits p). Qed.

(** X15.  The tooltip of every series the chart can hold after
    [updateChart] starts with the label of the series and a colon, since no
    label is empty.  A value of the price series or of the moving-average
    overlay, which shares the price axis, is shown as a dollar amount with
    two decimals, a value of the listings series as the number itself, and a
    gap, like the first entries of the overlay, as the label alone. *)
Theorem tooltipLabel_of_series (numberToString : num -> string)
  (cached : list (@DataPoint num)) (pg : @Page num) (s : @Series num) :
  In s (composition cached pg) ->
  tooltipLabel numberToString {| dataset := s; parsed_y := None |}
  = (label s ++ ": ")%string
  /\ (forall v : num,
        tooltipLabel numberToString {| dataset := s; parsed_y := Some v |}
        = if (yAxisID s =? "y-price")%string
          then (label s ++ ": " ++ "$" ++ toFixed v 2)%string
          else (label s ++ ": " ++ numberToString v)%string)
  /\ (nth_error (composition cached pg) 0 = Some s ->
        yAxisID s = "y-listings"%string)
  /\ (nth_error (composition cached pg) 1 = Some s \/
      nth_error (composition cached pg) 2 = Some s ->
        yAxisID s = "y-price"%string).
Proof.
  intros Hs. unfold composition in *.
  assert (Happ : forall a b c : string,
            ((a ++ b) ++ c)%string = (a ++ b ++ c)%string).
  { intros a b c. induction a as [|x a IH]; simpl; [reflexivity | now rewrite IH]. }
  destruct (JS.parseInt (smaSelect pg)) as [p|];
    [destruct (_ && _)|]; cbn [app In nth_error] in *.
  - destruct Hs as [<-|[<-|[<-|[]]]].
    + repeat split; try reflexivity.
      * intros [H|H]; discriminate H.
    + repeat split; try reflexivity.
      * intros H; discriminate H.
    + unfold tooltipLabel.
      cbn [dataset parsed_y label yAxisID smaSeries].
      rewrite !smaLabel_not_empty.
      change ("y-price" =? "y-price")%string with true. cbv iota.
      repeat split; try reflexivity.
      * intros v. apply Happ.
      * intros H; discriminate H.
  - destruct Hs as [<-|[<-|[]]].
    + repeat split; try reflexivity.
      * intros [H|H]; discriminate H.
    + repeat split; try reflexivity.
      * intros H; discriminate H.
  - destruct Hs as [<-|[<-|[]]].
    + repeat split; try reflexivity.
      * intros [H|H]; discriminate H.
    + repeat split; try reflexivity.
      * intros H; discriminate H.
Qed.

End Surroundings.

(** ** An unchanged price in binary64 arithmetic *)

Section FloatUnchangedPrice.

Variable world : @World float.

(** [x - x] is [+0] for a finite [x], and dividing and multiplying a zero by
    finite numbers leaves a zero. *)
Lemma change_of_equal_prices (x : float) (s : bool) (m : positive) (e : Z) :
  Prim2SF x = S754_finite s m e ->
  exists s' : bool, Prim2SF ((x - x) / x * Float64.ofZ 100) = S754_zero s'.
Proof.
  intros Hx. rewrite mul_spec, div_spec, sub_spec, Hx.
  assert (H100 : Prim2SF (Float64.ofZ 100)
                 = S754_finite false 7036874417766400 (-46))
    by (vm_compute; reflexivity).
  rewrite H100. unfold SF64sub, SFsub. cbv zeta. rewrite Z.sub_diag.
  eexists. reflexivity.
Qed.

Lemma changeText_zero (x : float) (s : bool) :
  Prim2SF x = S754_zero s ->
  changeText x = "+0.0%"%string /\ geb x (ofZ 0) = true.
Proof.
  unfold changeText.
  change (geb x (ofZ 0)) with (PrimFloat.leb 0 x).
  change (toFixed x 1) with (Float64.toFixed x 1).
  rewrite leb_spec. change (Prim2SF 0) with (S754_zero false).
  unfold Float64.toFixed.
  intros ->. split; reflexivity.
Qed.

(** X16.  When the latest and the reference price are the same double,
    finite and not zero, as they are for a data set of a single point, the
    change card reads [+0.0%] and is shown in the colour of a rise: the
    quotient is a zero, of either sign, and both zeros are [>= 0] and print
    as [0.0]. *)
Theorem updateStats_unchanged_price (st : @State float)
  (cached : list (@DataPoint float)) (latest reference : @DataPoint float) :
  cachedData st = JArray cached ->
  latestPoint cached = Some latest ->
  referencePoint cached = Some reference ->
  avg_price_per_sqft latest = avg_price_per_sqft reference ->
  (exists (s : bool) (m : positive) (e : Z),
      Prim2SF (avg_price_per_sqft reference) = S754_finite s m e) ->
  updateStats world st
  = (Normal tt, withPage st (statsPage world (page st) latest reference))
  /\ priceChange (page (exec (updateStats world) st)) = Str "+0.0%"
  /\ priceChangeColor (page (exec (updateStats world) st)) = "#81c995"%string.
Proof.
  intros Hcache Hl Hr Hsame (s & m & e & Hfinite).
  pose proof (updateStats_run world st Hcache Hl Hr) as Hrun.
  split; [exact Hrun|].
  destruct (run_normal Hrun) as (_ & He). rewrite He.
  cbn [page withPage statsPage priceChange priceChangeColor].
  destruct (change_of_equal_prices (avg_price_per_sqft reference) Hfinite)
    as [s' Hzero].
  assert (Hchange : Prim2SF (percentChange latest reference) = S754_zero s').
  { unfold percentChange. rewrite Hsame. exact Hzero. }
  destruct (changeText_zero _ Hchange) as (Htext & Hgeb).
  rewrite Htext, Hgeb. split; reflexivity.
Qed.

End FloatUnchangedPrice.

(** ** Printing a number and reading it back *)

Section DecimalRoundTrip.

Ltac digit_value :=
  repeat match goal with
  | |- context [JS.digitValue 10 ?c] =>
      let v := eval vm_compute in (JS.digitValue 10 c) in
      change (JS.digitValue 10 c) with v
  end.

Lemma append_empty (s : string) : (s ++ "")%string = s.
Proof. induction s as [|c r IH]; simpl; [reflexivity | now rewrite IH]. Qed.

Lemma digitsOf_digits (s rest : string) :
  isDigits s = true ->
  startsWithDigit rest = false ->
  forall (acc : Z) (count : nat),
    JS.digitsOf (s ++ rest) acc count
    = (valueFrom s acc, (count + String.length s)%nat, rest).
Proof.
  intros Hs Hrest. induction s as [|c r IH]; intros acc count.
  - cbn [append valueFrom String.length]. rewrite Nat.add_0_r.
    destruct rest as [|c' r']; [reflexivity|].
    cbn [JS.digitsOf]. unfold startsWithDigit in Hrest.
    destruct (JS.digitValue 10 c'); [discriminate | reflexivity].
  - cbn [append JS.digitsOf isDigits valueFrom String.length] in *.
    destruct (JS.digitValue 10 c); [|discriminate].
    rewrite IH by assumption. do 2 f_equal. lia.
Qed.

Lemma digitsOf_all (s : string) (acc : Z) (count : nat) :
  isDigits s = true ->
  JS.digitsOf s acc count
  = (valueFrom s acc, (count + String.length s)%nat, ""%string).
Proof.
  intros Hs. rewrite <- (append_empty s) at 1.
  now apply digitsOf_digits.
Qed.

Lemma isDigits_app (a b : string) :
  isDigits (a ++ b) = isDigits a && isDigits b.
Proof.
  induction a as [|c r IH]; cbn [append isDigits]; [reflexivity|].
  now destruct (JS.digitValue 10 c).
Qed.

Lemma valueFrom_app (a b : string) :
  isDigits a = true ->
  forall acc : Z, valueFrom (a ++ b) acc = valueFrom b (valueFrom a acc).
Proof.
  induction a as [|c r IH]; cbn [append isDigits valueFrom]; intros Ha acc;
    [reflexivity|].
  destruct (JS.digitValue 10 c); [now apply IH | discriminate].
Qed.

Lemma zeros_digits (k : nat) :
  isDigits (JS.zeros k) = true /\ valueFrom (JS.zeros k) 0 = 0%Z.
Proof.
  induction k as [|k [IH1 IH2]]; [split; reflexivity|].
  cbn [JS.zeros isDigits valueFrom]. digit_value. split; assumption.
Qed.

Lemma uint_digits (d : Decimal.uint) :
  isDigits (NilEmpty.string_of_uint d) = true.
Proof.
  induction d; cbn [NilEmpty.string_of_uint isDigits]; digit_value;
    (reflexivity || assumption).
Qed.

Lemma uint_value_acc (d : Decimal.uint) :
  forall acc : positive,
    valueFrom (NilEmpty.string_of_uint d) (Z.pos acc)
    = Z.pos (Pos.of_uint_acc d acc).
Proof.
  induction d; intros acc;
    cbn [NilEmpty.string_of_uint valueFrom Pos.of_uint_acc]; digit_value;
    [reflexivity | rewrite <- IHd; f_equal; lia ..].
Qed.

Lemma uint_value (d : Decimal.uint) :
  valueFrom (NilEmpty.string_of_uint d) 0 = Z.of_N (Pos.of_uint d).
Proof.
  induction d; cbn [NilEmpty.string_of_uint valueFrom Pos.of_uint]; digit_value;
    [reflexivity | exact IHd | apply (uint_value_acc d) ..].
Qed.

Lemma digits_value (n : Z) :
  (0 <= n)%Z -> isDigits (JS.digits n) = true /\ valueFrom (JS.digits n) 0 = n.
Proof.
  intros Hn. destruct n as [|p|p]; [split; reflexivity | | lia].
  unfold JS.digits. cbn [Z.to_int NilZero.string_of_int].
  pose proof (DecimalPos.Unsigned.of_to p) as Hp.
  destruct (Pos.to_uint p) as [|u|u|u|u|u|u|u|u|u|u] eqn:E;
    [discriminate Hp | ..];
    (cbn [NilZero.string_of_uint];
     split; [apply uint_digits | rewrite uint_value, Hp; reflexivity]).
Qed.

Lemma substring_all (m : string) : substring 0 (String.length m) m = m.
Proof. induction m as [|c r IH]; simpl; [reflexivity | now rewrite IH]. Qed.

Lemma substring_split (m : string) :
  forall a : nat, (a <= String.length m)%nat ->
    m = (substring 0 a m ++ substring a (String.length m - a) m)%string.
Proof.
  induction m as [|c r IH]; intros a Ha.
  - simpl in Ha. now replace a with 0%nat by lia.
  - destruct a as [|a].
    + rewrite Nat.sub_0_r, substring_all. reflexivity.
    + cbn [String.length] in *. cbn [substring append Nat.sub].
      f_equal. apply IH. lia.
Qed.

Lemma length_substring (m : string) :
  forall a : nat, (a <= String.length m)%nat ->
    String.length (substring 0 a m) = a.
Proof.
  induction m as [|c r IH]; intros a Ha.
  - simpl in Ha. now replace a with 0%nat by lia.
  - destruct a as [|a]; [reflexivity|].
    cbn [String.length] in *. cbn [substring String.length].
    f_equal. apply IH. lia.
Qed.

(** The digits [formatFixed] prints: an integer part of at least one digit
    and, after the point, [f] digits, which together denote [n]. *)
Lemma formatFixed_parts (negative : bool) (n : Z) (f : nat) :
  (0 <= n)%Z ->
  exists whole frac : string,
    JS.formatFixed negative n f
    = ((if negative then "-" else "")
       ++ whole ++ (if (f =? 0)%nat then "" else "." ++ frac))%string
    /\ isDigits whole = true /\ isDigits frac = true
    /\ (0 < String.length whole)%nat
    /\ String.length frac = f
    /\ valueFrom frac (valueFrom whole 0) = n.
Proof.
  intros Hn. destruct (digits_value Hn) as (Hd & Hv).
  unfold JS.formatFixed.
  set (m := JS.digits n) in *.
  assert (Hlen : (0 < String.length m)%nat).
  { pose proof (digits_start Hn) as Hs. fold m in Hs.
    destruct m; [discriminate | simpl; lia]. }
  destruct (Nat.eqb_spec f 0) as [->|Hf].
  - exists m, ""%string. cbn [Nat.eqb]. rewrite append_empty.
    repeat split; assumption.
  - set (padded := if (String.length m <=? f)%nat
                   then (JS.zeros (f + 1 - String.length m) ++ m)%string else m).
    assert (Hp : isDigits padded = true /\ valueFrom padded 0 = n
                 /\ (f < String.length padded)%nat).
    { unfold padded. destruct (Nat.leb_spec (String.length m) f) as [Hk|Hk].
      - destruct (zeros_digits (f + 1 - String.length m)) as (Hz1 & Hz2).
        split; [|split].
        + now rewrite isDigits_app, Hz1, Hd.
        + now rewrite valueFrom_app, Hz2 by exact Hz1.
        + rewrite length_append, length_zeros. lia.
      - repeat split; assumption. }
    destruct Hp as (Hp1 & Hp2 & Hp3).
    set (k := String.length padded) in *.
    exists (substring 0 (k - f) padded), (substring (k - f) f padded).
    pose proof (@substring_split padded (k - f) ltac:(lia)) as Hsplit.
    fold k in Hsplit. replace (k - (k - f))%nat with f in Hsplit by lia.
    pose proof (@length_substring padded (k - f) ltac:(lia)) as Hwhole.
    assert (Hparts : isDigits (substring 0 (k - f) padded) = true
                     /\ isDigits (substring (k - f) f padded) = true).
    { rewrite Hsplit, isDigits_app in Hp1. now apply andb_prop in Hp1. }
    destruct Hparts as (Hw & Hfr).
    split; [reflexivity|]. split; [exact Hw|]. split; [exact Hfr|].
    split; [lia|]. split.
    + apply (f_equal String.length) in Hsplit.
      rewrite length_append, Hwhole in Hsplit. fold k in Hsplit. lia.
    + rewrite <- valueFrom_app by exact Hw. now rewrite <- Hsplit.
Qed.

Lemma isDigits_start (s : string) :
  isDigits s = true -> (0 < String.length s)%nat -> startsWithDigit s = true.
Proof.
  destruct s as [|c r]; [simpl; lia|].
  cbn [isDigits startsWithDigit]. now destruct (JS.digitValue 10 c).
Qed.

Lemma digit_not_infinity (s : string) :
  startsWithDigit s = true -> prefix "Infinity" s = false.
Proof.
  destruct s as [|c r]; [discriminate|]. unfold startsWithDigit.
  destruct c as [[] [] [] [] [] [] [] []]; cbv; intros H;
    first [discriminate H | reflexivity].
Qed.

Lemma parseLiteral_formatFixed (negative : bool) (n : Z) (f : nat) :
  (0 <= n)%Z ->
  JS.parseLiteral (JS.formatFixed negative n f)
  = Some (JS.Decimal negative n (- Z.of_nat f)).
Proof.
  intros Hn.
  destruct (formatFixed_parts negative f Hn)
    as (whole & frac & -> & Hw & Hfr & Hlen & Hf & Hv).
  set (tail := if (f =? 0)%nat then ""%string else ("." ++ frac)%string).
  assert (Htail : startsWithDigit tail = false).
  { unfold tail. now destruct (f =? 0)%nat. }
  assert (Hbody : startsWithDigit (whole ++ tail) = true).
  { destruct whole as [|c r]; [simpl in Hlen; lia|].
    cbn [append]. exact (isDigits_start (String c r) Hw Hlen). }
  assert (Hsigned :
            (let s := JS.trimStart ((if negative then "-" else "") ++ whole ++ tail) in
             match s with
             | String "-" r => (true, r)
             | String "+" r => (false, r)
             | _ => (false, s)
             end) = (negative, (whole ++ tail)%string)).
  { destruct negative.
    - reflexivity.
    - cbn [append]. destruct (whole ++ tail)%string as [|c r] eqn:E;
        [discriminate Hbody|].
      destruct (digit_not_space_or_sign c r Hbody) as (Hspace & Hminus & Hplus).
      cbn [JS.trimStart]. rewrite Hspace.
      destruct c as [[] [] [] [] [] [] [] []]; try reflexivity;
        [exfalso; now apply Hplus | exfalso; now apply Hminus]. }
  unfold JS.parseLiteral. cbv zeta in Hsigned. rewrite Hsigned.
  rewrite (digit_not_infinity _ Hbody).
  rewrite (digitsOf_digits whole tail Hw Htail 0 0).
  unfold tail. destruct (Nat.eqb_spec f 0) as [Hzero|Hpos].
  - rewrite Hzero in *. destruct frac; [|discriminate Hf].
    cbn [valueFrom] in Hv. cbn [Nat.add].
    destruct (Nat.eqb_spec (String.length whole) 0); [lia|].
    now rewrite Hv.
  - cbn [append].
    rewrite (digitsOf_all frac (valueFrom whole 0) 0 Hfr).
    cbn [Nat.add JS.exponentPart]. rewrite Hf, Hv.
    destruct (Nat.eqb_spec (String.length whole + f) 0); [lia | reflexivity].
Qed.

End DecimalRoundTrip.

(** ** A NaN among the values, in binary64 arithmetic *)

Section FloatMissingValues.

Lemma add_nan_l (a b : float) :
  Prim2SF a = S754_nan -> Prim2SF (a + b) = S754_nan.
Proof. intros H. rewrite add_spec, H. reflexivity. Qed.

Lemma add_nan_r (a b : float) :
  Prim2SF b = S754_nan -> Prim2SF (a + b) = S754_nan.
Proof. intros H. rewrite add_spec, H. now destruct (Prim2SF a). Qed.

Lemma div_nan_l (a b : float) :
  Prim2SF a = S754_nan -> Prim2SF (a / b) = S754_nan.
Proof. intros H. rewrite div_spec, H. reflexivity. Qed.

Lemma fold_nan_acc (l : list float) :
  forall acc : float,
    Prim2SF acc = S754_nan -> Prim2SF (fold_left PrimFloat.add l acc) = S754_nan.
Proof.
  induction l as [|x l IH]; intros acc Hacc; [exact Hacc|].
  cbn [fold_left]. apply IH. now apply add_nan_l.
Qed.

Lemma fold_nan_in (l : list float) (v : float) :
  In v l -> Prim2SF v = S754_nan ->
  forall acc : float, Prim2SF (fold_left PrimFloat.add l acc) = S754_nan.
Proof.
  induction l as [|x l IH]; intros Hin Hv acc; [destruct Hin|].
  cbn [fold_left]. destruct Hin as [->|Hin].
  - apply fold_nan_acc. now apply add_nan_r.
  - now apply IH.
Qed.

(** X19.  The moving average skips nothing: in binary64 arithmetic a NaN
    among the values makes every entry whose window contains it NaN, that
    is the entry at its index and the [p - 1] entries after it. *)
Theorem calculateSMA_nan (values : list float) (p : Z) (i j : nat) (v : float) :
  (1 <= p)%Z -> (i < List.length values)%nat ->
  (p - 1 <= Z.of_nat i)%Z ->
  (Z.of_nat i - p + 1 <= Z.of_nat j <= Z.of_nat i)%Z ->
  nth_error values j = Some v -> Prim2SF v = S754_nan ->
  exists a : float,
    nth_error (calculateSMA values p) i = Some (Some a)
    /\ Prim2SF a = S754_nan.
Proof.
  intros Hp Hi Hfull Hj Hv Hnan.
  assert (Hentry : nth_error (calculateSMA values p) i
                   = Some (Some (mean (window values i (Z.to_nat p))))).
  { rewrite nth_calculateSMA by exact Hi.
    rewrite <- (Z2Nat.id p) at 1 by lia.
    now rewrite smaEntry_window by lia. }
  eexists. split; [exact Hentry|].
  unfold mean, sum.
  change (Prim2SF
            (fold_left PrimFloat.add (window values i (Z.to_nat p)) (Float64.ofZ 0)
             / Float64.ofZ (Z.of_nat (List.length (window values i (Z.to_nat p)))))
          = S754_nan).
  apply div_nan_l. apply fold_nan_in with v; [|exact Hnan].
  unfold window.
  apply nth_error_In with (j - (i + 1 - Z.to_nat p))%nat.
  rewrite nth_error_firstn.
  destruct (Nat.ltb_spec (j - (i + 1 - Z.to_nat p)) (Z.to_nat p)); [|lia].
  rewrite nth_error_skipn.
  now replace (i + 1 - Z.to_nat p + (j - (i + 1 - Z.to_nat p)))%nat with j by lia.
Qed.

End FloatMissingValues.

(** ** Rounding in binary64 arithmetic *)

(** The rounding of [SpecFloat], which specifies the operations of the
    primitive floats: the result of an operation on values that lie between
    two points of a coarse grid lies between them too. *)

Section BinaryRounding.

Local Open Scope Z_scope.

Lemma digits2_size (p : positive) : digits2_pos p = Pos.size p.
Proof. induction p; simpl; congruence. Qed.

Lemma digits_bounds (p : positive) :
  2 ^ (Z.pos (digits2_pos p) - 1) <= Z.pos p < 2 ^ Z.pos (digits2_pos p).
Proof.
  rewrite digits2_size.
  pose proof (Pos.size_gt p) as Hgt. pose proof (Pos.size_le p) as Hle.
  apply Pos2Z.pos_lt_pos in Hgt. apply Pos2Z.pos_le_pos in Hle.
  rewrite Pos2Z.inj_pow in Hgt, Hle. rewrite (Pos2Z.inj_xO p) in Hle.
  split; [|exact Hgt].
  replace (Z.pos (Pos.size p)) with (Z.succ (Z.pos (Pos.size p) - 1)) in Hle by lia.
  rewrite Z.pow_succ_r in Hle by lia. lia.
Qed.

Lemma exact_split (a b m : Z) :
  0 < a -> 0 < b -> m mod (a * b) = 0 -> m mod a = 0 /\ (m / a) mod b = 0.
Proof.
  intros Ha Hb Hm.
  assert (Hk : m = a * (b * (m / (a * b)))).
  { rewrite Z.mul_assoc. apply Z_div_exact_full_2; lia. }
  set (k := m / (a * b)) in *. split.
  - rewrite Hk, Z.mul_comm. apply Z_mod_mult.
  - rewrite Hk, (Z.mul_comm a), Z.div_mul by lia.
    rewrite Z.mul_comm. apply Z_mod_mult.
Qed.

Lemma Shifted_trans (a b : Z) (x y z : shr_record) :
  0 <= a -> 0 <= b -> 0 <= shr_m x ->
  Shifted a x y -> Shifted b y z -> Shifted (a + b) x z.
Proof.
  intros Ha Hb Hx [Hy1 Hy2] [Hz1 Hz2].
  assert (Hpa : 0 < 2 ^ a) by (apply Z.pow_pos_nonneg; lia).
  assert (Hpb : 0 < 2 ^ b) by (apply Z.pow_pos_nonneg; lia).
  unfold Shifted. rewrite Z.pow_add_r by lia. split.
  - rewrite Hz1, Hy1. apply Z.div_div; lia.
  - intros Hm Hr Hs. destruct (exact_split _ Hpa Hpb Hm) as [Hma Hmb].
    destruct (Hy2 Hma Hr Hs) as [Hr' Hs'].
    apply Hz2; [now rewrite Hy1 | exact Hr' | exact Hs'].
Qed.

Lemma shr_1_Shifted (x : shr_record) : 0 <= shr_m x -> Shifted 1 x (shr_1 x).
Proof.
  destruct x as [m r s]. cbn [shr_m]. intros Hm.
  unfold Shifted. change (2 ^ 1) with 2.
  destruct m as [|[p|p|]|p]; [| | | |lia]; cbn [shr_1 shr_m shr_r shr_s].
  - split; [reflexivity|]. intros _ -> ->. split; reflexivity.
  - rewrite (Pos2Z.inj_xI p). split; [|intros H]; Z.to_euclidean_division_equations; lia.
  - rewrite (Pos2Z.inj_xO p). split; [Z.to_euclidean_division_equations; lia|].
    intros _ -> ->. split; reflexivity.
  - split; [reflexivity|]. intros H. discriminate H.
Qed.

Lemma Shifted_nonneg (k : Z) (x y : shr_record) :
  0 <= k -> 0 <= shr_m x -> Shifted k x y -> 0 <= shr_m y.
Proof.
  intros Hk Hx [Hy _]. rewrite Hy. apply Z.div_pos; [exact Hx|].
  apply Z.pow_pos_nonneg; lia.
Qed.

Lemma iter_pos_Shifted (p : positive) :
  forall x : shr_record,
    0 <= shr_m x -> Shifted (Z.pos p) x (iter_pos shr_1 p x).
Proof.
  induction p as [p IH|p IH|]; intros x Hx; cbn [iter_pos].
  - pose proof (shr_1_Shifted x Hx) as H1.
    pose proof (Shifted_nonneg (k := 1) ltac:(lia) Hx H1) as Hx1.
    pose proof (IH _ Hx1) as H2.
    pose proof (Shifted_nonneg (k := Z.pos p) ltac:(lia) Hx1 H2) as Hx2.
    pose proof (IH _ Hx2) as H3.
    replace (Z.pos p~1) with (1 + Z.pos p + Z.pos p) by lia.
    apply Shifted_trans with (y := iter_pos shr_1 p (shr_1 x)); try lia.
    apply Shifted_trans with (y := shr_1 x); (lia || assumption).
    exact H3.
  - pose proof (IH _ Hx) as H2.
    pose proof (Shifted_nonneg (k := Z.pos p) ltac:(lia) Hx H2) as Hx2.
    pose proof (IH _ Hx2) as H3.
    replace (Z.pos p~0) with (Z.pos p + Z.pos p) by lia.
    apply Shifted_trans with (y := iter_pos shr_1 p x); (lia || assumption).
  - now apply shr_1_Shifted.
Qed.


Lemma Shifted_refl (x : shr_record) : Shifted 0 x x.
Proof.
  split; [now rewrite Z.pow_0_r, Z.div_1_r|]. intros _ Hr Hs. now split.
Qed.

(** [shr]: a shift by [max n 0] bits. *)
Lemma shr_Shifted (x : shr_record) (e n : Z) :
  0 <= shr_m x ->
  Shifted (Z.max n 0) x (fst (shr x e n)) /\ snd (shr x e n) = e + Z.max n 0.
Proof.
  intros Hx. destruct n as [|p|p]; cbn [shr fst snd].
  - split; [apply Shifted_refl | cbn; lia].
  - replace (Z.max (Z.pos p) 0) with (Z.pos p) by lia.
    split; [now apply iter_pos_Shifted | reflexivity].
  - replace (Z.max (Z.neg p) 0) with 0 by lia.
    split; [apply Shifted_refl | lia].
Qed.

Lemma round_nearest_even_bounds (y : shr_record) :
  shr_m y <= round_nearest_even (shr_m y) (loc_of_shr_record y) <= shr_m y + 1
  /\ (shr_r y = false -> shr_s y = false ->
      round_nearest_even (shr_m y) (loc_of_shr_record y) = shr_m y).
Proof.
  destruct y as [m [] []]; cbn [shr_m shr_r shr_s loc_of_shr_record round_nearest_even];
    try destruct (Z.even m); split; try lia; try discriminate; reflexivity.
Qed.

Lemma shr_m_of_loc (m : Z) (l : location) : shr_m (shr_record_of_loc m l) = m.
Proof. now destruct l as [|[]]. Qed.

Lemma round_aux_signed (s : bool) (m e : Z) (l : location) :
  0 <= m -> signed s (binary_round_aux prec emax s m e l).
Proof.
  intros Hm. unfold binary_round_aux, shr_fexp.
  pose proof (@shr_Shifted (shr_record_of_loc m l) e
                (fexp prec emax (Zdigits2 m + e) - e)) as H1.
  rewrite shr_m_of_loc in H1. destruct (H1 Hm) as [S1 _]. clear H1.
  destruct (shr (shr_record_of_loc m l) e _) as [y e1]. cbn [fst] in S1.
  assert (Hy : 0 <= shr_m y).
  { apply (Shifted_nonneg (k := Z.max (fexp prec emax (Zdigits2 m + e) - e) 0)
             (x := shr_record_of_loc m l)); [lia | now rewrite shr_m_of_loc | exact S1]. }
  destruct (round_nearest_even_bounds y) as [[Hlow _] _].
  set (m1 := round_nearest_even (shr_m y) (loc_of_shr_record y)) in *.
  pose proof (@shr_Shifted (shr_record_of_loc m1 loc_Exact) e1
                (fexp prec emax (Zdigits2 m1 + e1) - e1)) as H2.
  rewrite shr_m_of_loc in H2. destruct (H2 ltac:(lia)) as [S2 _]. clear H2.
  destruct (shr (shr_record_of_loc m1 loc_Exact) e1 _) as [y2 e2]. cbn [fst] in S2.
  assert (Hy2 : 0 <= shr_m y2).
  { apply (Shifted_nonneg (k := Z.max (fexp prec emax (Zdigits2 m1 + e1) - e1) 0)
             (x := shr_record_of_loc m1 loc_Exact));
      [lia | rewrite shr_m_of_loc; lia | exact S2]. }
  destruct (shr_m y2) as [|p|p]; [reflexivity | | lia].
  now destruct (e2 <=? emax - prec).
Qed.

(** Rounding to a grid: [m * a] lies between two multiples of [a * b * c],
    and [q] is [m / b] or the next integer, and [m / b] when the division is
    exact; then [q * (a * b)] lies between them too. *)
Lemma grid_round (a b c l h m q : Z) :
  0 < a -> 0 < b -> 0 < c ->
  l * (a * b * c) <= m * a <= h * (a * b * c) ->
  m / b <= q <= m / b + 1 ->
  (m mod b = 0 -> q = m / b) ->
  l * (a * b * c) <= q * (a * b) <= h * (a * b * c).
Proof.
  intros Ha Hb Hc [Hl Hh] [Hq1 Hq2] Hexact.
  assert (Hlm : l * c * b <= m).
  { apply (Z.mul_le_mono_pos_r _ _ a Ha).
    replace (l * c * b * a) with (l * (a * b * c)) by ring. exact Hl. }
  assert (Hmh : m <= h * c * b).
  { apply (Z.mul_le_mono_pos_r _ _ a Ha).
    replace (h * c * b * a) with (h * (a * b * c)) by ring. exact Hh. }
  pose proof (Z.div_mod m b ltac:(lia)) as Hdm.
  pose proof (Z.mod_pos_bound m b Hb) as Hr.
  assert (Hlow : l * c <= m / b).
  { apply Z.div_le_lower_bound; [exact Hb|]. lia. }
  assert (Hup : q <= h * c).
  { destruct (Z.eq_dec (m mod b) 0) as [H0|H0].
    - rewrite (Hexact H0).
      apply (Z.mul_le_mono_pos_r _ _ b Hb). nia.
    - assert (m / b < h * c); [|lia].
      apply (Z.mul_lt_mono_pos_r b); [exact Hb|]. nia. }
  assert (Hab : 0 < a * b) by nia.
  split.
  - replace (l * (a * b * c)) with (l * c * (a * b)) by ring.
    apply Z.mul_le_mono_nonneg_r; lia.
  - replace (h * (a * b * c)) with (h * c * (a * b)) by ring.
    apply Z.mul_le_mono_nonneg_r; lia.
Qed.

Lemma pow2_pos (z : Z) : 0 <= z -> 0 < 2 ^ z.
Proof. intros Hz. apply Z.pow_pos_nonneg; lia. Qed.

Lemma fexp_le_grid (p : positive) (e k h : Z) :
  h < 2 ^ 53 -> -1074 <= k -> -1200 <= e -> -1200 <= k ->
  Z.pos p * 2 ^ (e + 1200) <= h * 2 ^ (k + 1200) ->
  fexp prec emax (Z.pos (digits2_pos p) + e) <= k.
Proof.
  intros Hh Hk He Hk' Hp. rewrite fexp_eq.
  destruct (digits_bounds p) as [Hlow _].
  set (d := Z.pos (digits2_pos p)) in *.
  destruct (Z_le_gt_dec (d + e - 53) k) as [H|H]; [lia|]. exfalso.
  assert (Hd : 1 <= d) by (unfold d; lia).
  pose proof (@pow2_pos (e + 1200) ltac:(lia)) as Ha.
  pose proof (@pow2_pos (k + 1200) ltac:(lia)) as Hb.
  assert (H1 : 2 ^ (53 + (k + 1200)) <= 2 ^ (d - 1 + (e + 1200)))
    by (apply Z.pow_le_mono_r; lia).
  rewrite (Z.pow_add_r 2 53 (k + 1200)), (Z.pow_add_r 2 (d - 1) (e + 1200)) in H1
    by lia.
  assert (H3 : 2 ^ (d - 1) * 2 ^ (e + 1200) <= Z.pos p * 2 ^ (e + 1200))
    by (apply Z.mul_le_mono_nonneg_r; lia).
  assert (H4 : h * 2 ^ (k + 1200) < 2 ^ 53 * 2 ^ (k + 1200)).
  { apply Z.mul_lt_mono_pos_r; lia. }
  lia.
Qed.

(** One shift of [shr_fexp] on a mantissa whose value lies between two
    points of the grid of exponent [k]. *)
Lemma shr_between (m q e n k l h : Z) :
  -1200 <= e -> 0 <= n -> e + n <= k ->
  l * 2 ^ (k + 1200) <= m * 2 ^ (e + 1200) <= h * 2 ^ (k + 1200) ->
  m / 2 ^ n <= q <= m / 2 ^ n + 1 ->
  (m mod 2 ^ n = 0 -> q = m / 2 ^ n) ->
  l * 2 ^ (k + 1200) <= q * 2 ^ (e + n + 1200) <= h * 2 ^ (k + 1200).
Proof.
  intros He Hn Hk Hm Hq Hexact.
  replace (2 ^ (k + 1200)) with (2 ^ (e + 1200) * 2 ^ n * 2 ^ (k - e - n)) in *
    by (rewrite <- !Z.pow_add_r by lia; f_equal; lia).
  replace (2 ^ (e + n + 1200)) with (2 ^ (e + 1200) * 2 ^ n)
    by (rewrite <- !Z.pow_add_r by lia; f_equal; lia).
  apply grid_round with (m := m); try assumption; apply pow2_pos; lia.
Qed.

(** Rounding a value that lies between two points of the grid of exponent
    [k], the upper one below [2^(53+k)]: the result is a number between the
    two points. *)
Lemma round_aux_between (s : bool) (m : positive) (e k l h : Z) :
  -1200 <= e <= 971 -> -1074 <= k <= 971 ->
  0 <= l -> h < 2 ^ 53 ->
  l * 2 ^ (k + 1200) <= Z.pos m * 2 ^ (e + 1200) <= h * 2 ^ (k + 1200) ->
  match binary_round_aux prec emax s (Z.pos m) e loc_Exact with
  | S754_zero s' => s' = s /\ l = 0
  | S754_finite s' m' e' =>
      s' = s /\ -1200 <= e'
      /\ l * 2 ^ (k + 1200) <= Z.pos m' * 2 ^ (e' + 1200) <= h * 2 ^ (k + 1200)
  | _ => False
  end.
Proof.
  intros He Hk Hl Hh Hm.
  unfold binary_round_aux, shr_fexp. cbn [shr_record_of_loc Zdigits2].
  pose proof (@fexp_le_grid m e k h Hh ltac:(lia) ltac:(lia) ltac:(lia) (proj2 Hm))
    as Hfexp.
  pose proof (fexp_eq (Z.pos (digits2_pos m) + e)) as Hfe.
  remember (fexp prec emax (Z.pos (digits2_pos m) + e) - e) as n eqn:En.
  destruct (@shr_Shifted (Build_shr_record (Z.pos m) false false) e n
              ltac:(cbn; lia)) as [[Sm Sx] E1].
  destruct (shr (Build_shr_record (Z.pos m) false false) e n) as [y e1].
  cbn [fst snd shr_m shr_r shr_s] in Sm, Sx, E1.
  destruct (round_nearest_even_bounds y) as [[R1 R2] R3].
  set (m1 := round_nearest_even (shr_m y) (loc_of_shr_record y)) in *.
  assert (Hy : 0 <= shr_m y).
  { rewrite Sm. apply Z.div_pos; [lia | apply pow2_pos; lia]. }
  assert (key : l * 2 ^ (k + 1200) <= m1 * 2 ^ (e1 + 1200) <= h * 2 ^ (k + 1200)
                /\ -1074 <= e1 <= 971 /\ 0 <= m1).
  { destruct (Z.max_spec n 0) as [[Hn Hmax]|[Hn Hmax]]; rewrite Hmax in *.
    - rewrite Z.pow_0_r, Z.div_1_r in Sm.
      assert (Hex : m1 = shr_m y)
        by (apply R3; apply Sx; try reflexivity; apply Z.mod_1_r).
      rewrite Hex, Sm, E1, Z.add_0_r. split; [exact Hm|lia].
    - split; [|lia]. subst e1.
      apply (@shr_between (Z.pos m) m1 e n k l h); try lia.
      intros Hex. rewrite <- Sm. apply R3; now apply Sx. }
  destruct key as (Hm1 & He1 & Hm1pos). clearbody m1. clear R1 R2 R3 Sm Sx Hy y.
  pose proof (fexp_eq (Zdigits2 m1 + e1)) as Hfe2.
  remember (fexp prec emax (Zdigits2 m1 + e1) - e1) as n2 eqn:En2.
  destruct (@shr_Shifted (Build_shr_record m1 false false) e1 n2
              ltac:(cbn; lia)) as [[Sm2 _] E2].
  destruct (shr (Build_shr_record m1 false false) e1 n2) as [y2 e2].
  cbn [fst snd shr_m] in Sm2, E2.
  assert (key : l * 2 ^ (k + 1200) <= shr_m y2 * 2 ^ (e2 + 1200)
                <= h * 2 ^ (k + 1200)
                /\ e2 <= 971 /\ -1200 <= e2).
  { destruct (Z.max_spec n2 0) as [[Hn Hmax]|[Hn Hmax]]; rewrite Hmax in *.
    - rewrite Z.pow_0_r, Z.div_1_r in Sm2.
      rewrite Sm2, E2, Z.add_0_r. split; [exact Hm1|lia].
    - assert (Hfexp2 : e1 + n2 <= k).
      { destruct m1 as [|p1|p1]; [cbn [Zdigits2] in *; lia | | lia].
        cbn [Zdigits2] in *.
        pose proof (@fexp_le_grid p1 e1 k h Hh ltac:(lia) ltac:(lia) ltac:(lia)
                      (proj2 Hm1)). lia. }
      split; [|lia]. subst e2.
      apply (@shr_between m1 (shr_m y2) e1 n2 k l h); try lia. }
  destruct key as (key & He2 & He2').
  assert (Hy2 : 0 <= shr_m y2).
  { rewrite Sm2. apply Z.div_pos; [lia | apply pow2_pos; lia]. }
  pose proof (@pow2_pos (k + 1200) ltac:(lia)) as Hgrid.
  destruct (shr_m y2) as [|p2|p2]; [| | lia]; cbv beta iota.
  - split; [reflexivity | nia].
  - change (emax - prec) with 971.
    destruct (Z.leb_spec e2 971); [|lia].
    split; [reflexivity|]. split; [lia | exact key].
Qed.


Lemma round_signed_between (s : bool) (m : positive) (e k l h : Z) :
  -1200 <= e <= 971 -> -1074 <= k <= 971 ->
  - 2 ^ 53 < l -> h < 2 ^ 53 ->
  l * 2 ^ (k + 1200) <= cond_Zopp s (Z.pos m * 2 ^ (e + 1200))
  <= h * 2 ^ (k + 1200) ->
  Between (l * 2 ^ (k + 1200)) (h * 2 ^ (k + 1200))
    (binary_round_aux prec emax s (Z.pos m) e loc_Exact).
Proof.
  intros He Hk Hl Hh Hm.
  pose proof (@pow2_pos (k + 1200) ltac:(lia)) as HG.
  pose proof (@pow2_pos (e + 1200) ltac:(lia)) as HP.
  set (G := 2 ^ (k + 1200)) in *.
  assert (HV : 0 < Z.pos m * 2 ^ (e + 1200)) by nia.
  destruct s; cbn [cond_Zopp] in Hm.
  - pose proof (@round_aux_between true m e k (Z.max (- h) 0) (- l) He Hk
                  ltac:(lia) ltac:(lia)) as Hr.
    fold G in Hr.
    assert (Hb : Z.max (- h) 0 * G <= Z.pos m * 2 ^ (e + 1200) <= - l * G).
    { destruct (Z.max_spec (- h) 0) as [[_ ->]|[_ ->]]; lia. }
    specialize (Hr Hb).
    destruct (binary_round_aux prec emax true (Z.pos m) e loc_Exact)
      as [s'|s'| |s' m' e']; try contradiction.
    + destruct Hr as [_ H0]. split; [reflexivity|]. cbn [scaled]. lia.
    + destruct Hr as (-> & _ & Hv). split; [reflexivity|].
      cbn [scaled cond_Zopp].
      destruct (Z.max_spec (- h) 0) as [[_ E]|[_ E]]; rewrite E in Hv; lia.
  - pose proof (@round_aux_between false m e k (Z.max l 0) h He Hk
                  ltac:(lia) ltac:(lia)) as Hr.
    fold G in Hr.
    assert (Hb : Z.max l 0 * G <= Z.pos m * 2 ^ (e + 1200) <= h * G).
    { destruct (Z.max_spec l 0) as [[_ ->]|[_ ->]]; lia. }
    specialize (Hr Hb).
    destruct (binary_round_aux prec emax false (Z.pos m) e loc_Exact)
      as [s'|s'| |s' m' e']; try contradiction.
    + destruct Hr as [_ H0]. split; [reflexivity|]. cbn [scaled]. lia.
    + destruct Hr as (-> & _ & Hv). split; [reflexivity|].
      cbn [scaled cond_Zopp].
      destruct (Z.max_spec l 0) as [[_ E]|[_ E]]; rewrite E in Hv; lia.
Qed.

Lemma iter_xO (m d : positive) :
  Z.pos (Pos.iter xO m d) = Z.pos m * 2 ^ Z.pos d.
Proof.
  induction d as [|d IH] using Pos.peano_ind.
  - cbn [Pos.iter]. rewrite (Pos2Z.inj_xO m). change (2 ^ 1) with 2. lia.
  - rewrite Pos.iter_succ, (Pos2Z.inj_xO (Pos.iter xO m d)), IH.
    rewrite Pos2Z.inj_succ, Z.pow_succ_r by lia. ring.
Qed.

Lemma shl_align_value (m : positive) (e e' : Z) :
  -1200 <= e -> -1200 <= e' ->
  snd (shl_align m e e') = Z.min e e'
  /\ Z.pos (fst (shl_align m e e')) * 2 ^ (Z.min e e' + 1200)
     = Z.pos m * 2 ^ (e + 1200).
Proof.
  intros He He'. unfold shl_align.
  destruct (e' - e) as [|d|d] eqn:E; cbn [fst snd].
  - replace (Z.min e e') with e by lia. split; reflexivity.
  - replace (Z.min e e') with e by lia. split; reflexivity.
  - replace (Z.min e e') with e' by lia. split; [reflexivity|].
    rewrite iter_xO, <- Z.mul_assoc, <- Z.pow_add_r by lia.
    do 2 f_equal. lia.
Qed.

Lemma round_between (s : bool) (m : positive) (e k l h : Z) :
  -1200 <= e <= 971 -> -1074 <= k <= 971 ->
  - 2 ^ 53 < l -> h < 2 ^ 53 ->
  l * 2 ^ (k + 1200) <= cond_Zopp s (Z.pos m * 2 ^ (e + 1200))
  <= h * 2 ^ (k + 1200) ->
  Between (l * 2 ^ (k + 1200)) (h * 2 ^ (k + 1200))
    (binary_round prec emax s m e).
Proof.
  intros He Hk Hl Hh Hm. unfold binary_round.
  pose proof (fexp_eq (Z.pos (digits2_pos m) + e)) as Hf.
  destruct (@shl_align_value m e (fexp prec emax (Z.pos (digits2_pos m) + e))
              ltac:(lia) ltac:(lia)) as [Hs Hv].
  destruct (shl_align m e (fexp prec emax (Z.pos (digits2_pos m) + e)))
    as [mz ez]. cbn [fst snd] in Hs, Hv. rewrite <- Hs in Hv.
  apply round_signed_between; try lia. now rewrite Hv.
Qed.

Lemma normalize_between (z e k l h : Z) :
  -1200 <= e <= 971 -> -1074 <= k <= 971 ->
  - 2 ^ 53 < l -> h < 2 ^ 53 ->
  l * 2 ^ (k + 1200) <= z * 2 ^ (e + 1200) <= h * 2 ^ (k + 1200) ->
  Between (l * 2 ^ (k + 1200)) (h * 2 ^ (k + 1200))
    (binary_normalize prec emax z e false).
Proof.
  intros He Hk Hl Hh Hm. destruct z as [|p|p]; cbn [binary_normalize].
  - split; [reflexivity|]. cbn [scaled]. lia.
  - apply round_between; assumption.
  - apply round_between; try assumption. cbn [cond_Zopp].
    now rewrite <- Z.mul_opp_l.
Qed.


Lemma valid_finite (s : bool) (m : positive) (e : Z) :
  valid_binary (S754_finite s m e) = true ->
  -1074 <= e <= 971 /\ Z.pos m < 2 ^ 53
  /\ (-1074 < e -> 2 ^ 52 <= Z.pos m).
Proof.
  unfold valid_binary, bounded, canonical_mantissa. intros H.
  apply andb_prop in H. destruct H as [H1 H2].
  apply Z.eqb_eq in H1. apply Z.leb_le in H2.
  change (emax - prec) with 971 in H2. rewrite fexp_eq in H1.
  destruct (digits_bounds m) as [Hlow Hup].
  set (d := Z.pos (digits2_pos m)) in *.
  assert (Hd : 1 <= d) by (unfold d; lia).
  split; [lia|]. split.
  - assert (2 ^ d <= 2 ^ 53) by (apply Z.pow_le_mono_r; lia). lia.
  - intros He. assert (d = 53) by lia.
    replace 52 with (d - 1) by lia. exact Hlow.
Qed.

Lemma cond_Zopp_mul (s : bool) (a b : Z) :
  cond_Zopp s a * b = cond_Zopp s (a * b).
Proof. destruct s; cbn [cond_Zopp]; ring. Qed.

Lemma Between_number (L H : Z) (x : spec_float) :
  isNumber x = true -> L <= scaled x <= H -> Between L H x.
Proof. intros Hx Hv. now split. Qed.

Lemma aligned_value (s : bool) (m : positive) (e ez : Z) :
  -1200 <= ez <= e ->
  cond_Zopp s (Z.pos (fst (shl_align m e ez))) * 2 ^ (ez + 1200)
  = scaled (S754_finite s m e).
Proof.
  intros He. cbn [scaled]. rewrite cond_Zopp_mul. f_equal.
  destruct (@shl_align_value m e ez ltac:(lia) ltac:(lia)) as [_ Hv].
  replace (Z.min e ez) with ez in Hv by lia. exact Hv.
Qed.

Lemma SFadd_between (x y : spec_float) (k l h : Z) :
  isNumber x = true -> isNumber y = true ->
  valid_binary x = true -> valid_binary y = true ->
  -1074 <= k <= 971 -> - 2 ^ 53 < l -> h < 2 ^ 53 ->
  l * 2 ^ (k + 1200) <= scaled x + scaled y <= h * 2 ^ (k + 1200) ->
  Between (l * 2 ^ (k + 1200)) (h * 2 ^ (k + 1200)) (SFadd prec emax x y).
Proof.
  intros Hx Hy Vx Vy Hk Hl Hh Hv.
  destruct x as [sx|sx| |sx mx ex]; try discriminate Hx;
    destruct y as [sy|sy| |sy my ey]; try discriminate Hy; cbn [SFadd].
  - apply Between_number; [now destruct sx, sy|].
    replace (scaled (if sx then if sy then S754_zero sx else S754_zero false
                     else if sy then S754_zero false else S754_zero sx))
      with 0 by now destruct sx, sy.
    exact Hv.
  - apply Between_number; [reflexivity | exact Hv].
  - apply Between_number; [reflexivity|]. cbn [scaled] in Hv |- *. lia.
  - destruct (valid_finite _ _ _ Vx) as (Hex & _ & _).
    destruct (valid_finite _ _ _ Vy) as (Hey & _ & _).
    apply normalize_between; try lia.
    rewrite Z.mul_add_distr_r, !aligned_value by lia. exact Hv.
Qed.

Lemma SFsub_between (x y : spec_float) (k l h : Z) :
  isNumber x = true -> isNumber y = true ->
  valid_binary x = true -> valid_binary y = true ->
  -1074 <= k <= 971 -> - 2 ^ 53 < l -> h < 2 ^ 53 ->
  l * 2 ^ (k + 1200) <= scaled x - scaled y <= h * 2 ^ (k + 1200) ->
  Between (l * 2 ^ (k + 1200)) (h * 2 ^ (k + 1200)) (SFsub prec emax x y).
Proof.
  intros Hx Hy Vx Vy Hk Hl Hh Hv.
  destruct x as [sx|sx| |sx mx ex]; try discriminate Hx;
    destruct y as [sy|sy| |sy my ey]; try discriminate Hy; cbn [SFsub].
  - apply Between_number; [now destruct sx, sy|].
    replace (scaled (if sx then if sy then S754_zero false else S754_zero sx
                     else if sy then S754_zero sx else S754_zero false))
      with 0 by now destruct sx, sy.
    exact Hv.
  - apply Between_number; [reflexivity|]. cbn [scaled] in Hv |- *.
    destruct sy; cbn [negb cond_Zopp] in *; lia.
  - apply Between_number; [reflexivity|]. cbn [scaled] in Hv |- *. lia.
  - destruct (valid_finite _ _ _ Vx) as (Hex & _ & _).
    destruct (valid_finite _ _ _ Vy) as (Hey & _ & _).
    apply normalize_between; try lia.
    rewrite Z.mul_sub_distr_r, !aligned_value by lia. exact Hv.
Qed.

(** A product with a positive constant [C = mc * 2^ec]. *)
Lemma SFmul_between (x : spec_float) (mc : positive) (ec C k l h : Z) :
  isNumber x = true -> valid_binary x = true ->
  -126 <= ec <= 0 -> Z.pos mc = C * 2 ^ (- ec) ->
  -1074 <= k <= 971 -> - 2 ^ 53 < l -> h < 2 ^ 53 ->
  l * 2 ^ (k + 1200) <= scaled x * C <= h * 2 ^ (k + 1200) ->
  Between (l * 2 ^ (k + 1200)) (h * 2 ^ (k + 1200))
    (SFmul prec emax x (S754_finite false mc ec)).
Proof.
  intros Hx Vx Hec Hmc Hk Hl Hh Hv.
  destruct x as [sx|sx| |sx mx ex]; try discriminate Hx; cbn [SFmul].
  - apply Between_number; [reflexivity | exact Hv].
  - destruct (valid_finite _ _ _ Vx) as (Hex & _ & _).
    rewrite xorb_false_r. apply round_signed_between; try lia.
    cbn [scaled] in Hv. rewrite cond_Zopp_mul in Hv.
    replace (Z.pos (mx * mc) * 2 ^ (ex + ec + 1200))
      with (Z.pos mx * 2 ^ (ex + 1200) * C); [exact Hv|].
    rewrite Pos2Z.inj_mul, Hmc.
    replace (2 ^ (ex + 1200)) with (2 ^ (- ec) * 2 ^ (ex + ec + 1200))
      by (rewrite <- Z.pow_add_r by lia; f_equal; lia).
    ring.
Qed.


(** Canonical numbers compare as their values do. *)
Lemma compare_positive (m1 m2 : positive) (e1 e2 : Z) :
  valid_binary (S754_finite false m1 e1) = true ->
  valid_binary (S754_finite false m2 e2) = true ->
  match e1 ?= e2 with
  | Lt => Lt
  | Gt => Gt
  | Eq => Pos.compare_cont Eq m1 m2
  end
  = (Z.pos m1 * 2 ^ (e1 + 1200) ?= Z.pos m2 * 2 ^ (e2 + 1200)).
Proof.
  intros V1 V2.
  destruct (valid_finite _ _ _ V1) as (He1 & Hm1 & Hn1).
  destruct (valid_finite _ _ _ V2) as (He2 & Hm2 & Hn2).
  assert (Hlt : forall (a b : positive) (ea eb : Z),
             -1074 <= ea -> ea < eb -> Z.pos a < 2 ^ 53 -> 2 ^ 52 <= Z.pos b ->
             Z.pos a * 2 ^ (ea + 1200) < Z.pos b * 2 ^ (eb + 1200)).
  { intros a b ea eb Hea Hlt Ha Hb.
    pose proof (@pow2_pos (ea + 1200) ltac:(lia)) as HP.
    assert (H1 : 2 ^ (ea + 1 + 1200) <= 2 ^ (eb + 1200))
      by (apply Z.pow_le_mono_r; lia).
    replace (ea + 1 + 1200) with (1 + (ea + 1200)) in H1 by lia.
    rewrite Z.pow_add_r in H1 by lia. change (2 ^ 1) with 2 in H1.
    change (2 ^ 53) with (2 ^ 52 * 2) in Ha.
    assert (H2 : 2 ^ 52 * 2 ^ (eb + 1200) <= Z.pos b * 2 ^ (eb + 1200))
      by (apply Z.mul_le_mono_nonneg_r; lia).
    assert (H3 : Z.pos a * 2 ^ (ea + 1200) < 2 ^ 52 * 2 * 2 ^ (ea + 1200))
      by (apply Z.mul_lt_mono_pos_r; lia).
    assert (H4 : 2 ^ 52 * (2 * 2 ^ (ea + 1200)) <= 2 ^ 52 * 2 ^ (eb + 1200))
      by (apply Z.mul_le_mono_nonneg_l; lia).
    lia. }
  destruct (Z.compare_spec e1 e2) as [->|H|H].
  - rewrite Pos.compare_cont_spec. cbn [Pos.switch_Eq].
    pose proof (@pow2_pos (e2 + 1200) ltac:(lia)) as HP.
    change (Pos.compare m1 m2) with (Z.pos m1 ?= Z.pos m2).
    destruct (Z.compare_spec (Z.pos m1) (Z.pos m2)) as [E|L|G]; symmetry.
    + apply Z.compare_eq_iff. now rewrite E.
    + apply Z.compare_lt_iff. now apply Z.mul_lt_mono_pos_r.
    + apply Z.compare_gt_iff. now apply Z.mul_lt_mono_pos_r.
  - symmetry. apply Z.compare_lt_iff. apply Hlt; lia.
  - symmetry. apply Z.compare_gt_iff. apply Hlt; lia.
Qed.

Lemma scaled_finite_sign (s : bool) (m : positive) (e : Z) :
  -1200 <= e ->
  if s then scaled (S754_finite s m e) < 0 else 0 < scaled (S754_finite s m e).
Proof.
  intros He. pose proof (@pow2_pos (e + 1200) ltac:(lia)) as HP.
  destruct s; cbn [scaled cond_Zopp]; nia.
Qed.

Lemma SFcompare_scaled (x y : spec_float) :
  isNumber x = true -> isNumber y = true ->
  valid_binary x = true -> valid_binary y = true ->
  SFcompare x y = Some (scaled x ?= scaled y).
Proof.
  intros Hx Hy Vx Vy.
  destruct x as [sx|sx| |sx mx ex]; try discriminate Hx;
    destruct y as [sy|sy| |sy my ey]; try discriminate Hy; cbn [SFcompare].
  - reflexivity.
  - destruct (valid_finite _ _ _ Vy) as (Hey & _ & _).
    pose proof (@scaled_finite_sign sy my ey ltac:(lia)) as Hs.
    f_equal. symmetry. cbn [scaled] in *.
    destruct sy; [apply Z.compare_gt_iff | apply Z.compare_lt_iff]; exact Hs.
  - destruct (valid_finite _ _ _ Vx) as (Hex & _ & _).
    pose proof (@scaled_finite_sign sx mx ex ltac:(lia)) as Hs.
    f_equal. symmetry. cbn [scaled] in *.
    destruct sx; [apply Z.compare_lt_iff | apply Z.compare_gt_iff]; lia.
  - destruct (valid_finite _ _ _ Vx) as (Hex & _ & _).
    destruct (valid_finite _ _ _ Vy) as (Hey & _ & _).
    pose proof (@scaled_finite_sign sx mx ex ltac:(lia)) as Hsx.
    pose proof (@scaled_finite_sign sy my ey ltac:(lia)) as Hsy.
    f_equal. destruct sx, sy.
    + change (valid_binary (S754_finite true mx ex))
        with (valid_binary (S754_finite false mx ex)) in Vx.
      change (valid_binary (S754_finite true my ey))
        with (valid_binary (S754_finite false my ey)) in Vy.
      pose proof (compare_positive _ _ _ _ Vx Vy) as Hc.
      cbn [scaled cond_Zopp]. rewrite Z.compare_opp.
      rewrite (Z.compare_antisym (Z.pos mx * 2 ^ (ex + 1200))
                 (Z.pos my * 2 ^ (ey + 1200))), <- Hc.
      destruct (ex ?= ey); reflexivity.
    + symmetry. apply Z.compare_lt_iff. lia.
    + symmetry. apply Z.compare_gt_iff. lia.
    + cbn [scaled cond_Zopp]. now apply compare_positive.
Qed.

End BinaryRounding.

(** ** Intervals of binary64 numbers *)

Section FloatIntervals.

Local Open Scope Z_scope.

Lemma shifted_scaled (x : spec_float) :
  valid_binary x = true -> shifted x = scaled x.
Proof.
  destruct x as [s|s| |s m e]; try reflexivity. intros V.
  destruct (valid_finite _ _ _ V) as (He & _ & _).
  cbn [shifted scaled]. now rewrite Z.shiftl_mul_pow2 by lia.
Qed.

Lemma within_Between (lo hi : Z) (x : float) :
  within lo hi x <-> Between (lo * 2 ^ 1199) (hi * 2 ^ 1199) (Prim2SF x).
Proof.
  unfold within, withinb, Between. cbv zeta.
  rewrite (shifted_scaled _ (Prim2SF_valid x)), !Z.shiftl_mul_pow2 by lia.
  rewrite !andb_true_iff, !Z.leb_le. tauto.
Qed.

Lemma halves_grid (a : Z) : a * 2 ^ 1199 = a * 2 ^ 42 * 2 ^ (-43 + 1200).
Proof.
  change (-43 + 1200) with 1157.
  rewrite <- Z.mul_assoc, <- Z.pow_add_r by lia. reflexivity.
Qed.

Lemma halves_bounds (a : Z) :
  -2048 < a < 2048 -> - 2 ^ 53 < a * 2 ^ 42 /\ a * 2 ^ 42 < 2 ^ 53.
Proof.
  intros Ha. change (2 ^ 53) with (2048 * 2 ^ 42).
  pose proof (@pow2_pos 42 ltac:(lia)). nia.
Qed.

Lemma within_add (a b c d : Z) (x y : float) :
  within a b x -> within c d y -> -2048 < a + c -> b + d < 2048 ->
  within (a + c) (b + d) (x + y)%float.
Proof.
  intros Hx Hy Hl Hh.
  apply within_Between in Hx. apply within_Between in Hy.
  destruct Hx as [Nx Bx], Hy as [Ny By].
  assert (Hab : a + c <= b + d).
  { pose proof (@pow2_pos 1199 ltac:(lia)). nia. }
  apply within_Between. rewrite add_spec, !halves_grid.
  apply SFadd_between; try assumption; try apply Prim2SF_valid; try lia;
    try (apply halves_bounds; lia).
  all: rewrite <- !halves_grid; lia.
Qed.

Lemma within_sub (a b c d : Z) (x y : float) :
  within a b x -> within c d y -> -2048 < a - d -> b - c < 2048 ->
  within (a - d) (b - c) (x - y)%float.
Proof.
  intros Hx Hy Hl Hh.
  apply within_Between in Hx. apply within_Between in Hy.
  destruct Hx as [Nx Bx], Hy as [Ny By].
  assert (Hab : a - d <= b - c).
  { pose proof (@pow2_pos 1199 ltac:(lia)). nia. }
  apply within_Between. rewrite sub_spec, !halves_grid.
  apply SFsub_between; try assumption; try apply Prim2SF_valid; try lia;
    try (apply halves_bounds; lia).
  all: rewrite <- !halves_grid; lia.
Qed.

Lemma within_mul (a b C : Z) (mc : positive) (ec : Z) (x c : float) :
  within a b x ->
  Prim2SF c = S754_finite false mc ec -> -126 <= ec <= 0 ->
  Z.pos mc = C * 2 ^ (- ec) -> 0 <= C ->
  -2048 < a * C -> b * C < 2048 ->
  within (a * C) (b * C) (x * c)%float.
Proof.
  intros Hx Hc Hec Hmc HC Hl Hh.
  apply within_Between in Hx. destruct Hx as [Nx Bx].
  assert (Hab : a * C <= b * C).
  { pose proof (@pow2_pos 1199 ltac:(lia)). nia. }
  apply within_Between. rewrite mul_spec, Hc, !halves_grid.
  apply SFmul_between with (C := C); try assumption; try apply Prim2SF_valid;
    try lia; try (apply halves_bounds; lia).
  all: rewrite <- !halves_grid; nia.
Qed.

Lemma within_weaken (a b a' b' : Z) (x : float) :
  within a b x -> a' <= a -> b <= b' -> within a' b' x.
Proof.
  intros Hx Ha Hb. apply within_Between in Hx. destruct Hx as [Nx Bx].
  apply within_Between. split; [exact Nx|].
  pose proof (@pow2_pos 1199 ltac:(lia)). nia.
Qed.


(** *** Comparisons *)

Lemma leb_scaled (x y : float) :
  isNumber (Prim2SF x) = true -> isNumber (Prim2SF y) = true ->
  (x <=? y)%float = (scaled (Prim2SF x) <=? scaled (Prim2SF y)).
Proof.
  intros Hx Hy. rewrite leb_spec. unfold SFleb.
  rewrite (SFcompare_scaled _ _ Hx Hy (Prim2SF_valid x) (Prim2SF_valid y)).
  unfold Z.leb. now destruct (scaled (Prim2SF x) ?= scaled (Prim2SF y)).
Qed.

Lemma ltb_scaled (x y : float) :
  isNumber (Prim2SF x) = true -> isNumber (Prim2SF y) = true ->
  (x <? y)%float = (scaled (Prim2SF x) <? scaled (Prim2SF y)).
Proof.
  intros Hx Hy. rewrite ltb_spec. unfold SFltb.
  rewrite (SFcompare_scaled _ _ Hx Hy (Prim2SF_valid x) (Prim2SF_valid y)).
  unfold Z.ltb. now destruct (scaled (Prim2SF x) ?= scaled (Prim2SF y)).
Qed.

(** A value between two numbers is a number. *)
Lemma between_number (lo hi x : spec_float) :
  isNumber lo = true -> isNumber hi = true ->
  SFleb lo x = true -> (SFleb x hi = true \/ SFltb x hi = true) ->
  isNumber x = true.
Proof.
  intros Hlo Hhi H1 H2.
  destruct x as [s|[]| |s m e]; try reflexivity; exfalso;
    destruct lo as [sl|sl| |sl ml el]; try discriminate Hlo;
    destruct hi as [sh|sh| |sh mh eh]; try discriminate Hhi;
    cbn in H1, H2; try discriminate H1;
    destruct H2 as [H2|H2]; discriminate H2.
Qed.

Lemma within_exact (a : Z) (x : float) :
  within a a x ->
  isNumber (Prim2SF x) = true /\ scaled (Prim2SF x) = a * 2 ^ 1199.
Proof.
  intros H. apply within_Between in H. destruct H as [Hn Hv].
  split; [exact Hn | lia].
Qed.

Lemma leb_within (a b : Z) (lo hi x : float) :
  within a a lo -> within b b hi ->
  (lo <=? x)%float = true -> (x <=? hi)%float = true ->
  within a b x.
Proof.
  intros Hlo Hhi H1 H2.
  destruct (within_exact Hlo) as [Nlo Vlo]. destruct (within_exact Hhi) as [Nhi Vhi].
  assert (Nx : isNumber (Prim2SF x) = true).
  { apply (@between_number (Prim2SF lo) (Prim2SF hi)); try assumption.
    - now rewrite <- leb_spec.
    - left. now rewrite <- leb_spec. }
  rewrite leb_scaled in H1, H2 by assumption.
  apply Z.leb_le in H1. apply Z.leb_le in H2.
  apply within_Between. split; [exact Nx | lia].
Qed.

Lemma leb_ltb_within (a b : Z) (lo hi x : float) :
  within a a lo -> within b b hi ->
  (lo <=? x)%float = true -> (x <? hi)%float = true ->
  within a b x.
Proof.
  intros Hlo Hhi H1 H2.
  destruct (within_exact Hlo) as [Nlo Vlo]. destruct (within_exact Hhi) as [Nhi Vhi].
  assert (Nx : isNumber (Prim2SF x) = true).
  { apply (@between_number (Prim2SF lo) (Prim2SF hi)); try assumption.
    - now rewrite <- leb_spec.
    - right. now rewrite <- ltb_spec. }
  rewrite leb_scaled in H1 by assumption. rewrite ltb_scaled in H2 by assumption.
  apply Z.leb_le in H1. apply Z.ltb_lt in H2.
  apply within_Between. split; [exact Nx | lia].
Qed.

Lemma within_leb (a b c d : Z) (x y : float) :
  within a b x -> within c d y -> b <= c -> (x <=? y)%float = true.
Proof.
  intros Hx Hy Hbc.
  apply within_Between in Hx. apply within_Between in Hy.
  destruct Hx as [Nx Bx], Hy as [Ny By].
  rewrite leb_scaled by assumption. apply Z.leb_le.
  pose proof (@pow2_pos 1199 ltac:(lia)). nia.
Qed.

(** *** Results that are not negative *)

Lemma zero_leb (x : float) :
  notNegative (Prim2SF x) -> (0 <=? x)%float = true.
Proof.
  intros H. rewrite leb_spec.
  change (Prim2SF 0) with (S754_zero false).
  destruct (Prim2SF x) as [s|s| |s m e]; cbn in H |- *;
    try contradiction; try reflexivity; now subst s.
Qed.

Lemma signed_notNegative (x : spec_float) : signed false x -> notNegative x.
Proof. destruct x; cbn; auto. Qed.

Lemma round_signed (s : bool) (m : positive) (e : Z) :
  signed s (binary_round prec emax s m e).
Proof.
  unfold binary_round.
  destruct (shl_align m e (fexp prec emax (Z.pos (digits2_pos m) + e))) as [mz ez].
  apply round_aux_signed. lia.
Qed.

Lemma normalize_signed (z e : Z) :
  0 <= z -> signed false (binary_normalize prec emax z e false).
Proof.
  intros Hz. destruct z as [|p|p]; cbn [binary_normalize];
    [reflexivity | apply round_signed | lia].
Qed.

Lemma SFldexp_signed (s : bool) (x : spec_float) (e : Z) :
  signed s x -> signed s (SFldexp prec emax x e).
Proof.
  destruct x as [s'|s'| |s' m' e']; cbn [SFldexp signed]; try tauto.
  intros ->. apply round_signed.
Qed.

(** The double of a number that is not negative is not negative. *)
Lemma SF2Prim_signed (x : spec_float) :
  signed false x -> signed false (Prim2SF (SF2Prim x)).
Proof.
  destruct x as [s|s| |s m e]; cbn [signed]; try contradiction; intros ->.
  - reflexivity.
  - reflexivity.
  - cbn [SF2Prim]. rewrite Z_ldexp_spec, of_uint63_spec.
    apply SFldexp_signed, normalize_signed.
    apply Uint63.to_Z_bounded.
Qed.

Lemma ofZ_nonneg (n : Z) : 0 <= n -> (0 <=? Float64.ofZ n)%float = true.
Proof.
  intros Hn. apply zero_leb, signed_notNegative, SF2Prim_signed.
  now apply normalize_signed.
Qed.


(** *** [Math.round], [toFixed] and [parseFloat] on numbers that are not
    negative *)

Lemma within_sign (a b : Z) (x : float) (s : bool) (m : positive) (e : Z) :
  within a b x -> 0 <= a -> Prim2SF x = S754_finite s m e ->
  s = false /\ -1074 <= e <= 971
  /\ Z.pos m * 2 ^ (e + 1200) <= b * 2 ^ 1199.
Proof.
  intros Hx Ha E. apply within_Between in Hx. destruct Hx as [_ Bx].
  pose proof (Prim2SF_valid x) as Vx. rewrite E in Vx, Bx.
  destruct (valid_finite _ _ _ Vx) as (He & _ & _).
  pose proof (@scaled_finite_sign s m e ltac:(lia)) as Hs.
  pose proof (@pow2_pos 1199 ltac:(lia)) as HP.
  destruct s; [exfalso; nia|].
  cbn [scaled cond_Zopp] in Bx. repeat split; lia.
Qed.

Lemma round_nonneg (a b : Z) (x : float) :
  within a b x -> 0 <= a -> (0 <=? Float64.round x)%float = true.
Proof.
  intros Hx Ha. unfold Float64.round.
  destruct (Prim2SF x) as [s|s| |s m e] eqn:E.
  - apply zero_leb. now rewrite E.
  - apply within_Between in Hx. rewrite E in Hx. destruct Hx as [Hx _].
    discriminate Hx.
  - apply within_Between in Hx. rewrite E in Hx. destruct Hx as [Hx _].
    discriminate Hx.
  - destruct (within_sign Hx Ha E) as (-> & He & _).
    destruct (Z.leb_spec 0 e) as [H0|H0]; [apply zero_leb; now rewrite E|].
    cbn [cond_Zopp].
    set (n := (2 * Z.pos m + 2 ^ (- e)) / (2 * 2 ^ (- e))).
    assert (Hn : 0 <= n).
    { pose proof (@pow2_pos (- e) ltac:(lia)). apply Z.div_pos; lia. }
    destruct (n =? 0); [reflexivity | now apply ofZ_nonneg].
Qed.

Lemma scaledNearest_nonneg (m : positive) (e : Z) (f : nat) :
  0 <= Float64.scaledNearest m e f.
Proof.
  unfold Float64.scaledNearest. cbv zeta.
  assert (Hp : 0 <= Z.pos m * 10 ^ Z.of_nat f)
    by (apply Z.mul_nonneg_nonneg; [lia | apply Z.pow_nonneg; lia]).
  destruct (Z.leb_spec 0 e) as [H0|H0].
  - apply Z.mul_nonneg_nonneg; [exact Hp | apply Z.pow_nonneg; lia].
  - pose proof (@pow2_pos (- e) ltac:(lia)). apply Z.div_pos; lia.
Qed.

Lemma SFdiv_signed (m1 m2 : positive) (e1 e2 : Z) :
  signed false
    (SFdiv prec emax (S754_finite false m1 e1) (S754_finite false m2 e2)).
Proof.
  cbn [SFdiv xorb]. unfold SFdiv_core_binary. cbv zeta.
  set (shift := e1 - e2 - Z.min _ _).
  set (m' := match shift with
             | 0 => Z.pos m1
             | Z.pos _ => Z.shiftl (Z.pos m1) shift
             | Z.neg _ => 0
             end).
  assert (Hm' : 0 <= m').
  { unfold m'. destruct shift; [lia | | lia]. apply Z.shiftl_nonneg. lia. }
  pose proof (Z_div_mod m' (Z.pos m2) ltac:(lia)) as Hd.
  destruct (Z.div_eucl m' (Z.pos m2)) as [q r].
  apply round_aux_signed. destruct Hd as [Hq Hr]. nia.
Qed.

Lemma ofDecimal_nonneg (n k : Z) :
  0 <= n -> (0 <=? Float64.ofDecimal false n k)%float = true.
Proof.
  intros Hn. apply zero_leb, signed_notNegative. unfold Float64.ofDecimal.
  apply SF2Prim_signed. destruct (0 <=? k).
  - cbn [cond_Zopp]. apply normalize_signed.
    apply Z.mul_nonneg_nonneg; [exact Hn | apply Z.pow_nonneg; lia].
  - destruct n as [|p|p]; [reflexivity | apply SFdiv_signed | reflexivity].
Qed.

Lemma parseFloat_toFixed_nonneg (a b : Z) (x : float) (f : nat) :
  within a b x -> 0 <= a -> b < 2048 ->
  (0 <=? Float64.parseFloat (Float64.toFixed x f))%float = true.
Proof.
  intros Hx Ha Hb. unfold Float64.toFixed.
  destruct (Prim2SF x) as [s|s| |s m e] eqn:E.
  - unfold Float64.parseFloat. rewrite parseLiteral_formatFixed by lia.
    now apply ofDecimal_nonneg.
  - apply within_Between in Hx. rewrite E in Hx. destruct Hx as [Hx _].
    discriminate Hx.
  - apply within_Between in Hx. rewrite E in Hx. destruct Hx as [Hx _].
    discriminate Hx.
  - destruct (within_sign Hx Ha E) as (-> & He & Hv).
    assert (Hsmall : ((0 <=? e) && (10 ^ 21 <=? Z.pos m * 2 ^ e)) = false).
    { destruct (Z.leb_spec 0 e) as [H0|H0]; [|reflexivity]. cbn [andb].
      apply Z.leb_gt.
      rewrite Z.pow_add_r in Hv by lia.
      change (2 ^ 1200) with (2 * 2 ^ 1199) in Hv.
      pose proof (@pow2_pos 1199 ltac:(lia)) as HP.
      assert (Z.pos m * 2 ^ e * 2 <= b) by nia.
      change (10 ^ 21) with 1000000000000000000000. lia. }
    rewrite Hsmall. unfold Float64.parseFloat.
    rewrite parseLiteral_formatFixed by apply scaledNearest_nonneg.
    apply ofDecimal_nonneg, scaledNearest_nonneg.
Qed.

End FloatIntervals.

(** ** The demo data in binary64 arithmetic *)

Section FloatDemoData.

Local Open Scope Z_scope.

(** [Math.sin] is any function whose values on the finite numbers lie
    between -1 and 1, and the environment is any. *)
Variable sine : float -> float.
Hypothesis sine_bounded : sineBounded sine.
Variable world : @World float.

Local Abbreviation lib := (Float64.mathLib sine).

Lemma in_indices (n : nat) (i : Z) :
  0 <= i < Z.of_nat n -> In i (JS.indices n).
Proof.
  intros Hi. unfold JS.indices. apply in_map_iff.
  exists (Z.to_nat i). split; [lia|]. apply in_seq. lia.
Qed.

(** What depends on the offset only, for each of the 91 offsets: the
    arguments of the sine are finite, and the trend [450 + (90 - i) * 0.5]
    lies between 450 and 495. *)
Lemma offsets_checked :
  forallb (fun i : Z =>
             is_finite (Float64.ofZ i / 15) && is_finite (Float64.ofZ i / 10)
             && withinb 900 990 (450 + (90 - Float64.ofZ i) * 0.5))%float
          (JS.indices 91) = true.
Proof. vm_compute. reflexivity. Qed.

Lemma offset_checked (i : Z) :
  0 <= i <= 90 ->
  is_finite (Float64.ofZ i / 15) = true
  /\ is_finite (Float64.ofZ i / 10) = true
  /\ within 900 990 (450 + (90 - Float64.ofZ i) * 0.5)%float.
Proof.
  intros Hi. pose proof offsets_checked as H.
  rewrite forallb_forall in H. specialize (H i (@in_indices 91 i ltac:(lia))).
  apply andb_prop in H. destruct H as [H H3].
  apply andb_prop in H. destruct H as [H1 H2]. now repeat split.
Qed.

(** The two random terms and the two sums, lines 196 and 197. *)
Lemma sine_within (x : float) : is_finite x = true -> within (-2) 2 (sine x).
Proof.
  intros Hx. destruct (sine_bounded x Hx) as [H1 H2].
  apply (@leb_within (-2) 2 (-1)%float 1%float); try assumption;
    vm_compute; reflexivity.
Qed.

Lemma unit_within (r : float) : inUnit r -> within 0 2 r.
Proof.
  intros [H1 H2].
  apply (@leb_ltb_within 0 2 0%float 1%float); try assumption;
    vm_compute; reflexivity.
Qed.

Lemma jitter_within (r c : float) (C : Z) (mc : positive) (ec : Z) :
  inUnit r ->
  Prim2SF c = S754_finite false mc ec -> -126 <= ec <= 0 ->
  Z.pos mc = C * 2 ^ (- ec) -> 0 <= C < 1024 ->
  within (- C) C ((r - 0.5) * c)%float.
Proof.
  intros Hr Hc Hec Hmc HC.
  assert (H1 : within (-1) 1 (r - 0.5)%float).
  { apply (@within_sub 0 2 1 1 r 0.5%float); try lia;
      [now apply unit_within | vm_compute; reflexivity]. }
  replace (- C) with (-1 * C) by lia. replace C with (1 * C) at 2 by lia.
  apply (@within_mul (-1) 1 C mc ec); try assumption; lia.
Qed.

Lemma baseListings_within (i : Z) (r1 : float) :
  0 <= i <= 90 -> inUnit r1 ->
  within 77 103 (45 + sine (Float64.ofZ i / 15) * 5 + (r1 - 0.5) * 3)%float.
Proof.
  intros Hi Hr. destruct (offset_checked Hi) as (H15 & _ & _).
  assert (Hs : within (-10) 10 (sine (Float64.ofZ i / 15) * 5)%float).
  { apply (@within_mul (-2) 2 5 5629499534213120 (-50)); try lia;
      try reflexivity. now apply sine_within. }
  assert (Hj : within (-3) 3 ((r1 - 0.5) * 3)%float).
  { apply (@jitter_within r1 3%float 3 6755399441055744 (-51)); try lia;
      try reflexivity. exact Hr. }
  assert (H45 : within 90 90 45%float) by (vm_compute; reflexivity).
  apply (@within_add 80 100 (-3) 3); try lia; [|exact Hj].
  apply (@within_add 90 90 (-10) 10); try lia; assumption.
Qed.

Lemma basePrice_within (i : Z) (r2 : float) :
  0 <= i <= 90 -> inUnit r2 ->
  within 875 1015
    (450 + (90 - Float64.ofZ i) * 0.5 + sine (Float64.ofZ i / 10) * 10
     + (r2 - 0.5) * 5)%float.
Proof.
  intros Hi Hr. destruct (offset_checked Hi) as (_ & H10 & Ht).
  assert (Hs : within (-20) 20 (sine (Float64.ofZ i / 10) * 10)%float).
  { apply (@within_mul (-2) 2 10 5629499534213120 (-49)); try lia;
      try reflexivity. now apply sine_within. }
  assert (Hj : within (-5) 5 ((r2 - 0.5) * 5)%float).
  { apply (@jitter_within r2 5%float 5 5629499534213120 (-50)); try lia;
      try reflexivity. exact Hr. }
  apply (@within_add 880 1010 (-5) 5); try lia; [|exact Hj].
  apply (@within_add 900 990 (-20) 20); try lia; assumption.
Qed.

(** The two fields, with the operations of binary64. *)
Lemma demoPoint_fields (now i : Z) (r1 r2 : float) :
  active_listings (demoPoint (mathLib := lib) world now i r1 r2)
  = Float64.round (45 + sine (Float64.ofZ i / 15) * 5 + (r1 - 0.5) * 3)%float
  /\ avg_price_per_sqft (demoPoint (mathLib := lib) world now i r1 r2)
     = Float64.parseFloat
         (Float64.toFixed
            (450 + (90 - Float64.ofZ i) * 0.5 + sine (Float64.ofZ i / 10) * 10
             + (r2 - 0.5) * 5)%float 2).
Proof. split; reflexivity. Qed.

Lemma demoPoint_nonnegative (now i : Z) (r1 r2 : float) :
  0 <= i <= 90 -> inUnit r1 -> inUnit r2 ->
  nonnegative (demoPoint (mathLib := lib) world now i r1 r2).
Proof.
  intros Hi H1 H2. destruct (demoPoint_fields now i r1 r2) as [El Ep].
  unfold nonnegative. rewrite El, Ep. split.
  - apply (@round_nonneg 77 103); [now apply baseListings_within | lia].
  - apply (@parseFloat_toFixed_nonneg 875 1015);
      [now apply basePrice_within | lia | lia].
Qed.

(** *** The range of the two values *)

(** A number between 0 and 1024 has a negative exponent, and its mantissa
    is bounded as its value is. *)

Lemma small_exponent (a b : Z) (x : float) (s : bool) (m : positive) (e : Z) :
  within a b x -> 0 <= a -> b < 2048 -> Prim2SF x = S754_finite s m e ->
  s = false /\ -1074 <= e < 0
  /\ a * 2 ^ (- e) <= 2 * Z.pos m <= b * 2 ^ (- e).
Proof.
  intros Hx Ha Hb E. destruct (within_sign Hx Ha E) as (-> & He & _).
  apply within_Between in Hx. destruct Hx as [_ Bx].
  pose proof (Prim2SF_valid x) as Vx. rewrite E in Vx, Bx.
  destruct (valid_finite _ _ _ Vx) as (_ & _ & Hnormal).
  cbn [scaled cond_Zopp] in Bx.
  pose proof (@pow2_pos 1199 ltac:(lia)) as HR.
  assert (He0 : e < 0).
  { destruct (Z_lt_ge_dec e 0) as [H|H]; [exact H|]. exfalso.
    assert (H1 : 2 ^ 1200 <= 2 ^ (e + 1200)) by (apply Z.pow_le_mono_r; lia).
    change (2 ^ 1200) with (2 * 2 ^ 1199) in H1.
    assert (H2 : 2 ^ 52 <= Z.pos m) by (apply Hnormal; lia).
    change (2 ^ 52) with 4503599627370496 in H2. nia. }
  split; [reflexivity|]. split; [lia|].
  pose proof (@pow2_pos (- e) ltac:(lia)) as HP.
  pose proof (@pow2_pos (e + 1200) ltac:(lia)) as HQ.
  assert (HPQ : 2 ^ (- e) * 2 ^ (e + 1200) = 2 * 2 ^ 1199).
  { rewrite <- Z.pow_add_r by lia. replace (- e + (e + 1200)) with 1200 by lia.
    reflexivity. }
  split; apply (Z.mul_le_mono_pos_r _ _ (2 ^ (e + 1200)) HQ); nia.
Qed.

(** The integers from 39 to 52 are doubles, and the hundredths from 437.50
    to 507.50 convert to doubles between 437.5 and 507.5. *)
Lemma listings_checked :
  forallb (fun n : Z => withinb (2 * n) (2 * n) (Float64.ofZ n))
          (map (fun j : Z => 39 + j) (JS.indices 14)) = true.
Proof. vm_compute. reflexivity. Qed.

Lemma prices_checked :
  forallb (fun n : Z => withinb 875 1015 (Float64.ofDecimal false n (-2)))
          (map (fun j : Z => 43750 + j) (JS.indices (Z.to_nat 7001))) = true.
Proof. vm_compute. reflexivity. Qed.

Lemma in_range (lo : Z) (k : nat) (n : Z) :
  lo <= n < lo + Z.of_nat k -> In n (map (fun j : Z => lo + j) (JS.indices k)).
Proof.
  intros Hn. apply in_map_iff. exists (n - lo). split; [lia|].
  apply in_indices. lia.
Qed.

Lemma round_listings (x : float) :
  within 77 103 x -> within 78 104 (Float64.round x).
Proof.
  intros Hx. unfold Float64.round.
  destruct (Prim2SF x) as [s|s| |s m e] eqn:E;
    try (apply within_Between in Hx; rewrite E in Hx;
         destruct Hx as [Hn Hv]; cbn in Hn, Hv; (discriminate Hn || lia)).
  destruct (small_exponent Hx ltac:(lia) ltac:(lia) E) as (-> & He & Hm).
  destruct (Z.leb_spec 0 e) as [H0|_]; [lia|]. cbn [cond_Zopp].
  pose proof (@pow2_pos (- e) ltac:(lia)) as HP.
  set (n := (2 * Z.pos m + 2 ^ (- e)) / (2 * 2 ^ (- e))).
  assert (Hn : 39 <= n <= 52).
  { split.
    - apply Z.div_le_lower_bound; lia.
    - apply Z.div_le_upper_bound; lia. }
  destruct (Z.eqb_spec n 0) as [H0|_]; [lia|].
  pose proof listings_checked as H. rewrite forallb_forall in H.
  specialize (H n (@in_range 39 14 n ltac:(lia))).
  apply (@within_weaken (2 * n) (2 * n)); [exact H | lia | lia].
Qed.

Lemma scaledNearest_price (x : float) (s : bool) (m : positive) (e : Z) :
  within 875 1015 x -> Prim2SF x = S754_finite s m e ->
  43750 <= Float64.scaledNearest m e 2 <= 50750.
Proof.
  intros Hx E.
  destruct (small_exponent Hx ltac:(lia) ltac:(lia) E) as (-> & He & Hm).
  unfold Float64.scaledNearest. cbv zeta.
  destruct (Z.leb_spec 0 e) as [H0|_]; [lia|].
  pose proof (@pow2_pos (- e) ltac:(lia)) as HP.
  change (10 ^ Z.of_nat 2) with 100.
  split.
  - apply Z.div_le_lower_bound; lia.
  - apply Z.lt_succ_r. apply Z.div_lt_upper_bound; lia.
Qed.

Lemma parseFloat_toFixed_price (x : float) :
  within 875 1015 x ->
  within 875 1015 (Float64.parseFloat (Float64.toFixed x 2)).
Proof.
  intros Hx. unfold Float64.toFixed.
  destruct (Prim2SF x) as [s|s| |s m e] eqn:E;
    try (apply within_Between in Hx; rewrite E in Hx;
         destruct Hx as [Hn Hv]; cbn in Hn, Hv; (discriminate Hn || lia)).
  pose proof (scaledNearest_price Hx E) as Hn.
  destruct (small_exponent Hx ltac:(lia) ltac:(lia) E) as (-> & He & _).
  destruct (Z.leb_spec 0 e) as [H0|_]; [lia|]. cbn [andb].
  unfold Float64.parseFloat. rewrite parseLiteral_formatFixed by lia.
  pose proof prices_checked as H. rewrite forallb_forall in H.
  exact (H _ (@in_range 43750 (Z.to_nat 7001) (Float64.scaledNearest m e 2)
                ltac:(lia))).
Qed.

(** X18.  In binary64 arithmetic, with any [Math.sin] whose values on the
    finite numbers lie between -1 and 1: for every offset [i] from 0 to 90
    and every two values of [Math.random], which lie in [0, 1), the record
    [useDemoData] pushes has [active_listings] between 39 and 52 and
    [avg_price_per_sqft] between 437.5 and 507.5; and so has every point a
    run of [useDemoData] leaves in the cache. *)
Theorem demoData_range :
  (forall (now i : Z) (r1 r2 : float),
     0 <= i <= 90 -> inUnit r1 -> inUnit r2 ->
     inRange (demoPoint (mathLib := lib) world now i r1 r2))
  /\ ((forall k : nat, inUnit (random world k)) ->
      forall (st : @State float) (points : list (@DataPoint float)),
        cachedData (exec (useDemoData (mathLib := lib) world) st)
        = JArray points ->
        forall p : @DataPoint float, In p points -> inRange p).
Proof.
  assert (Hpoint : forall (now i : Z) (r1 r2 : float),
             0 <= i <= 90 -> inUnit r1 -> inUnit r2 ->
             inRange (demoPoint (mathLib := lib) world now i r1 r2)).
  { intros now i r1 r2 Hi H1 H2.
    destruct (demoPoint_fields now i r1 r2) as [El Ep].
    pose proof (round_listings (baseListings_within Hi H1)) as Hl.
    pose proof (parseFloat_toFixed_price (basePrice_within Hi H2)) as Hp.
    unfold inRange. rewrite El, Ep. repeat split.
    - apply (@within_leb 78 78 78 104);
        [vm_compute; reflexivity | exact Hl | lia].
    - apply (@within_leb 78 104 104 104);
        [exact Hl | vm_compute; reflexivity | lia].
    - apply (@within_leb 875 875 875 1015);
        [vm_compute; reflexivity | exact Hp | lia].
    - apply (@within_leb 875 1015 1015 1015);
        [exact Hp | vm_compute; reflexivity | lia]. }
  split; [exact Hpoint|].
  intros Hrandom st points Hpoints p Hp.
  rewrite (useDemoData_cachedData (mathLib := lib)) in Hpoints.
  injection Hpoints as <-.
  unfold demoData in Hp. apply in_map_iff in Hp.
  destruct Hp as (j & <- & Hj). apply in_seq in Hj.
  apply Hpoint; [lia | apply Hrandom ..].
Qed.

(** C8.  In binary64 arithmetic, with any [Math.sin] whose values on the
    finite numbers lie between -1 and 1: for every offset [i] from 0 to 90
    and every two values of [Math.random], which lie in [0, 1), the record
    [useDemoData] pushes has [active_listings >= 0] and
    [avg_price_per_sqft >= 0]; and so has every point a run of
    [useDemoData] leaves in the cache.  The code has no clamp: the sums of
    lines 196 and 197 are at least 38.5 and 437.5, roundings included, and
    [Math.round], [toFixed] and [parseFloat] keep them from being
    negative. *)
Theorem demoData_nonnegative :
  (forall (now i : Z) (r1 r2 : float),
     0 <= i <= 90 -> inUnit r1 -> inUnit r2 ->
     nonnegative (demoPoint (mathLib := lib) world now i r1 r2))
  /\ ((forall k : nat, inUnit (random world k)) ->
      forall (st : @State float) (points : list (@DataPoint float)),
        cachedData (exec (useDemoData (mathLib := lib) world) st)
        = JArray points ->
        forall p : @DataPoint float, In p points -> nonnegative p).
Proof.
  split; [exact demoPoint_nonnegative|].
  intros Hrandom st points Hpoints p Hp.
  rewrite (useDemoData_cachedData (mathLib := lib)) in Hpoints.
  injection Hpoints as <-.
  unfold demoData in Hp. apply in_map_iff in Hp.
  destruct Hp as (j & <- & Hj). apply in_seq in Hj.
  apply demoPoint_nonnegative; [lia | apply Hrandom ..].
Qed.

End FloatDemoData.

(** ** Sample runs *)

Import Sample.

(** The moving average of period 3 over ten prices. *)
Example calculateSMA_prices10 :
  calculateSMA prices10 3
  = [None; None; Some 20%float; Some 30%float; Some 40%float; Some 50%float;
     Some 60%float; Some 70%float; Some 80%float; Some 90%float].
Proof. vm_compute. reflexivity. Qed.

(** The same prices with period 3 and with period 11, longer than the
    sequence. *)
Lemma calculateSMA_spec_witness :
  (1 <= 3)%Z
  /\ List.length (calculateSMA prices10 3) = 10%nat
  /\ nth_error (calculateSMA prices10 3) 1 = Some None
  /\ nth_error (calculateSMA prices10 3) 2 = Some (Some (mean (window prices10 2 3)))
  /\ mean (window prices10 2 3) = 20%float
  /\ calculateSMA prices10 11 = repeat None 10.
Proof.
  destruct (@calculateSMA_spec float _ prices10 3 ltac:(lia))
    as (Hlen & Hnull & Hmean & _).
  destruct (@calculateSMA_spec float _ prices10 11 ltac:(lia))
    as (_ & _ & _ & Hall).
  split; [lia|]. split; [exact Hlen|].
  split; [apply Hnull; simpl; lia|].
  split; [apply (Hmean 2%nat); simpl; lia|].
  split; [vm_compute; reflexivity|].
  apply Hall. simpl. lia.
Defined.

(** Period 1 in binary64: the prices come back as they are; a negative zero
    comes back as zero, since [0 + -0] is [+0]. *)
Example calculateSMA_period_1_prices10 :
  calculateSMA prices10 1 = map Some prices10
  /\ calculateSMA [450.25; 0.125; 1e22; -3.5]%float 1
     = map Some [450.25; 0.125; 1e22; -3.5]%float
  /\ calculateSMA [(-0)%float] 1 = [Some 0%float].
Proof. vm_compute. repeat split; reflexivity. Qed.

(** A negative zero among the values: the input holds [-0] at index 1, the
    output [+0]. *)
Lemma calculateSMA_period_1_negative_zero :
  calculateSMA [450.25; (-0); 1e22]%float 1
  = [Some 450.25; Some 0; Some 1e22]%float
  /\ Prim2SF (-0)%float = S754_zero true
  /\ Prim2SF 0%float = S754_zero false.
Proof. vm_compute. repeat split; reflexivity. Qed.

(** Period 1 over doubles of every kind. *)
Lemma calculateSMA_period_1_witness :
  calculateSMA [450.25; (-0); 0; infinity; nan; -3.5]%float 1
  = [Some 450.25; Some 0; Some 0; Some infinity; Some nan; Some (-3.5)]%float.
Proof.
  exact (calculateSMA_period_1 [450.25; (-0); 0; infinity; nan; -3.5]%float).
Defined.

(** The seven most recent of forty points. *)
Example filterByTimeframe_last7 :
  filterByTimeframe "7" linear40 = skipn 33 linear40
  /\ map (fun d => date d) (filterByTimeframe "7" linear40)
     = [19994; 19995; 19996; 19997; 19998; 19999; 20000]%Z.
Proof. vm_compute. split; reflexivity. Qed.

Lemma ready_is_ready {num : Type} (cache : @Json num) : chartReady (ready cache).
Proof.
  eexists. split; [reflexivity|]. apply NoOverlay.
Defined.

(** Forty points, the whole data set shown, a 30-day average selected: the
    chart gets its third series. *)
Lemma updateChart_overlay_witness :
  chartReady (ready (JArray linear40))
  /\ exists c' : @Chart float,
       updateChart floatWorld (ready (JArray linear40))
       = (Normal tt, withChart (ready (JArray linear40)) (Some c'))
       /\ List.length (datasets c') = 3%nat.
Proof.
  split; [apply ready_is_ready|].
  destruct (@updateChart_overlay float _ floatWorld (ready (JArray linear40))
              linear40 (ready_is_ready _) eq_refl ltac:(discriminate))
    as (c' & Hrun & _ & _ & Hthree & _).
  exists c'. split; [exact Hrun|].
  apply Hthree. exists 30%Z. repeat split; vm_compute; congruence.
Defined.

(** Selecting period 0 after period 30 takes the overlay away again. *)
Example overlay_switched_off :
  let st1 := exec (updateChart floatWorld) (ready (JArray linear40)) in
  let st2 :=
    exec (updateChart floatWorld) (withPage st1 (select "all" "0" (page st1))) in
  option_map (fun c => map (fun d => label d) (datasets c)) (housingChart st1)
  = Some ["Active Listings"; "Avg Price/SqFt"; "30-Day SMA"]%string
  /\ option_map (fun c => map (fun d => label d) (datasets c)) (housingChart st2)
     = Some ["Active Listings"; "Avg Price/SqFt"]%string.
Proof. vm_compute. split; reflexivity. Qed.

(** The statistics of the forty points: reference 109, latest 139, a change
    of 27.5 per cent. *)
Example updateStats_linear40 :
  option_map (fun p => avg_price_per_sqft p) (referencePoint linear40)
  = Some 109%float
  /\ option_map (fun p => avg_price_per_sqft p) (latestPoint linear40)
     = Some 139%float
  /\ priceChange (page (exec (updateStats floatWorld) (ready (JArray linear40))))
     = Str "+27.5%".
Proof. vm_compute. repeat split; reflexivity. Qed.

(** The same run, through the general statement. *)
Lemma updateStats_change_witness :
  exists latest reference : @DataPoint float,
    nth_error linear40 39 = Some latest
    /\ nth_error linear40 9 = Some reference
    /\ avg_price_per_sqft latest = 139%float
    /\ avg_price_per_sqft reference = 109%float
    /\ priceChange (page (exec (updateStats floatWorld) (ready (JArray linear40))))
       = Str "+27.5%".
Proof.
  destruct (@updateStats_change float _ floatWorld (ready (JArray linear40))
              linear40 eq_refl ltac:(discriminate))
    as (latest & reference & Hl & Hr & _ & _ & Htext).
  exists latest, reference.
  split; [exact Hl|]. split; [exact Hr|].
  assert (Hlatest : latest = point 20000 139)
    by (vm_compute in Hl; injection Hl as <-; reflexivity).
  assert (Href : reference = point 19970 109)
    by (vm_compute in Hr; injection Hr as <-; reflexivity).
  split; [rewrite Hlatest; vm_compute; reflexivity|].
  split; [rewrite Href; vm_compute; reflexivity|].
  rewrite Htext, Hlatest, Href. vm_compute. reflexivity.
Defined.

(** Prices 0 and 5: the reference price is 0 and the card reads
    [+Infinity%]; a single price 0 gives [NaN%]. *)
Lemma updateStats_shows_infinity :
  priceChange (page (exec (updateStats floatWorld) (ready (JArray fromZero))))
  = Str "+Infinity%"
  /\ priceChange (page (exec (updateStats floatWorld) (ready (JArray [point 20000 0]))))
     = Str "NaN%".
Proof. vm_compute. split; reflexivity. Qed.

(** The same data set, through the general statement. *)
Lemma updateStats_zero_reference_witness :
  completion (updateStats floatWorld) (ready (JArray fromZero)) = Normal tt
  /\ (priceChange (page (exec (updateStats floatWorld) (ready (JArray fromZero))))
      = Str "NaN%"
      \/ priceChange (page (exec (updateStats floatWorld) (ready (JArray fromZero))))
         = Str "+Infinity%"
      \/ priceChange (page (exec (updateStats floatWorld) (ready (JArray fromZero))))
         = Str "-Infinity%").
Proof.
  apply (@updateStats_zero_reference floatWorld (ready (JArray fromZero)) fromZero
           (point 20000 5) (point 19999 0));
    vm_compute; reflexivity.
Defined.

(** C7.  New York on March 10, 2026 at 23:30 UTC, two days after the clocks
    went forward: [useDemoData] caches 91 points, but the day before the
    last two is there twice, March 8 (day 20520), once for 19:30 of March 7
    and once for 19:30 of March 8 in local time, and the first date is
    December 11 (day 20433), 89 days before the date of the clock, March 10
    (day 20522). *)
Lemma useDemoData_new_york :
  JS.Day (clock newYorkEvening) = 20522%Z
  /\ List.length (cachedDates (exec (useDemoData newYork) newYorkEvening)) = 91%nat
  /\ firstn 2 (cachedDates (exec (useDemoData newYork) newYorkEvening))
     = [20433; 20434]%Z
  /\ skipn 86 (cachedDates (exec (useDemoData newYork) newYorkEvening))
     = [20519; 20520; 20520; 20521; 20522]%Z.
Proof. vm_compute. repeat split; reflexivity. Qed.

(** A response with a success status and an empty array as its body: the
    array is stored, and the cache is empty after the load. *)
Lemma loadData_keeps_empty_array :
  completion (loadData floatWorld (Response true (Parsed (JArray []))))
    (ready JNull) = Normal tt
  /\ cachedData
       (exec (loadData floatWorld (Response true (Parsed (JArray [])))) (ready JNull))
     = JArray [].
Proof. split; reflexivity. Qed.

(** A failed request: the cache holds the demo data. *)
Lemma loadData_cache_witness :
  chartReady (ready (@JNull float))
  /\ completion (loadData floatWorld NetworkError) (ready JNull) = Normal tt
  /\ cachedData (exec (loadData floatWorld NetworkError) (ready JNull))
     = JArray (demoData floatWorld 1728000000000 0)
  /\ List.length (demoData floatWorld 1728000000000 0) = 91%nat.
Proof.
  split; [apply ready_is_ready|].
  destruct (@loadData_cache float _ _ floatWorld NetworkError (ready JNull)
              (ready_is_ready _)) as (Hc & _ & Hd & Hlen).
  split; [exact Hc|]. split; [exact Hd | exact Hlen].
Defined.

(** *** Sample runs of the further properties *)

(** Periods 0 and -3 over the ten prices: no entry is [null]. *)
Lemma calculateSMA_nonpositive_period_witness :
  calculateSMA prices10 0 = map (fun _ => Some (div (ofZ 0) (ofZ 0))) prices10
  /\ calculateSMA prices10 (-3)
     = map (fun _ => Some (div (ofZ 0) (ofZ (-3)))) prices10.
Proof. split; apply calculateSMA_nonpositive_period; lia. Defined.

(** In binary64 the entries for period 0 are NaN and those for a negative
    period are [-0]. *)
Example calculateSMA_period_0_prices10 :
  map (option_map Prim2SF) (calculateSMA prices10 0) = repeat (Some S754_nan) 10
  /\ map (option_map Prim2SF) (calculateSMA prices10 (-3))
     = repeat (Some (S754_zero true)) 10.
Proof. vm_compute. split; reflexivity. Qed.

(** A negative time frame drops the first points. *)
Lemma filterByTimeframe_suffix_witness :
  filterByTimeframe "-7" linear40 = skipn 7 linear40.
Proof.
  exact (proj2 (proj2 (@filterByTimeframe_suffix float "-7" linear40 eq_refl))
           (-7)%Z eq_refl ltac:(lia)).
Defined.

(** Time frames that are no window: a text, 0, and a negative number. *)
Example filterByTimeframe_edges :
  filterByTimeframe "week" linear40 = linear40
  /\ filterByTimeframe "0" linear40 = linear40
  /\ filterByTimeframe "-7" linear40 = skipn 7 linear40.
Proof. vm_compute. repeat split; reflexivity. Qed.

(** Forty points drawn twice. *)
Lemma updateChart_twice_witness :
  exists c1 c2 : @Chart float,
    housingChart (exec (updateChart floatWorld) (ready (JArray linear40))) = Some c1
    /\ updateChart floatWorld
         (exec (updateChart floatWorld) (ready (JArray linear40)))
       = (Normal tt,
          withChart (exec (updateChart floatWorld) (ready (JArray linear40)))
            (Some c2))
    /\ labels c2 = labels c1
    /\ datasets c2 = datasets c1
    /\ redraws c2 = S (redraws c1).
Proof.
  apply (@updateChart_twice float _ floatWorld (ready (JArray linear40)) linear40);
    [apply ready_is_ready | reflexivity | discriminate].
Defined.

(** Forty points: forty labels, and forty entries in each of the three
    series. *)
Lemma updateChart_aligned_witness :
  exists c' : @Chart float,
    housingChart (exec (updateChart floatWorld) (ready (JArray linear40))) = Some c'
    /\ List.length (labels c')
       = List.length (filterByTimeframe (timeframeSelect (page (ready (JArray linear40))))
                        linear40)
    /\ forall s : @Series float,
         In s (datasets c') -> List.length (data s) = List.length (labels c').
Proof.
  apply (@updateChart_aligned float _ floatWorld (ready (JArray linear40)) linear40);
    [apply ready_is_ready | reflexivity | discriminate].
Defined.

Lemma shortWindow_is_ready : chartReady shortWindow.
Proof.
  eexists. split; [reflexivity|]. apply NoOverlay.
Defined.

(** A 30-day average over a window of 7 days: no overlay. *)
Lemma overlay_needs_window_witness :
  exists c' : @Chart float,
    updateChart floatWorld shortWindow = (Normal tt, withChart shortWindow (Some c'))
    /\ overlay c' = None
    /\ List.length (datasets c') = 2%nat.
Proof.
  apply (@overlay_needs_window float _ floatWorld shortWindow linear40 7 30);
    [apply shortWindow_is_ready | reflexivity | discriminate | reflexivity | lia
    | reflexivity | lia].
Defined.

(** A failed request logs its error and the use of the demo data. *)
Lemma loadData_console_witness :
  exists e : string,
    console (exec (loadData floatWorld NetworkError) (ready JNull))
    = (console (ready (@JNull float))
       ++ [("Error loading data: " ++ e)%string; "Using demo data"%string])%list.
Proof.
  exact (@loadData_console float _ _ floatWorld NetworkError (ready JNull)
           (ready_is_ready _)).
Defined.

Lemma atRest_is_settled : settled (script atRest).
Proof.
  split; [apply ready_is_ready | discriminate].
Defined.

(** A refresh whose request fails, with a change of the moving average
    meanwhile: the button comes back. *)
Lemma refreshData_button_witness :
  refreshData_resume floatWorld NetworkError
    {| refreshBtn := {| disabled := true; textContent := loadingText |};
       script := handleAll floatWorld [ChangeSma "7"] (script atRest) |}
  = (Normal tt,
     {| refreshBtn := {| disabled := false; textContent := refreshText |};
        script :=
          exec (loadData floatWorld NetworkError)
            (handleAll floatWorld [ChangeSma "7"] (script atRest)) |}).
Proof.
  exact (proj1 (proj2 (@refreshData_button float _ _ floatWorld atRest
                         [ChangeSma "7"] NetworkError atRest_is_settled))).
Defined.

(** The tooltip of a gap in the price series. *)
Lemma tooltipLabel_of_series_witness :
  tooltipLabel (fun v : float => Float64.toFixed v 0)
    {| dataset :=
         priceSeries (map Some (map (fun d => avg_price_per_sqft d) linear40));
       parsed_y := None |}
  = "Avg Price/SqFt: "%string.
Proof.
  refine (proj1 (@tooltipLabel_of_series float _ (fun v => Float64.toFixed v 0)
                   linear40 page0 _ _)).
  unfold composition. right. left. reflexivity.
Defined.

(** The tooltips of a price, of a listings count and of an entry of the
    overlay. *)
Example tooltipLabel_values :
  tooltipLabel (fun v : float => Float64.toFixed v 0)
    {| dataset := priceSeries []; parsed_y := Some 450.5%float |}
  = "Avg Price/SqFt: $450.50"%string
  /\ tooltipLabel (fun v : float => Float64.toFixed v 0)
       {| dataset := listingsSeries []; parsed_y := Some 45%float |}
     = "Active Listings: 45"%string
  /\ tooltipLabel (fun v : float => Float64.toFixed v 0)
       {| dataset := smaSeries (smaLabel 30) []; parsed_y := Some 451.125%float |}
     = "30-Day SMA: $451.13"%string.
Proof. vm_compute. repeat split; reflexivity. Qed.

(** A data set of one point: the change is [+0.0%]. *)
Lemma updateStats_unchanged_price_witness :
  updateStats floatWorld (ready (JArray single))
  = (Normal tt,
     withPage (ready (JArray single))
       (statsPage floatWorld (page (ready (JArray single)))
          (point 20000 450) (point 20000 450)))
  /\ priceChange (page (exec (updateStats floatWorld) (ready (JArray single))))
     = Str "+0.0%"
  /\ priceChangeColor (page (exec (updateStats floatWorld) (ready (JArray single))))
     = "#81c995"%string.
Proof.
  apply (@updateStats_unchanged_price floatWorld (ready (JArray single)) single
           (point 20000 450) (point 20000 450));
    [reflexivity | reflexivity | reflexivity | reflexivity|].
  exists false, 7916483719987200%positive, (-44)%Z. vm_compute. reflexivity.
Defined.

(** A NaN at index 1 and period 2: the entry at index 2 is NaN. *)
Lemma calculateSMA_nan_witness :
  exists a : float,
    nth_error (calculateSMA [1; nan; 3; 4]%float 2) 2 = Some (Some a)
    /\ Prim2SF a = S754_nan.
Proof.
  apply (@calculateSMA_nan [1; nan; 3; 4]%float 2 2 1 nan);
    [lia | simpl; lia | lia | lia | reflexivity | reflexivity].
Defined.

(** The same values in full: the entries at indices 1 and 2 are NaN, the
    last one is the mean of 3 and 4. *)
Example calculateSMA_nan_values :
  map (option_map Prim2SF) (calculateSMA [1; nan; 3; 4]%float 2)
  = [None; Some S754_nan; Some S754_nan; Some (Prim2SF 3.5)].
Proof. vm_compute. reflexivity. Qed.

(** *** The demo data of a sample run *)

(** The sample sine stays between -1 and 1, and the sample random numbers
    in [0, 1). *)
Lemma sample_sine_bounded : sineBounded sine.
Proof.
  intros x _. unfold sine. cbv zeta.
  set (y := (x * sineSeries (x * x) 1 30)%float).
  destruct (y <=? 1)%float eqn:H1; [|split; reflexivity].
  destruct (-1 <=? y)%float eqn:H2; [now split | split; reflexivity].
Qed.

Lemma sample_random_checked :
  forallb (fun z : Z =>
             (0 <=? Float64.ofZ z / 100)%float && (Float64.ofZ z / 100 <? 1)%float)
          (JS.indices 100) = true.
Proof. vm_compute. reflexivity. Qed.

Lemma sample_random_unit (k : nat) : inUnit (random newYork k).
Proof.
  cbn [random newYork].
  pose proof sample_random_checked as H. rewrite forallb_forall in H.
  pose proof (Z.mod_pos_bound (Z.of_nat k * 61) 100 ltac:(lia)) as Hm.
  specialize (H _ (@in_indices 100 (Z.of_nat k * 61 mod 100)%Z ltac:(lia))).
  apply andb_prop in H. exact H.
Qed.

(** The first point of a run in New York, and all the points of the run. *)
Lemma demoData_nonnegative_witness :
  nonnegative (demoPoint newYork 1773185400000 90 0.25%float 0.75%float)
  /\ Forall nonnegative (demoData newYork 1773185400000 0).
Proof.
  destruct (@demoData_nonnegative sine sample_sine_bounded newYork) as [H1 H2].
  split.
  - apply H1; [lia | split; reflexivity | split; reflexivity].
  - apply Forall_forall.
    apply (H2 sample_random_unit newYorkEvening).
    apply (@useDemoData_cachedData float _ _ newYork newYorkEvening).
Defined.

Lemma demoData_range_witness :
  inRange (demoPoint newYork 1773185400000 90 0.25%float 0.75%float)
  /\ Forall inRange (demoData newYork 1773185400000 0).
Proof.
  destruct (@demoData_range sine sample_sine_bounded newYork) as [H1 H2].
  split.
  - apply H1; [lia | split; reflexivity | split; reflexivity].
  - apply Forall_forall.
    apply (H2 sample_random_unit newYorkEvening).
    apply (@useDemoData_cachedData float _ _ newYork newYorkEvening).
Defined.

(** The two values of the first and of the last point of that run. *)
Example demoData_new_york_values :
  map (fun p => (active_listings p, avg_price_per_sqft p))
      (firstn 1 (demoData newYork 1773185400000 0)
       ++ skipn 90 (demoData newYork 1773185400000 0))
  = [(42%float, Float64.parseFloat "454.67"); (46%float, Float64.parseFloat "494.55")].
Proof. vm_compute. reflexivity. Qed.
